(** * zlux-server-framework: the plugin loader ([js/plugin-loader.js])

    A shallow embedding of the plugin loader and the properties of its
    service validation, service grouping, plugin validity checks, batch
    installation and dynamic plugin addition, of the reading of the plugins
    directory and of the generated Angular module.

    Conventions of the embedding.

    - A value read from a plugin definition is a [jsval]. A number is kept
      as the text JavaScript prints for it, an object (arrays included) as
      what its conversion to a string yields; see [jsval]. A property that a
      definition lacks is [JUndefined].
    - A plugin or service definition is a record of the properties the loader
      reads, and it has no others; [Object.assign(this, def)] copies exactly
      those. The prototype of an object is a field of its record ([p_kind],
      [s_proto]) and method calls dispatch on it.
    - A definition is a value, not a reference: each call is given
      definitions whose objects no earlier call has seen, as the ones that
      [readPluginDefs] parses are. The [webContent] object that a plugin
      shares with its definition, and that is frozen with the plugin, is
      therefore never met again by a later load.
    - A [throw] is the [Throw] result. Every conversion of a value to a
      string (in a template literal, in a [+] with a string, in a [==] with a
      string, as a property key) is a step that can throw. The methods of the
      loader run in the monad [M], which threads [this] and keeps the updates
      made before a throw; [try]/[catch] is [try_catch].
    - [this.emit] and the bootstrap logger append to traces kept in the
      loader state; they return normally, and so does [console.log].
    - The collaborators that are not part of this file ([semver], [fs],
      [path], [require], [JSON], the configuration service, the
      authentication manager and the dependency graph) are interfaces:
      [SemVer] and [Host]. The plugins directory and the JSON parser of the
      files in it are the interface [PluginsDir]. [exportDef], which only
      copies properties, is not modelled.
*)

From Stdlib Require Import ZArith NArith Ascii String List Bool Lia.
From stdpp Require Import base option list strings gmap pretty.

Local Open Scope Z_scope.
Local Open Scope string_scope.
Local Open Scope list_scope.
Local Open Scope stdpp_scope.

(* ------------------------------------------------------------------ *)
(** ** JavaScript values *)

(** The values of the properties of a definition.

    - [JNum text]: a number, by the text JavaScript prints for it
      ([Number::toString]: "8542", "0", "0.5", "1e+21", "NaN"). The loader
      converts numbers to strings, tests them for truthiness and compares
      them with [===]; each of the three is determined by that text.
    - [JObject text]: an object or an array, by what its conversion to a
      primitive yields: [Some s] when it yields the string [s]
      ("[object Object]" for a plain object, the joined elements for an
      array), [None] when the conversion throws a [TypeError], as it does for
      an object parsed from JSON that has a property named [toString]. The
      loader tests objects for truthiness and converts them to strings. *)
Inductive jsval :=
| JUndefined
| JNull
| JBool (b : bool)
| JNum (text : string)
| JStr (s : string)
| JObject (text : option string).

#[global] Instance jsval_eq_dec : EqDecision jsval.
Proof. solve_decision. Defined.

(** [if (v)], [!v], [a && b]: ToBoolean. *)
Definition truthy (v : jsval) : bool :=
  match v with
  | JUndefined | JNull => false
  | JBool b => b
  | JNum text => negb (String.eqb text "0") && negb (String.eqb text "NaN")
  | JStr s => negb (String.eqb s "")
  | JObject _ => true
  end.

(** [typeof v === "string"]. *)
Definition is_string (v : jsval) : bool :=
  match v with JStr _ => true | _ => false end.

(** [typeof v === "object"], for a truthy [v]. *)
Definition is_object (v : jsval) : bool :=
  match v with JObject _ => true | _ => false end.

(** [v === "lit"]. *)
Definition strict_eq (v : jsval) (lit : string) : bool :=
  match v with JStr s => String.eqb s lit | _ => false end.

(** Whether the conversion of a value to a string returns. *)
Definition convertible (v : jsval) : bool :=
  match v with JObject None => false | _ => true end.

(** The string a value is converted to, in [obj[v]], in a template literal
    and in a [+] with a string, when the conversion returns (the empty string
    stands in where it throws). *)
Definition toPropertyKey (v : jsval) : string :=
  match v with
  | JUndefined => "undefined"
  | JNull => "null"
  | JBool true => "true"
  | JBool false => "false"
  | JNum text => text
  | JStr s => s
  | JObject (Some text) => text
  | JObject None => ""
  end.

(** The value of [v == "lit"] when the comparison returns, for the literals
    of this file ("external", "import", "nodeService", "service"), none of
    which converts to a number: a number or boolean operand compares against
    NaN, [null] and [undefined] are only equal to each other, and an object
    is converted to a string first. *)
Definition loose_eq (v : jsval) (lit : string) : bool :=
  match v with
  | JStr s => String.eqb s lit
  | JNum _ | JBool _ => false
  | JUndefined | JNull => false
  | JObject (Some text) => String.eqb text lit
  | JObject None => false
  end.

(** Reading a property that a plugin's prototype declares as [null]: a
    definition that lacks the property leaves the prototype's [null]
    visible. *)
Definition inheritNull (v : jsval) : jsval :=
  match v with JUndefined => JNull | _ => v end.

(** Names every object literal inherits from [Object.prototype]: reading
    [obj[k]] for one of them on a fresh [{}] yields a truthy value that is
    not an own property. *)
Definition objectPrototypeNames : list string :=
  [ "constructor"; "__defineGetter__"; "__defineSetter__"; "hasOwnProperty";
    "__lookupGetter__"; "__lookupSetter__"; "isPrototypeOf";
    "propertyIsEnumerable"; "toString"; "valueOf"; "__proto__";
    "toLocaleString" ].

Definition inherited (k : string) : bool :=
  bool_decide (k ∈ objectPrototypeNames).

(** The own properties of [obj] after [obj[k] = v], when the assignment
    returns: a new or updated own property, except that the key "__proto__"
    reaches the setter of [Object.prototype], which replaces the prototype
    of [obj] and adds no own property. *)
Definition assignProperty {V} (k : string) (v : V) (obj : gmap string V)
    : gmap string V :=
  if String.eqb k "__proto__" then obj else <[k := v]> obj.

(* ------------------------------------------------------------------ *)
(** ** Exceptions *)

Inductive exn :=
| InvalidVersion (name version : jsval)
    (* Error(`${name}: invalid version "${version}"`) *)
| InvalidVersionRange (localName versionRange : jsval)
    (* Error(`${localName}: invalid version range "${versionRange}"`) *)
| NoFileName
    (* Error(`No file name for data service`) *)
| UnknownPluginType (identifier pluginType : jsval)
    (* Error(`${identifier}: pluginType ${pluginType} is unknown`) *)
| AlreadyRegistered
    (* Error('plugin already registered') *)
| TypeError
| ReferenceError
| AssertionError
| HostError (what : string).
    (* thrown by a collaborator: require, the configuration service, ... *)

#[global] Instance exn_eq_dec : EqDecision exn.
Proof. solve_decision. Defined.

Inductive result (A : Type) :=
| Ok (a : A)
| Throw (e : exn).
Arguments Ok {A} a.
Arguments Throw {A} e.

Definition rbind {A B} (m : result A) (k : A → result B) : result B :=
  match m with
  | Ok a => k a
  | Throw e => Throw e
  end.

#[global] Instance result_ret : MRet result := @Ok.
#[global] Instance result_bind : MBind result :=
  λ A B k m, rbind m k.

Definition is_Ok {A} (r : result A) : Prop := ∃ a, r = Ok a.
Definition is_Throw {A} (r : result A) : Prop := ∃ e, r = Throw e.

(** ToString, ToPropertyKey: a [TypeError] for an object whose conversion
    throws. *)
Definition toString (v : jsval) : result string :=
  if convertible v then Ok (toPropertyKey v) else Throw TypeError.

(** The conversions of a template literal (or of a [+] with a string) whose
    substitutions are [values], in order. The text itself is not kept. *)
Definition interpolate (values : list jsval) : result unit :=
  if forallb convertible values then Ok () else Throw TypeError.

(** [v == "lit"] *)
Definition looseEquals (v : jsval) (lit : string) : result bool :=
  if convertible v then Ok (loose_eq v lit) else Throw TypeError.

(* ------------------------------------------------------------------ *)
(** ** The [semver] package, as far as the loader uses it *)

Class SemVer := {
  (** truthiness of [semver.valid(v)] *)
  semver_valid : jsval → bool;
  (** truthiness of [semver.validRange(r)] *)
  semver_validRange : jsval → bool;
  (** [semver.gt(a, b)]; a [TypeError] when an operand is not a version *)
  semver_gt : jsval → jsval → result bool;
  (** [semver.satisfies(v, r)] *)
  semver_satisfies : jsval → jsval → bool;

  (** [semver.valid] only accepts non-empty strings, and not "__proto__" *)
  valid_is_string : ∀ v, semver_valid v = true → is_string v = true;
  valid_truthy : ∀ v, semver_valid v = true → truthy v = true;
  valid_not_proto : semver_valid (JStr "__proto__") = false;
  (** comparison is defined exactly on versions *)
  gt_defined : ∀ a b,
    semver_valid a = true → semver_valid b = true →
    ∃ r, semver_gt a b = Ok r;
  gt_invalid : ∀ a b,
    semver_valid a = false ∨ semver_valid b = false →
    semver_gt a b = Throw TypeError;
  (** and is a strict order there *)
  gt_irrefl : ∀ a, semver_gt a a ≠ Ok true;
  gt_trans : ∀ a b c,
    semver_gt a b = Ok true → semver_gt b c = Ok true →
    semver_gt a c = Ok true;
}.

(* ------------------------------------------------------------------ *)
(** ** Data model *)

(** What [configuration.getContents(["remote.json"])] returns. *)
Record RemoteConfig := {
  rc_host : jsval;
  rc_port : jsval;
}.

Record Configuration := {
  getContents_remote_json : option RemoteConfig;
}.

(** The value a [require] yields, an object or a function; only its
    identity matters. *)
Definition NodeModule := string.

(** One entry of a plugin definition's [dataServices] array. *)
Record ServiceDef := {
  sd_type : jsval;
  sd_name : jsval;
  sd_version : jsval;
  sd_versionRange : jsval;
  sd_localName : jsval;
  sd_sourceName : jsval;
  sd_sourcePlugin : jsval;
  sd_host : jsval;
  sd_port : jsval;
  sd_filename : jsval;
  sd_fileName : jsval;
  sd_source : jsval;
}.

(** The prototype of a service object. *)
Inductive ServiceClass :=
| ServiceProto
| ImportProto
| NodeServiceProto
| ExternalServiceProto.

#[global] Instance ServiceClass_eq_dec : EqDecision ServiceClass.
Proof. solve_decision. Defined.

(** A service object: the definition's properties, the configuration, and
    what the constructors add. *)
Record ServiceObj := {
  s_proto : ServiceClass;
  s_configuration : Configuration;
  s_type : jsval;
  s_name : jsval;
  s_version : jsval;
  s_versionRange : jsval;
  s_localName : jsval;
  s_sourceName : jsval;
  s_sourcePlugin : jsval;
  s_host : jsval;
  s_port : jsval;
  s_filename : jsval;
  s_fileName : jsval;
  s_source : jsval;
  s_nodeModule : option NodeModule;
}.

(** [{ highestVersion, versions }] *)
Record ServiceGroup := {
  highestVersion : jsval;
  versions : gmap string ServiceObj;
}.

(** A plugin definition ([pluginDefinition.json] plus [location]);
    [d_dataServices] is [None] when the definition has no such array. *)
Record PluginDef := {
  d_identifier : jsval;
  d_pluginVersion : jsval;
  d_apiVersion : jsval;
  d_pluginType : jsval;
  d_location : jsval;
  d_webContent : jsval;
  d_host : jsval;
  d_port : jsval;
  d_filename : jsval;
  d_authenticationCategory : jsval;
  d_dynamicallyCreated : jsval;
  d_dataServices : option (list ServiceDef);
}.

Inductive PluginKind :=
| LibraryPlugIn_
| ApplicationPlugIn_
| WindowManagerPlugIn_
| BootstrapPlugIn_
| DesktopPlugIn_
| NodeAuthenticationPlugIn_
| ProxyConnectorPlugIn_.

#[global] Instance PluginKind_eq_dec : EqDecision PluginKind.
Proof. solve_decision. Defined.

(** [this.dataServices]: absent, the definitions copied from the plugin
    definition, or the service objects [initDataServices] leaves. *)
Inductive DataServices :=
| DSNone
| DSDefs (defs : list ServiceDef)
| DSBuilt (services : list ServiceObj).

(** A plugin object. A field holds what reading the property yields (the
    [null] of the prototype where the object has no property of its own);
    [p_own] lists the names of the properties the object itself has. *)
Record PluginObj := {
  p_kind : PluginKind;
  p_identifier : jsval;
  p_pluginVersion : jsval;
  p_apiVersion : jsval;
  p_pluginType : jsval;
  p_location : jsval;
  p_webContent : jsval;
  p_webContent_path : option string;
  p_host : jsval;
  p_port : jsval;
  p_filename : jsval;
  p_authenticationCategory : jsval;
  p_dynamicallyCreated : jsval;
  p_configuration : Configuration;
  p_dataServices : DataServices;
  p_dataServicesGrouped : option (gmap string ServiceGroup);
  p_importsGrouped : option (gmap string ServiceGroup);
  p_authenticationModule : option NodeModule;
  p_own : list string;
}.

(** What [depgraph.processImports()] returns. *)
Record Reject := {
  pluginId : jsval;
  validationError_status : string;
}.

Record SortedAndRejected := {
  sr_plugins : list PluginDef;
  sr_rejects : list Reject;
}.

(** The collaborators of the loader. The configuration service closes over
    [context.config] and [context.productCode]; [authPluginRequested]
    answers from the server configuration. *)
Record Host := {
  process_cwd : string;
  fs_existsSync : jsval → bool;
  path_join : list string → string;
  require : string → result NodeModule;
  requireFromString : jsval → result NodeModule;
  getPluginConfiguration : jsval → result Configuration;
  getServiceConfiguration : jsval → jsval → result Configuration;
  (** [JSON.stringify(pluginConfiguration)] *)
  JSON_stringify : Configuration → result string;
  authPluginRequested : jsval → jsval → bool;
  registerAuthenticator : PluginObj → result unit;
  (** [new DependencyGraph(this.plugins)], [addPlugin] for each definition
      of the batch, then [processImports()] *)
  processImports : list PluginObj → list PluginDef → SortedAndRejected;
}.

(* ------------------------------------------------------------------ *)
(** ** Property updates *)

Definition set_s_proto (c : ServiceClass) (s : ServiceObj) : ServiceObj :=
  {| s_proto := c; s_configuration := s_configuration s; s_type := s_type s;
     s_name := s_name s; s_version := s_version s;
     s_versionRange := s_versionRange s; s_localName := s_localName s;
     s_sourceName := s_sourceName s; s_sourcePlugin := s_sourcePlugin s;
     s_host := s_host s; s_port := s_port s; s_filename := s_filename s;
     s_fileName := s_fileName s; s_source := s_source s;
     s_nodeModule := s_nodeModule s |}.

Definition set_s_version (v : jsval) (s : ServiceObj) : ServiceObj :=
  {| s_proto := s_proto s; s_configuration := s_configuration s;
     s_type := s_type s; s_name := s_name s; s_version := v;
     s_versionRange := s_versionRange s; s_localName := s_localName s;
     s_sourceName := s_sourceName s; s_sourcePlugin := s_sourcePlugin s;
     s_host := s_host s; s_port := s_port s; s_filename := s_filename s;
     s_fileName := s_fileName s; s_source := s_source s;
     s_nodeModule := s_nodeModule s |}.

Definition set_s_host (v : jsval) (s : ServiceObj) : ServiceObj :=
  {| s_proto := s_proto s; s_configuration := s_configuration s;
     s_type := s_type s; s_name := s_name s; s_version := s_version s;
     s_versionRange := s_versionRange s; s_localName := s_localName s;
     s_sourceName := s_sourceName s; s_sourcePlugin := s_sourcePlugin s;
     s_host := v; s_port := s_port s; s_filename := s_filename s;
     s_fileName := s_fileName s; s_source := s_source s;
     s_nodeModule := s_nodeModule s |}.

Definition set_s_port (v : jsval) (s : ServiceObj) : ServiceObj :=
  {| s_proto := s_proto s; s_configuration := s_configuration s;
     s_type := s_type s; s_name := s_name s; s_version := s_version s;
     s_versionRange := s_versionRange s; s_localName := s_localName s;
     s_sourceName := s_sourceName s; s_sourcePlugin := s_sourcePlugin s;
     s_host := s_host s; s_port := v; s_filename := s_filename s;
     s_fileName := s_fileName s; s_source := s_source s;
     s_nodeModule := s_nodeModule s |}.

Definition set_s_nodeModule (m : NodeModule) (s : ServiceObj) : ServiceObj :=
  {| s_proto := s_proto s; s_configuration := s_configuration s;
     s_type := s_type s; s_name := s_name s; s_version := s_version s;
     s_versionRange := s_versionRange s; s_localName := s_localName s;
     s_sourceName := s_sourceName s; s_sourcePlugin := s_sourcePlugin s;
     s_host := s_host s; s_port := s_port s; s_filename := s_filename s;
     s_fileName := s_fileName s; s_source := s_source s;
     s_nodeModule := Some m |}.

(** [this.location = v] *)
Definition set_p_location (v : jsval) (p : PluginObj) : PluginObj :=
  {| p_kind := p_kind p; p_identifier := p_identifier p;
     p_pluginVersion := p_pluginVersion p; p_apiVersion := p_apiVersion p;
     p_pluginType := p_pluginType p; p_location := v;
     p_webContent := p_webContent p;
     p_webContent_path := p_webContent_path p; p_host := p_host p;
     p_port := p_port p; p_filename := p_filename p;
     p_authenticationCategory := p_authenticationCategory p;
     p_dynamicallyCreated := p_dynamicallyCreated p;
     p_configuration := p_configuration p;
     p_dataServices := p_dataServices p;
     p_dataServicesGrouped := p_dataServicesGrouped p;
     p_importsGrouped := p_importsGrouped p;
     p_authenticationModule := p_authenticationModule p;
     p_own := "location" :: p_own p |}.

(** [this.webContent.path = s]: a property of the web content object, not
    of the plugin. *)
Definition set_p_webContent_path (s : string) (p : PluginObj) : PluginObj :=
  {| p_kind := p_kind p; p_identifier := p_identifier p;
     p_pluginVersion := p_pluginVersion p; p_apiVersion := p_apiVersion p;
     p_pluginType := p_pluginType p; p_location := p_location p;
     p_webContent := p_webContent p;
     p_webContent_path := Some s; p_host := p_host p;
     p_port := p_port p; p_filename := p_filename p;
     p_authenticationCategory := p_authenticationCategory p;
     p_dynamicallyCreated := p_dynamicallyCreated p;
     p_configuration := p_configuration p;
     p_dataServices := p_dataServices p;
     p_dataServicesGrouped := p_dataServicesGrouped p;
     p_importsGrouped := p_importsGrouped p;
     p_authenticationModule := p_authenticationModule p;
     p_own := p_own p |}.

(** [this.host = v] *)
Definition set_p_host (v : jsval) (p : PluginObj) : PluginObj :=
  {| p_kind := p_kind p; p_identifier := p_identifier p;
     p_pluginVersion := p_pluginVersion p; p_apiVersion := p_apiVersion p;
     p_pluginType := p_pluginType p; p_location := p_location p;
     p_webContent := p_webContent p;
     p_webContent_path := p_webContent_path p; p_host := v;
     p_port := p_port p; p_filename := p_filename p;
     p_authenticationCategory := p_authenticationCategory p;
     p_dynamicallyCreated := p_dynamicallyCreated p;
     p_configuration := p_configuration p;
     p_dataServices := p_dataServices p;
     p_dataServicesGrouped := p_dataServicesGrouped p;
     p_importsGrouped := p_importsGrouped p;
     p_authenticationModule := p_authenticationModule p;
     p_own := "host" :: p_own p |}.

(** [plugin.dynamicallyCreated = v] *)
Definition set_p_dynamicallyCreated (v : jsval) (p : PluginObj) : PluginObj :=
  {| p_kind := p_kind p; p_identifier := p_identifier p;
     p_pluginVersion := p_pluginVersion p; p_apiVersion := p_apiVersion p;
     p_pluginType := p_pluginType p; p_location := p_location p;
     p_webContent := p_webContent p;
     p_webContent_path := p_webContent_path p; p_host := p_host p;
     p_port := p_port p; p_filename := p_filename p;
     p_authenticationCategory := p_authenticationCategory p;
     p_dynamicallyCreated := v;
     p_configuration := p_configuration p;
     p_dataServices := p_dataServices p;
     p_dataServicesGrouped := p_dataServicesGrouped p;
     p_importsGrouped := p_importsGrouped p;
     p_authenticationModule := p_authenticationModule p;
     p_own := "dynamicallyCreated" :: p_own p |}.

(** The three assignments of [initDataServices]: [this.dataServicesGrouped],
    [this.importsGrouped] and, at the end, [this.dataServices]. *)
Definition set_p_services (grouped imports : gmap string ServiceGroup)
    (filtered : list ServiceObj) (p : PluginObj) : PluginObj :=
  {| p_kind := p_kind p; p_identifier := p_identifier p;
     p_pluginVersion := p_pluginVersion p; p_apiVersion := p_apiVersion p;
     p_pluginType := p_pluginType p; p_location := p_location p;
     p_webContent := p_webContent p;
     p_webContent_path := p_webContent_path p; p_host := p_host p;
     p_port := p_port p; p_filename := p_filename p;
     p_authenticationCategory := p_authenticationCategory p;
     p_dynamicallyCreated := p_dynamicallyCreated p;
     p_configuration := p_configuration p;
     p_dataServices := DSBuilt filtered;
     p_dataServicesGrouped := Some grouped;
     p_importsGrouped := Some imports;
     p_authenticationModule := p_authenticationModule p;
     p_own := "dataServicesGrouped" :: "importsGrouped" :: "dataServices"
              :: p_own p |}.

(** [this.authenticationModule = m] *)
Definition set_p_authenticationModule (m : NodeModule) (p : PluginObj)
    : PluginObj :=
  {| p_kind := p_kind p; p_identifier := p_identifier p;
     p_pluginVersion := p_pluginVersion p; p_apiVersion := p_apiVersion p;
     p_pluginType := p_pluginType p; p_location := p_location p;
     p_webContent := p_webContent p;
     p_webContent_path := p_webContent_path p; p_host := p_host p;
     p_port := p_port p; p_filename := p_filename p;
     p_authenticationCategory := p_authenticationCategory p;
     p_dynamicallyCreated := p_dynamicallyCreated p;
     p_configuration := p_configuration p;
     p_dataServices := p_dataServices p;
     p_dataServicesGrouped := p_dataServicesGrouped p;
     p_importsGrouped := p_importsGrouped p;
     p_authenticationModule := Some m;
     p_own := "authenticationModule" :: p_own p |}.

(* ------------------------------------------------------------------ *)
(** ** Services *)

Section Loader.
Context {semver : SemVer} (host : Host).

(** [Service.call(this, def, configuration, plugin)], for a [this] created
    with prototype [proto]. The warning about a missing version is built
    from the plugin's identifier, the service's name and the plugin's API
    version before the version is assigned. *)
Definition Service (proto : ServiceClass) (def : ServiceDef)
    (configuration : Configuration) (plugin : PluginObj)
    : result ServiceObj :=
  let this :=
    {| s_proto := proto; s_configuration := configuration;
       s_type := sd_type def; s_name := sd_name def;
       s_version := sd_version def; s_versionRange := sd_versionRange def;
       s_localName := sd_localName def; s_sourceName := sd_sourceName def;
       s_sourcePlugin := sd_sourcePlugin def; s_host := sd_host def;
       s_port := sd_port def; s_filename := sd_filename def;
       s_fileName := sd_fileName def; s_source := sd_source def;
       s_nodeModule := None |} in
  if decide (s_version this = JUndefined) then
    interpolate [p_identifier plugin; s_name this; p_apiVersion plugin];;
    Ok (set_s_version (p_apiVersion plugin) this)
  else Ok this.

Definition Service_validate (this : ServiceObj) : result unit :=
  if negb (semver_valid (s_version this)) then
    interpolate [s_name this; s_version this];;
    Throw (InvalidVersion (s_name this) (s_version this))
  else Ok ().

Definition Import (def : ServiceDef) (configuration : Configuration)
    (plugin : PluginObj) : result ServiceObj :=
  Service ImportProto def configuration plugin.

Definition Import_validate (this : ServiceObj) : result unit :=
  if negb (semver_validRange (s_versionRange this)) then
    interpolate [s_localName this; s_versionRange this];;
    Throw (InvalidVersionRange (s_localName this) (s_versionRange this))
  else Ok ().

Definition NodeService (def : ServiceDef) (configuration : Configuration)
    (plugin : PluginObj) : result ServiceObj :=
  Service NodeServiceProto def configuration plugin.

(** [path.join] throws a [TypeError] on an argument that is not a string. *)
Definition pathJoin (args : list jsval) : result string :=
  if forallb is_string args
  then Ok (path_join host (toPropertyKey <$> args))
  else Throw TypeError.

Definition loadImplementation (this : ServiceObj)
    (dynamicallyCreated location : jsval) : result ServiceObj :=
  if truthy dynamicallyCreated then
    nodeModule ← requireFromString host (s_source this);
    Ok (set_s_nodeModule nodeModule this)
  else
    fileLocation ←
      (if truthy (s_filename this)
       then pathJoin [location; JStr "lib"; s_filename this]
       else if truthy (s_fileName this)
       then pathJoin [location; JStr "lib"; s_fileName this]
       else Throw NoFileName);
    nodeModule ← require host fileLocation;
    Ok (set_s_nodeModule nodeModule this).

Definition ExternalService (def : ServiceDef) (configuration : Configuration)
    (plugin : PluginObj) : result ServiceObj :=
  this ← Service ExternalServiceProto def configuration plugin;
  let this :=
    if negb (truthy (s_host this)) then set_s_host (p_host plugin) this
    else this in
  let this :=
    if negb (truthy (s_port this)) then set_s_port (p_port plugin) this
    else this in
  match getContents_remote_json configuration with
  | Some remoteConfig =>
      let this :=
        if negb (truthy (s_host this)) then set_s_host (rc_host remoteConfig) this
        else this in
      let this :=
        if negb (truthy (s_port this)) then set_s_port (rc_port remoteConfig) this
        else this in
      Ok this
  | None => Ok this
  end.

(** [dataservice.validate()], through the prototype chain. *)
Definition validate (this : ServiceObj) : result unit :=
  match s_proto this with
  | ImportProto => Import_validate this
  | _ => Service_validate this
  end.

Definition makeDataService (def : ServiceDef) (plugin : PluginObj)
    : result ServiceObj :=
  configuration ←
    getServiceConfiguration host (p_identifier plugin) (sd_name def);
  dataservice ←
    (isExternal ← looseEquals (sd_type def) "external";
     if isExternal : bool then ExternalService def configuration plugin
     else
       isImport ← looseEquals (sd_type def) "import";
       if isImport : bool then Import def configuration plugin
       else
         isNodeService ← looseEquals (sd_type def) "nodeService";
         if isNodeService || strict_eq (sd_type def) "router"
         then NodeService def configuration plugin
         else Service ServiceProto def configuration plugin);
  validate dataservice;;
  Ok dataservice.

(* ------------------------------------------------------------------ *)
(** ** Plugins *)

(** The names of the properties a definition has. *)
Definition definedProperties (def : PluginDef) : list string :=
  (List.filter (λ property, negb (bool_decide (property.2 = JUndefined)))
     [ ("identifier", d_identifier def);
       ("pluginVersion", d_pluginVersion def);
       ("apiVersion", d_apiVersion def); ("pluginType", d_pluginType def);
       ("location", d_location def); ("webContent", d_webContent def);
       ("host", d_host def); ("port", d_port def);
       ("filename", d_filename def);
       ("authenticationCategory", d_authenticationCategory def);
       ("dynamicallyCreated", d_dynamicallyCreated def) ]).*1
  ++ match d_dataServices def with
     | Some _ => ["dataServices"]
     | None => []
     end.

(** [Plugin.call(this, def, configuration)], for a [this] created with the
    prototype of [kind]. [Plugin.prototype] declares [identifier],
    [apiVersion], [pluginVersion], [pluginType], [webContent], [location]
    and [dataServices] as [null], and the prototype of
    [NodeAuthenticationPlugIn] does so for [authenticationCategory] and
    [filename]. *)
Definition Plugin (kind : PluginKind) (def : PluginDef)
    (configuration : Configuration) : PluginObj :=
  let this :=
    {| p_kind := kind; p_identifier := inheritNull (d_identifier def);
       p_pluginVersion := inheritNull (d_pluginVersion def);
       p_apiVersion := inheritNull (d_apiVersion def);
       p_pluginType := inheritNull (d_pluginType def);
       p_location := inheritNull (d_location def);
       p_webContent := inheritNull (d_webContent def);
       p_webContent_path := None; p_host := d_host def;
       p_port := d_port def;
       p_filename :=
         match kind with
         | NodeAuthenticationPlugIn_ => inheritNull (d_filename def)
         | _ => d_filename def
         end;
       p_authenticationCategory :=
         match kind with
         | NodeAuthenticationPlugIn_ =>
             inheritNull (d_authenticationCategory def)
         | _ => d_authenticationCategory def
         end;
       p_dynamicallyCreated := d_dynamicallyCreated def;
       p_configuration := configuration;
       p_dataServices :=
         match d_dataServices def with
         | Some defs => DSDefs defs
         | None => DSNone
         end;
       p_dataServicesGrouped := None; p_importsGrouped := None;
       p_authenticationModule := None;
       p_own := "configuration" :: definedProperties def |} in
  if negb (truthy (p_location this))
  then set_p_location (JStr (process_cwd host)) this
  else this.

Definition Plugin_isValid (this : PluginObj) : bool :=
  truthy (p_identifier this) && is_string (p_identifier this)
  && truthy (p_pluginVersion this) && is_string (p_pluginVersion this)
  && truthy (p_apiVersion this) && is_string (p_apiVersion this)
  && truthy (p_pluginType this) && is_string (p_pluginType this).

(** The default [init]: a warning that the plugin type is not implemented,
    built from the plugin type and the identifier. *)
Definition Plugin_init (this : PluginObj) : result PluginObj :=
  interpolate [p_pluginType this; p_identifier this];;
  Ok this.

Definition initStaticWebDependencies (this : PluginObj) : result PluginObj :=
  if truthy (p_webContent this) then
    contentPath ← pathJoin [p_location this; JStr "web"];
    if negb (fs_existsSync host (JStr contentPath)) then
      interpolate [p_identifier this; p_location this];;
      Ok this
    else
      interpolate [p_identifier this; JStr contentPath];;
      (* this.webContent.path = contentPath, in strict mode *)
      match p_webContent this with
      | JObject _ => Ok (set_p_webContent_path contentPath this)
      | _ => Throw TypeError
      end
  else Ok this.

(** The local function [addService] of [initDataServices]. The container is
    an object literal: for a name inherited from [Object.prototype] the
    lookup yields that inherited value, which has no [versions], and the
    assignment to [group.versions[...]] throws. Before it throws, the first
    such call stores [highestVersion] on the inherited value, an object
    outside the loader; that write is not part of the state kept here, and
    the result below is the one of a call that finds none. *)
Definition addService (service : ServiceObj) (name : jsval)
    (container : gmap string ServiceGroup)
    : result (gmap string ServiceGroup) :=
  key ← toString name;
  if inherited key then Throw TypeError
  else
    let group :=
      match container !! key with
      | Some group => group
      | None => {| highestVersion := JNull; versions := ∅ |}
      end in
    highest ←
      (if negb (truthy (highestVersion group)) then Ok (s_version service)
       else
         greater ← semver_gt (s_version service) (highestVersion group);
         Ok (if greater : bool then s_version service
             else highestVersion group));
    version ← toString (s_version service);
    Ok (<[key := {| highestVersion := highest;
                    versions :=
                      assignProperty version service (versions group) |}]>
          container).

(** The state of the loop of [initDataServices]:
    [this.dataServicesGrouped], [this.importsGrouped], [filteredDataServices]. *)
Record Grouping := {
  g_dataServicesGrouped : gmap string ServiceGroup;
  g_importsGrouped : gmap string ServiceGroup;
  g_filteredDataServices : list ServiceObj;
}.

(** The body of the loop; each branch builds its log message from the
    plugin's identifier and names of the service. *)
Definition initDataServices_step (this : PluginObj) (st : Grouping)
    (dataServiceDef : ServiceDef) : result Grouping :=
  dataservice ← makeDataService dataServiceDef this;
  isService ← looseEquals (s_type dataservice) "service";
  if isService : bool then
    grouped ← addService dataservice (s_name dataservice)
                (g_dataServicesGrouped st);
    interpolate [p_identifier this; s_name dataservice];;
    Ok {| g_dataServicesGrouped := grouped;
          g_importsGrouped := g_importsGrouped st;
          g_filteredDataServices :=
            g_filteredDataServices st ++ [dataservice] |}
  else if strict_eq (s_type dataservice) "import" then
    interpolate [p_identifier this; s_sourceName dataservice;
                 s_sourcePlugin dataservice; s_localName dataservice];;
    imports ← addService dataservice (s_localName dataservice)
                (g_importsGrouped st);
    Ok {| g_dataServicesGrouped := g_dataServicesGrouped st;
          g_importsGrouped := imports;
          g_filteredDataServices :=
            g_filteredDataServices st ++ [dataservice] |}
  else
    isNodeService ← looseEquals (s_type dataservice) "nodeService";
    if isNodeService || strict_eq (s_type dataservice) "router" then
      dataservice ← loadImplementation dataservice
                      (p_dynamicallyCreated this) (p_location this);
      interpolate [p_identifier this; s_name dataservice];;
      grouped ← addService dataservice (s_name dataservice)
                  (g_dataServicesGrouped st);
      Ok {| g_dataServicesGrouped := grouped;
            g_importsGrouped := g_importsGrouped st;
            g_filteredDataServices :=
              g_filteredDataServices st ++ [dataservice] |}
    else
      isExternal ← looseEquals (s_type dataservice) "external";
      if isExternal : bool then
        grouped ← addService dataservice (s_name dataservice)
                    (g_dataServicesGrouped st);
        interpolate [p_identifier this; s_name dataservice];;
        Ok {| g_dataServicesGrouped := grouped;
              g_importsGrouped := g_importsGrouped st;
              g_filteredDataServices :=
                g_filteredDataServices st ++ [dataservice] |}
      else
        interpolate [p_identifier this; s_name dataservice];;
        Ok st.

Fixpoint initDataServices_loop (this : PluginObj) (st : Grouping)
    (defs : list ServiceDef) : result Grouping :=
  match defs with
  | [] => Ok st
  | dataServiceDef :: rest =>
      st ← initDataServices_step this st dataServiceDef;
      initDataServices_loop this st rest
  end.

Definition initDataServices (this : PluginObj) : result PluginObj :=
  match p_dataServices this with
  | DSNone => Ok this
  | DSBuilt _ => Ok this
  | DSDefs defs =>
      st ← initDataServices_loop this
             {| g_dataServicesGrouped := ∅; g_importsGrouped := ∅;
                g_filteredDataServices := [] |} defs;
      Ok (set_p_services (g_dataServicesGrouped st) (g_importsGrouped st)
            (g_filteredDataServices st) this)
  end.

(** The plugin constructors. All but [ProxyConnectorPlugIn] only call
    [Plugin]. *)
Definition LibraryPlugIn := Plugin LibraryPlugIn_.
Definition ApplicationPlugIn := Plugin ApplicationPlugIn_.
Definition WindowManagerPlugIn := Plugin WindowManagerPlugIn_.
Definition BootstrapPlugIn := Plugin BootstrapPlugIn_.
Definition DesktopPlugIn := Plugin DesktopPlugIn_.
Definition NodeAuthenticationPlugIn := Plugin NodeAuthenticationPlugIn_.

Definition ProxyConnectorPlugIn (def : PluginDef)
    (configuration : Configuration) : PluginObj :=
  let this := Plugin ProxyConnectorPlugIn_ def configuration in
  match getContents_remote_json configuration with
  | Some remoteConfig =>
      let this :=
        if negb (truthy (p_host this))
        then set_p_host (rc_host remoteConfig) this
        else this in
      let this :=
        if negb (truthy (p_port this))
        then set_p_host (rc_port remoteConfig) this   (* this.host = remoteConfig.port *)
        else this in
      this
  | None => this
  end.

Definition LibraryPlugIn_init (this : PluginObj) : result PluginObj :=
  if negb (strict_eq (p_pluginType this) "library") then Throw AssertionError
  else if negb (fs_existsSync host (p_location this))
  then Throw ReferenceError   (* the message reads [def.identifier]; no [def] is in scope *)
  else
    interpolate [p_identifier this; p_location this];;
    Ok this.

Definition NodeAuthenticationPlugIn_isValid (this : PluginObj) : bool :=
  if negb (Plugin_isValid this && truthy (p_filename this)
           && truthy (p_authenticationCategory this))
  then false
  else if negb (authPluginRequested host (p_identifier this)
                  (p_authenticationCategory this))
  then false
  else true.

Definition NodeAuthenticationPlugIn_init (this : PluginObj)
    : result PluginObj :=
  filepath ← pathJoin [p_location this; JStr "lib"; p_filename this];
  interpolate [p_identifier this; JStr filepath];;
  authenticationModule ← require host filepath;
  let this := set_p_authenticationModule authenticationModule this in
  registerAuthenticator host this;;
  Ok this.

Definition ProxyConnectorPlugIn_isValid (this : PluginObj) : bool :=
  if negb (Plugin_isValid this && truthy (p_host this)
           && truthy (p_port this))
  then false
  else if negb (authPluginRequested host (p_identifier this)
                  (p_authenticationCategory this))
  then false
  else true.

(** [plugin.isValid(context)] and [plugin.init(context)], through the
    prototype chain. *)
Definition isValid (this : PluginObj) : bool :=
  match p_kind this with
  | NodeAuthenticationPlugIn_ => NodeAuthenticationPlugIn_isValid this
  | ProxyConnectorPlugIn_ => ProxyConnectorPlugIn_isValid this
  | _ => Plugin_isValid this
  end.

Definition init (this : PluginObj) : result PluginObj :=
  match p_kind this with
  | LibraryPlugIn_ => LibraryPlugIn_init this
  | NodeAuthenticationPlugIn_ => NodeAuthenticationPlugIn_init this
  | _ => Plugin_init this
  end.

Definition plugInConstructorsByType (pluginType : string)
    : option (PluginDef → Configuration → PluginObj) :=
  if String.eqb pluginType "library" then Some LibraryPlugIn
  else if String.eqb pluginType "application" then Some ApplicationPlugIn
  else if String.eqb pluginType "windowManager" then Some WindowManagerPlugIn
  else if String.eqb pluginType "bootstrap" then Some BootstrapPlugIn
  else if String.eqb pluginType "desktop" then Some DesktopPlugIn
  else if String.eqb pluginType "nodeAuthentication"
       then Some NodeAuthenticationPlugIn
  else if String.eqb pluginType "proxyConnector" then Some ProxyConnectorPlugIn
  else None.

(** What [makePlugin] returns: a plugin object, or, for the plugin type
    "constructor", the definition it was given. *)
Inductive Made :=
| MadePlugin (plugin : PluginObj)
| MadeDefinition (def : PluginDef).

(** [plugInConstructorsByType] is an object literal. For the plugin type
    "constructor" the lookup yields [Object], and [new Object(def, ...)]
    returns [def] itself. For any other name inherited from
    [Object.prototype] the lookup is truthy but yields no constructor, and
    [new] throws a [TypeError]. *)
Definition makePlugin (def : PluginDef) (pluginConfiguration : Configuration)
    : result Made :=
  key ← toString (d_pluginType def);
  match plugInConstructorsByType key with
  | Some pluginConstr => Ok (MadePlugin (pluginConstr def pluginConfiguration))
  | None =>
      if String.eqb key "constructor" then Ok (MadeDefinition def)
      else if inherited key then Throw TypeError
      else
        interpolate [d_identifier def; d_pluginType def];;
        Throw (UnknownPluginType (d_identifier def) (d_pluginType def))
  end.

(** A method call on what [makePlugin] returned: a definition has none of
    the methods of a plugin. *)
Definition asPlugin (made : Made) : result PluginObj :=
  match made with
  | MadePlugin plugin => Ok plugin
  | MadeDefinition _ => Throw TypeError
  end.

End Loader.

(* ------------------------------------------------------------------ *)
(** ** The loader object *)

Inductive Event :=
| givePluginAmount (data : nat)
| pluginAdded (data : PluginObj).

(** The [info] and [warn] messages of [installPlugins] and
    [addDynamicPlugin]. *)
Inductive LogEntry :=
| Warn_couldNotInitialize (rejected : Reject)
| Warn_invalidSkipping (location : jsval)
| Info_loaded (identifier location : jsval)
| Info_failedToLoad (identifier : jsval) (e : exn)
| Info_batchProcessed (successCount total : nat)
| Info_addingDynamic (identifier : jsval).

(** The object [this.pluginMap]: its own properties and, once an assignment
    under the key "__proto__" has replaced its prototype, the plugin that is
    its prototype ([None] while the prototype is [Object.prototype]). *)
Record PluginMap := {
  properties : gmap string PluginObj;
  prototype : option PluginObj;
}.

(** [this.plugins], [this.pluginMap], and the traces of [this.emit] and of
    the bootstrap logger. *)
Record PluginLoader := {
  plugins : list PluginObj;
  pluginMap : PluginMap;
  emitted : list Event;
  logged : list LogEntry;
}.

(** [new PluginLoader(options)] *)
Definition newPluginLoader : PluginLoader :=
  {| plugins := []; pluginMap := {| properties := ∅; prototype := None |};
     emitted := []; logged := [] |}.

(** Methods of the loader: a computation reads and updates [this] and either
    returns or throws; updates made before a [throw] stay. *)
Definition M (A : Type) : Type := PluginLoader → result A * PluginLoader.

#[global] Instance M_ret : MRet M := λ A a this, (Ok a, this).
#[global] Instance M_bind : MBind M := λ A B k m this,
  match m this with
  | (Ok a, this') => k a this'
  | (Throw e, this') => (Throw e, this')
  end.

Definition throw {A} (e : exn) : M A := λ this, (Throw e, this).

Definition lift {A} (r : result A) : M A := λ this, (r, this).

Definition try_catch {A} (body : M A) (handler : exn → M A) : M A :=
  λ this,
    match body this with
    | (Ok a, this') => (Ok a, this')
    | (Throw e, this') => handler e this'
    end.

Definition get : M PluginLoader := λ this, (Ok this, this).

Definition log (entry : LogEntry) : M unit := λ this,
  (Ok (), {| plugins := plugins this; pluginMap := pluginMap this;
             emitted := emitted this; logged := logged this ++ [entry] |}).

Definition emit (event : Event) : M unit := λ this,
  (Ok (), {| plugins := plugins this; pluginMap := pluginMap this;
             emitted := emitted this ++ [event]; logged := logged this |}).

(** [this.plugins.push(plugin)] *)
Definition plugins_push (plugin : PluginObj) : M unit := λ this,
  (Ok (), {| plugins := plugins this ++ [plugin]; pluginMap := pluginMap this;
             emitted := emitted this; logged := logged this |}).

(** The methods every plugin inherits from its prototypes. *)
Definition pluginMethods : list string :=
  [ "constructor"; "toString"; "isValid"; "init"; "exportDef";
    "initStaticWebDependencies"; "initDataServices" ].

(** Truthiness of [plugin[key]]: a property of the plugin or of its
    prototypes (whose data properties are all [null]), a method, or a name
    inherited from [Object.prototype]. *)
Definition pluginProperty_truthy (plugin : PluginObj) (key : string) : bool :=
  match
    list_find (λ property, property.1 = key)
      [ ("identifier", truthy (p_identifier plugin));
        ("pluginVersion", truthy (p_pluginVersion plugin));
        ("apiVersion", truthy (p_apiVersion plugin));
        ("pluginType", truthy (p_pluginType plugin));
        ("location", truthy (p_location plugin));
        ("webContent", truthy (p_webContent plugin));
        ("host", truthy (p_host plugin));
        ("port", truthy (p_port plugin));
        ("filename", truthy (p_filename plugin));
        ("authenticationCategory", truthy (p_authenticationCategory plugin));
        ("dynamicallyCreated", truthy (p_dynamicallyCreated plugin));
        ("configuration", true);
        ("dataServices",
         match p_dataServices plugin with DSNone => false | _ => true end);
        ("dataServicesGrouped",
         bool_decide (is_Some (p_dataServicesGrouped plugin)));
        ("importsGrouped", bool_decide (is_Some (p_importsGrouped plugin)));
        ("authenticationModule",
         bool_decide (is_Some (p_authenticationModule plugin))) ]
  with
  | Some (_, property) => property.2
  | None => bool_decide (key ∈ pluginMethods) || inherited key
  end.

(** Truthiness of [pluginMap[key]]: an own property, or what the prototype
    of the map yields. *)
Definition pluginMap_truthy (map : PluginMap) (key : string) : bool :=
  bool_decide (is_Some (properties map !! key))
  || match prototype map with
     | None => inherited key
     | Some plugin => pluginProperty_truthy plugin key
     end.

(** Modelled from the spec: [zluxUtil.deepFreeze] ([./util] is not among the
    sources) is the "deep-freeze of accepted plugin objects" of section 5:
    it freezes the object it is given, with the objects nested in it, and
    returns it. A frozen plugin is the same value; what the freeze changes
    is that its own properties are read-only, which [pluginMap_assign]
    accounts for. Every plugin that is assigned to [this.pluginMap] was
    frozen before. *)
Definition deepFreeze (plugin : PluginObj) : PluginObj := plugin.

(** [pluginMap[key] = plugin], in strict mode. The key "__proto__" reaches
    the setter of [Object.prototype] and makes [plugin] the prototype of the
    map. Otherwise the map gets or updates an own property, unless it has
    none of that name and the plugin that is its prototype, which is frozen,
    has one: the assignment then throws a [TypeError]. *)
Definition pluginMap_assign (key : string) (plugin : PluginObj)
    (map : PluginMap) : result PluginMap :=
  if String.eqb key "__proto__" then
    Ok {| properties := properties map; prototype := Some plugin |}
  else if bool_decide (is_Some (properties map !! key))
          || match prototype map with
             | Some frozen => negb (bool_decide (key ∈ p_own frozen))
             | None => true
             end
  then Ok {| properties := <[key := plugin]> (properties map);
             prototype := prototype map |}
  else Throw TypeError.

(** [this.pluginMap[identifier] = plugin] *)
Definition pluginMap_set (identifier : jsval) (plugin : PluginObj) : M unit :=
  λ this,
    match key ← toString identifier;
          pluginMap_assign key plugin (pluginMap this) with
    | Ok map =>
        (Ok (), {| plugins := plugins this; pluginMap := map;
                   emitted := emitted this; logged := logged this |})
    | Throw e => (Throw e, this)
    end.

(** [this.pluginMap[identifier]], as a condition *)
Definition pluginMap_has (identifier : jsval) : M bool :=
  λ this,
    match toString identifier with
    | Ok key => (Ok (pluginMap_truthy (pluginMap this) key), this)
    | Throw e => (Throw e, this)
    end.

Fixpoint forEach {A} (xs : list A) (body : A → M unit) : M unit :=
  match xs with
  | [] => mret ()
  | x :: rest => body x;; forEach rest body
  end.

Section Methods.
Context {semver : SemVer} (host : Host).

(** One iteration of the second loop of [installPlugins]; the result is the
    new value of [successCount]. *)
Definition installPlugins_iteration (pluginDef : PluginDef)
    (successCount : nat) : M nat :=
  try_catch
    (pluginConfiguration ←
       lift (getPluginConfiguration host (d_identifier pluginDef));
     lift (interpolate [d_identifier pluginDef]);;
     lift (JSON_stringify host pluginConfiguration);;
     plugin ← lift (makePlugin host pluginDef pluginConfiguration);
     plugin ← lift (asPlugin plugin);            (* plugin.isValid(...) *)
     if negb (isValid host plugin) then
       lift (interpolate [d_location pluginDef]);;
       log (Warn_invalidSkipping (d_location pluginDef));;
       mret successCount                                   (* continue *)
     else
       plugin ← lift (initDataServices host plugin);
       plugin ← lift (initStaticWebDependencies host plugin);
       plugin ← lift (init host plugin);
       lift (interpolate [p_identifier plugin; p_location plugin]);;
       log (Info_loaded (p_identifier plugin) (p_location plugin));;
       lift (interpolate [p_identifier plugin]);;    (* plugin.toString() *)
       plugins_push (deepFreeze plugin);;
       pluginMap_set (p_identifier plugin) plugin;;
       mret (S successCount))
    (λ e,
       lift (interpolate [d_identifier pluginDef]);;
       log (Info_failedToLoad (d_identifier pluginDef) e);;
       mret successCount).

Fixpoint installPlugins_loop (pluginDefs : list PluginDef)
    (successCount : nat) : M nat :=
  match pluginDefs with
  | [] => mret successCount
  | pluginDef :: rest =>
      successCount ← installPlugins_iteration pluginDef successCount;
      installPlugins_loop rest successCount
  end.

Definition installPlugins (pluginDefs : list PluginDef) : M unit :=
  this ← get;
  let sortedAndRejectedPlugins :=
    processImports host (plugins this) pluginDefs in
  forEach (sr_rejects sortedAndRejectedPlugins)
    (λ rejectedPlugin,
       lift (interpolate [pluginId rejectedPlugin]);;
       log (Warn_couldNotInitialize rejectedPlugin));;
  successCount ←
    installPlugins_loop (sr_plugins sortedAndRejectedPlugins) 0%nat;
  log (Info_batchProcessed successCount (length pluginDefs));;
  this ← get;
  emit (givePluginAmount (length (plugins this)));;
  forEach (plugins this) (λ plugin, emit (pluginAdded plugin)).

Definition addDynamicPlugin (pluginDef : PluginDef) : M unit :=
  registered ← pluginMap_has (d_identifier pluginDef);
  if registered : bool then throw AlreadyRegistered
  else
    lift (interpolate [d_identifier pluginDef]);;
    log (Info_addingDynamic (d_identifier pluginDef));;
    pluginConfiguration ←
      lift (getPluginConfiguration host (d_identifier pluginDef));
    plugin ← lift (makePlugin host pluginDef pluginConfiguration);
    (* plugin.dynamicallyCreated = true; plugin.initDataServices(...) *)
    plugin ← lift (asPlugin plugin);
    let plugin := set_p_dynamicallyCreated (JBool true) plugin in
    plugin ← lift (initDataServices host plugin);
    plugin ← lift (init host plugin);
    let plugin := deepFreeze plugin in
    plugins_push plugin;;
    pluginMap_set (p_identifier plugin) plugin;;
    emit (pluginAdded plugin).

End Methods.

(* ------------------------------------------------------------------ *)
(** ** A reference instance of [SemVer]

    The fragment of node-semver made of plain [MAJOR.MINOR.PATCH] versions
    and of ranges that are space-separated comparators ([>=1.0.0 <2.0.0],
    [^1.2.0], [~1.2.0], [1.2.3], [*]). It instantiates the interface at
    concrete inputs; the theorems below hold for every instance. *)

Module CoreSemVer.

Fixpoint split (sep : ascii) (s : string) : list string :=
  match s with
  | EmptyString => [EmptyString]
  | String c rest =>
      if Ascii.eqb c sep then EmptyString :: split sep rest
      else match split sep rest with
           | [] => [String c EmptyString]
           | x :: xs => String c x :: xs
           end
  end.

Definition digit (c : ascii) : option N :=
  let n := N_of_ascii c in
  if (48 <=? n)%N && (n <=? 57)%N then Some (n - 48)%N else None.

Fixpoint digits (s : string) (acc : N) : option N :=
  match s with
  | EmptyString => Some acc
  | String c rest =>
      match digit c with
      | Some d => digits rest (10 * acc + d)%N
      | None => None
      end
  end.

(** A numeric identifier: digits, without a leading zero. *)
Definition numeric (s : string) : option N :=
  match s with
  | EmptyString => None
  | String c rest =>
      if Ascii.eqb c "0" && negb (String.eqb rest "") then None
      else digits s 0%N
  end.

Definition version : Type := N * N * N.

Definition parse (s : string) : option version :=
  match split "." s with
  | [a; b; c] =>
      match numeric a, numeric b, numeric c with
      | Some x, Some y, Some z => Some (x, y, z)
      | _, _, _ => None
      end
  | _ => None
  end.

Definition parse_val (v : jsval) : option version :=
  match v with JStr s => parse s | _ => None end.

Definition vgt (u v : version) : bool :=
  let '(a1, b1, c1) := u in
  let '(a2, b2, c2) := v in
  (a2 <? a1)%N
  || ((a1 =? a2)%N && ((b2 <? b1)%N || ((b1 =? b2)%N && (c2 <? c1)%N))).

Definition veq (u v : version) : bool :=
  let '(a1, b1, c1) := u in
  let '(a2, b2, c2) := v in
  (a1 =? a2)%N && (b1 =? b2)%N && (c1 =? c2)%N.

Definition vge (u v : version) : bool := vgt u v || veq u v.

(** One comparator of a range, as a predicate on versions. *)
Definition comparator (s : string) : option (version → bool) :=
  match s with
  | String ">" (String "=" r) => (λ v u, vge u v) <$> parse r
  | String "<" (String "=" r) => (λ v u, vge v u) <$> parse r
  | String ">" r => (λ v u, vgt u v) <$> parse r
  | String "<" r => (λ v u, vgt v u) <$> parse r
  | String "=" r => (λ v u, veq u v) <$> parse r
  | String "^" r =>
      (λ '(a, b, c) u,
         vge u (a, b, c)
         && vgt (if (0 <? a)%N then (a + 1, 0, 0)
                 else if (0 <? b)%N then (0, b + 1, 0)
                 else (0, 0, c + 1))%N u) <$> parse r
  | String "~" r =>
      (λ '(a, b, c) u, vge u (a, b, c) && vgt (a, b + 1, 0)%N u) <$> parse r
  | _ => if String.eqb s "*" then Some (λ _, true)
         else (λ v u, veq u v) <$> parse s
  end.

Fixpoint comparators (tokens : list string) : option (list (version → bool)) :=
  match tokens with
  | [] => Some []
  | t :: rest =>
      if String.eqb t "" then comparators rest
      else match comparator t, comparators rest with
           | Some c, Some cs => Some (c :: cs)
           | _, _ => None
           end
  end.

Definition parseRange (v : jsval) : option (list (version → bool)) :=
  match v with
  | JStr s => comparators (split " " s)
  | _ => None
  end.

Definition valid (v : jsval) : bool := bool_decide (is_Some (parse_val v)).

Definition validRange (v : jsval) : bool :=
  match parseRange v with Some _ => true | None => false end.

Definition gt (a b : jsval) : result bool :=
  match parse_val a, parse_val b with
  | Some u, Some v => Ok (vgt u v)
  | _, _ => Throw TypeError
  end.

Definition satisfies (v r : jsval) : bool :=
  match parse_val v, parseRange r with
  | Some u, Some cs => forallb (λ c, c u) cs
  | _, _ => false
  end.

Lemma vgt_irrefl u : vgt u u = false.
Proof.
  destruct u as [[a b] c]. unfold vgt.
  rewrite !N.ltb_irrefl, !N.eqb_refl. reflexivity.
Qed.

Lemma vgt_trans u v w : vgt u v = true → vgt v w = true → vgt u w = true.
Proof.
  destruct u as [[a1 b1] c1], v as [[a2 b2] c2], w as [[a3 b3] c3].
  unfold vgt.
  rewrite !orb_true_iff, !andb_true_iff, !orb_true_iff, !andb_true_iff,
    !N.ltb_lt, !N.eqb_eq.
  lia.
Qed.

Lemma parse_nonempty s : is_Some (parse s) → s ≠ "".
Proof. intros [v Hv] ->. discriminate Hv. Qed.

Lemma core_valid_is_string v : valid v = true → is_string v = true.
Proof. destruct v; intros H; try discriminate H; reflexivity. Qed.

Lemma core_valid_truthy v : valid v = true → truthy v = true.
Proof.
  destruct v; intros H; try discriminate H. simpl.
  apply bool_decide_eq_true in H. apply parse_nonempty in H.
  apply negb_true_iff, String.eqb_neq, H.
Qed.

Lemma core_gt_defined a b :
  valid a = true → valid b = true → ∃ r, gt a b = Ok r.
Proof.
  intros Ha Hb. unfold gt.
  apply bool_decide_eq_true in Ha as [u ->].
  apply bool_decide_eq_true in Hb as [v ->]. eauto.
Qed.

Lemma core_gt_invalid a b :
  valid a = false ∨ valid b = false → gt a b = Throw TypeError.
Proof.
  intros H. unfold gt.
  destruct H as [H | H]; apply bool_decide_eq_false in H;
    destruct (parse_val a), (parse_val b); try reflexivity;
    exfalso; apply H; eauto.
Qed.

Lemma core_gt_irrefl a : gt a a ≠ Ok true.
Proof.
  intros H. unfold gt in H.
  destruct (parse_val a); [|discriminate H].
  rewrite vgt_irrefl in H. discriminate H.
Qed.

Lemma core_gt_trans a b c :
  gt a b = Ok true → gt b c = Ok true → gt a c = Ok true.
Proof.
  unfold gt.
  destruct (parse_val a), (parse_val b), (parse_val c); try discriminate.
  intros [= H1] [= H2]. f_equal. eapply vgt_trans; eassumption.
Qed.

#[export] Instance instance : SemVer := {|
  semver_valid := valid;
  semver_validRange := validRange;
  semver_gt := gt;
  semver_satisfies := satisfies;
  valid_is_string := core_valid_is_string;
  valid_truthy := core_valid_truthy;
  valid_not_proto := eq_refl;
  gt_defined := core_gt_defined;
  gt_invalid := core_gt_invalid;
  gt_irrefl := core_gt_irrefl;
  gt_trans := core_gt_trans;
|}.

End CoreSemVer.

(* ------------------------------------------------------------------ *)
(** ** The dependency graph

    [./depgraph] is not among the sources. The loader takes it as the
    [processImports] of its [Host]; the module below follows sections 3 and
    4.3 of the specification and is what the reference host uses. *)

Module DependencyGraph.

Inductive Reason :=
| InvalidDefinition
| DuplicateIdentifier
| UnresolvedImport (sourceName sourcePluginId versionRange : jsval)
| DependsOnRejectedPlugin (pluginId : string)
| CyclicDependency.

Definition reasonText (r : Reason) : string :=
  match r with
  | InvalidDefinition => "InvalidDefinition"
  | DuplicateIdentifier => "DuplicateIdentifier"
  | UnresolvedImport _ _ _ => "UnresolvedImport"
  | DependsOnRejectedPlugin _ => "DependsOnRejectedPlugin"
  | CyclicDependency => "CyclicDependency"
  end.

(** Modelled from the spec: the [PluginNode] of section 3, reduced to the
    definition and its status ([None] while pending, and accepted if still
    so at the end; [Some reason] once rejected). *)
Record PluginNode := {
  definition : PluginDef;
  status : option Reason;
}.

Definition nodeId (n : PluginNode) : string :=
  toPropertyKey (d_identifier (definition n)).

Definition pending (n : PluginNode) : bool :=
  match status n with None => true | Some _ => false end.

Definition reject (r : Reason) (n : PluginNode) : PluginNode :=
  {| definition := definition n; status := Some r |}.

Definition descriptors (def : PluginDef) : list ServiceDef :=
  match d_dataServices def with Some l => l | None => [] end.

Definition isImport (d : ServiceDef) : bool := loose_eq (sd_type d) "import".

Definition importRequests (def : PluginDef) : list ServiceDef :=
  List.filter isImport (descriptors def).

Definition exposed (def : PluginDef) : list ServiceDef :=
  List.filter (λ d, negb (isImport d)) (descriptors def).

Section Graph.
Context {semver : SemVer}.

(** Modelled from the spec: [maxSatisfying] of section 4.1, the greatest
    version of the set that satisfies the range. *)
Definition maxSatisfying (versions : list jsval) (range : jsval)
    : option jsval :=
  foldl (λ best v,
           if semver_satisfies v range then
             match best with
             | None => Some v
             | Some b =>
                 match semver_gt v b with
                 | Ok true => Some v
                 | _ => Some b
                 end
             end
           else best) None versions.

(** Modelled from the spec: the local validation of section 4.2; every
    exposed descriptor carries a valid version and every import a valid
    range. *)
Definition locallyValid (def : PluginDef) : bool :=
  forallb (λ d, if isImport d then semver_validRange (sd_versionRange d)
                else semver_valid (sd_version d)) (descriptors def).

(** Modelled from the spec: the versions a provider exposes under a service
    name (sections 3 and 4.3, step 2): an already accepted plugin first,
    else the first-seen node of the batch unless it is rejected. *)
Definition providerVersions (existing : list PluginObj)
    (nodes : list PluginNode) (id name : string) : option (list jsval) :=
  match find (λ p, String.eqb (toPropertyKey (p_identifier p)) id) existing with
  | Some p =>
      match p_dataServicesGrouped p with
      | Some grouped =>
          match grouped !! name with
          | Some group => Some ((λ kv, JStr kv.1) <$> map_to_list (versions group))
          | None => Some []
          end
      | None => Some []
      end
  | None =>
      match find (λ n, String.eqb (nodeId n) id) nodes with
      | Some n =>
          if pending n then
            Some (sd_version <$>
                    List.filter (λ d, String.eqb (toPropertyKey (sd_name d)) name)
                      (exposed (definition n)))
          else None
      | None => None
      end
  end.

Definition resolved (existing : list PluginObj) (nodes : list PluginNode)
    (imp : ServiceDef) : bool :=
  match providerVersions existing nodes (toPropertyKey (sd_sourcePlugin imp))
          (toPropertyKey (sd_sourceName imp)) with
  | Some versions =>
      match maxSatisfying versions (sd_versionRange imp) with
      | Some _ => true
      | None => false
      end
  | None => false
  end.

(** Modelled from the spec: [addPlugin] of section 4.3; a definition whose
    identifier was seen before (in the accepted set or earlier in the batch)
    is flagged. *)
Fixpoint addPlugins (seen : list string) (defs : list PluginDef)
    : list PluginNode :=
  match defs with
  | [] => []
  | def :: rest =>
      let id := toPropertyKey (d_identifier def) in
      {| definition := def;
         status := if bool_decide (id ∈ seen) then Some DuplicateIdentifier
                   else None |}
      :: addPlugins (id :: seen) rest
  end.

(** Modelled from the spec: step 1 of section 4.3. *)
Definition localValidation (nodes : list PluginNode) : list PluginNode :=
  (λ n, if pending n && negb (locallyValid (definition n))
        then reject InvalidDefinition n else n) <$> nodes.

(** Modelled from the spec: step 2 of section 4.3; one unresolved import
    rejects the consuming plugin. *)
Definition edgeResolution (existing : list PluginObj)
    (nodes : list PluginNode) : list PluginNode :=
  (λ n, if pending n then
          match find (λ imp, negb (resolved existing nodes imp))
                  (importRequests (definition n)) with
          | Some imp =>
              reject (UnresolvedImport (sd_sourceName imp)
                        (sd_sourcePlugin imp) (sd_versionRange imp)) n
          | None => n
          end
        else n) <$> nodes.

(** Modelled from the spec: the dependency edges of section 3, from a node
    to its providers inside the batch. *)
Definition batchProviders (existing : list PluginObj)
    (nodes : list PluginNode) (n : PluginNode) : list PluginNode :=
  omap (λ imp,
          let id := toPropertyKey (sd_sourcePlugin imp) in
          if existsb (λ p, String.eqb (toPropertyKey (p_identifier p)) id)
               existing
          then None
          else find (λ m, String.eqb (nodeId m) id) nodes)
       (importRequests (definition n)).

(** Modelled from the spec: step 3 of section 4.3, one pass and its
    repetition ([rounds] is the number of nodes, the bound the
    specification gives for reaching the fixed point). *)
Definition cascadePass (existing : list PluginObj)
    (nodes : list PluginNode) : list PluginNode :=
  (λ n, if pending n then
          match find (λ m, negb (pending m))
                  (batchProviders existing nodes n) with
          | Some m => reject (DependsOnRejectedPlugin (nodeId m)) n
          | None => n
          end
        else n) <$> nodes.

Fixpoint cascade (rounds : nat) (existing : list PluginObj)
    (nodes : list PluginNode) : list PluginNode :=
  match rounds with
  | O => nodes
  | S rounds => cascade rounds existing (cascadePass existing nodes)
  end.

(** Modelled from the spec: step 4 of section 4.3; a node takes part in a
    cycle when it reaches itself along import edges between pending
    nodes. *)
Fixpoint reaches (steps : nat) (existing : list PluginObj)
    (nodes : list PluginNode) (from : PluginNode) (target : string) : bool :=
  match steps with
  | O => false
  | S steps =>
      existsb (λ m, pending m
                    && (String.eqb (nodeId m) target
                        || reaches steps existing nodes m target))
        (batchProviders existing nodes from)
  end.

Definition cycleDetection (existing : list PluginObj)
    (nodes : list PluginNode) : list PluginNode :=
  (λ n, if pending n && reaches (length nodes) existing nodes n (nodeId n)
        then reject CyclicDependency n else n) <$> nodes.

(** Modelled from the spec: step 5 of section 4.3; repeatedly the
    first-seen node all of whose batch providers are already placed. *)
Fixpoint ordering (rounds : nat) (existing : list PluginObj)
    (nodes : list PluginNode) (placed : list string)
    (remaining : list PluginNode) : list PluginNode :=
  match rounds with
  | O => []
  | S rounds =>
      match find (λ n, forallb (λ m, bool_decide (nodeId m ∈ placed))
                         (batchProviders existing nodes n)) remaining with
      | Some n =>
          n :: ordering rounds existing nodes (nodeId n :: placed)
                 (List.filter (λ m, negb (String.eqb (nodeId m) (nodeId n)))
                    remaining)
      | None => []
      end
  end.

(** Modelled from the spec: [./depgraph] (the [DependencyGraph] class with
    [addPlugin] and [processImports]) is not among the sources; this is the
    algorithm of section 4.3 of the specification, over the accepted set
    the graph is created with and the definitions added to it. *)
Definition processImports (existing : list PluginObj)
    (defs : list PluginDef) : SortedAndRejected :=
  let rounds := length defs in
  let nodes :=
    addPlugins ((λ p, toPropertyKey (p_identifier p)) <$> existing) defs in
  let nodes := localValidation nodes in
  let nodes := edgeResolution existing nodes in
  let nodes := cascade rounds existing nodes in
  let nodes := cycleDetection existing nodes in
  let nodes := cascade rounds existing nodes in
  let survivors := List.filter pending nodes in
  {| sr_plugins :=
       definition <$> ordering rounds existing survivors [] survivors;
     sr_rejects :=
       omap (λ n, match status n with
                  | Some r =>
                      Some {| pluginId := d_identifier (definition n);
                              validationError_status := reasonText r |}
                  | None => None
                  end) nodes |}.

End Graph.
End DependencyGraph.

(* ------------------------------------------------------------------ *)
(** ** A reference host

    A file system where every path exists and every module loads, no
    [remote.json] unless [remote] supplies one, a server configuration that
    requests the authentication plugin [org.zowe.zlux.auth.trivial] for the
    category [fallback], and the dependency graph above. *)

Definition referenceHost (remote : option RemoteConfig) : Host :=
  {| process_cwd := "/opt/zlux";
     fs_existsSync := λ _, true;
     path_join := String.concat "/";
     require := λ path, Ok path;
     requireFromString := λ source,
       match source with JStr s => Ok s | _ => Throw TypeError end;
     getPluginConfiguration := λ _, Ok {| getContents_remote_json := remote |};
     getServiceConfiguration := λ _ _,
       Ok {| getContents_remote_json := remote |};
     JSON_stringify := λ _, Ok "{}";
     authPluginRequested := λ identifier category,
       bool_decide (identifier = JStr "org.zowe.zlux.auth.trivial")
       && bool_decide (category = JStr "fallback");
     registerAuthenticator := λ _, Ok ();
     processImports :=
       @DependencyGraph.processImports CoreSemVer.instance |}.

(** Definitions used to exercise the loader. *)
Definition emptyServiceDef : ServiceDef :=
  {| sd_type := JUndefined; sd_name := JUndefined; sd_version := JUndefined;
     sd_versionRange := JUndefined; sd_localName := JUndefined;
     sd_sourceName := JUndefined; sd_sourcePlugin := JUndefined;
     sd_host := JUndefined; sd_port := JUndefined;
     sd_filename := JUndefined; sd_fileName := JUndefined;
     sd_source := JUndefined |}.

Definition serviceDef (type name version : string) : ServiceDef :=
  {| sd_type := JStr type; sd_name := JStr name; sd_version := JStr version;
     sd_versionRange := JUndefined; sd_localName := JUndefined;
     sd_sourceName := JUndefined; sd_sourcePlugin := JUndefined;
     sd_host := JUndefined; sd_port := JUndefined;
     sd_filename := JUndefined; sd_fileName := JUndefined;
     sd_source := JUndefined |}.

Definition importDef (sourcePlugin sourceName versionRange localName : string)
    : ServiceDef :=
  {| sd_type := JStr "import"; sd_name := JUndefined;
     sd_version := JUndefined;
     sd_versionRange := JStr versionRange; sd_localName := JStr localName;
     sd_sourceName := JStr sourceName; sd_sourcePlugin := JStr sourcePlugin;
     sd_host := JUndefined; sd_port := JUndefined;
     sd_filename := JUndefined; sd_fileName := JUndefined;
     sd_source := JUndefined |}.

Definition pluginDef (identifier pluginType : string)
    (dataServices : option (list ServiceDef)) : PluginDef :=
  {| d_identifier := JStr identifier; d_pluginVersion := JStr "1.0.0";
     d_apiVersion := JStr "1.0.0"; d_pluginType := JStr pluginType;
     d_location := JStr ("/opt/zlux/plugins/" +:+ identifier);
     d_webContent := JUndefined; d_host := JUndefined; d_port := JUndefined;
     d_filename := JUndefined; d_authenticationCategory := JUndefined;
     d_dynamicallyCreated := JUndefined; d_dataServices := dataServices |}.

(* ------------------------------------------------------------------ *)
(** ** Observations used to state the properties *)

Section Observations.
Context {semver : SemVer} (host : Host).

(** The version a service object carries after its constructor ran. *)
Definition effectiveVersion (def : ServiceDef) (apiVersion : jsval) : jsval :=
  if decide (sd_version def = JUndefined) then apiVersion else sd_version def.


(** The first source, in order, that holds a truthy value; the value of the
    last source when none does. *)
Fixpoint firstPresent (sources : list jsval) (last : jsval) : jsval :=
  match sources with
  | [] => last
  | v :: rest => if truthy v then v else firstPresent rest last
  end.

(** [highest] is a key of the group and no key is a greater version. *)
Definition isHighestVersion (group : ServiceGroup) : Prop :=
  semver_valid (highestVersion group) = true
  ∧ is_Some (versions group !! toPropertyKey (highestVersion group))
  ∧ ∀ k, is_Some (versions group !! k) →
         semver_valid (JStr k) = true
         ∧ semver_gt (JStr k) (highestVersion group) = Ok false.

(** What the [try] block of [installPlugins] computes for one definition
    before it touches the loader: the initialised plugin, nothing when
    [isValid] fails, or the error. *)
Definition loadPlugin (pluginDef : PluginDef) : result (option PluginObj) :=
  pluginConfiguration ← getPluginConfiguration host (d_identifier pluginDef);
  interpolate [d_identifier pluginDef];;
  JSON_stringify host pluginConfiguration;;
  plugin ← makePlugin host pluginDef pluginConfiguration;
  plugin ← asPlugin plugin;
  if negb (isValid host plugin) then
    interpolate [d_location pluginDef];;
    Ok None
  else
    plugin ← initDataServices host plugin;
    plugin ← initStaticWebDependencies host plugin;
    plugin ← init host plugin;
    interpolate [p_identifier plugin; p_location plugin];;
    Ok (Some plugin).

Definition loadedPlugin (pluginDef : PluginDef) : option PluginObj :=
  match loadPlugin pluginDef with
  | Ok (Some plugin) => Some plugin
  | _ => None
  end.

(** The message each definition the loop reaches leaves in the log, when
    the message can be built. *)
Definition loadMessage (pluginDef : PluginDef) : LogEntry :=
  match loadPlugin pluginDef with
  | Ok (Some plugin) => Info_loaded (p_identifier plugin) (p_location plugin)
  | Ok None => Warn_invalidSkipping (d_location pluginDef)
  | Throw e => Info_failedToLoad (d_identifier pluginDef) e
  end.

(** The loop of [installPlugins] is left at a definition whose identifier
    cannot be converted to a string: the debug message of the [try] block
    throws, and so does the message of the [catch] block. *)
Definition aborts (pluginDef : PluginDef) : bool :=
  negb (convertible (d_identifier pluginDef)).

(** The definitions of a list that the loop reaches: all of them, up to and
    including the first at which the loop is left. *)
Fixpoint processed (pluginDefs : list PluginDef) : list PluginDef :=
  match pluginDefs with
  | [] => []
  | pluginDef :: rest =>
      if aborts pluginDef then [pluginDef] else pluginDef :: processed rest
  end.

(** The service object the constructor for the definition's type builds. *)
Definition constructed (def : ServiceDef) (cfg : Configuration)
    (plugin : PluginObj) : result ServiceObj :=
  isExternal ← looseEquals (sd_type def) "external";
  if isExternal : bool then ExternalService def cfg plugin
  else
    isImport ← looseEquals (sd_type def) "import";
    if isImport : bool then Import def cfg plugin
    else
      isNodeService ← looseEquals (sd_type def) "nodeService";
      if isNodeService || strict_eq (sd_type def) "router"
      then NodeService def cfg plugin
      else Service ServiceProto def cfg plugin.


(** What [addDynamicPlugin] computes between its registration check and its
    updates of the loader. *)
Definition dynamicPlugin (pluginDef : PluginDef) : result PluginObj :=
  pluginConfiguration ← getPluginConfiguration host (d_identifier pluginDef);
  plugin ← makePlugin host pluginDef pluginConfiguration;
  plugin ← asPlugin plugin;
  plugin ← initDataServices host (set_p_dynamicallyCreated (JBool true) plugin);
  init host plugin.

(** What every plugin constructor makes of the definition's identifier,
    API version, authentication category and services. *)
Definition builtFrom (def : PluginDef) (p : PluginObj) : Prop :=
  p_identifier p = inheritNull (d_identifier def)
  ∧ p_apiVersion p = inheritNull (d_apiVersion def)
  ∧ inheritNull (p_authenticationCategory p)
    = inheritNull (d_authenticationCategory def)
  ∧ p_dataServices p = match d_dataServices def with
                       | Some defs => DSDefs defs
                       | None => DSNone
                       end.

(** Every group of a container has the highest of its keys as
    [highestVersion]. *)
Definition allHighest (container : gmap string ServiceGroup) : Prop :=
  ∀ name group, container !! name = Some group → isHighestVersion group.

(** Updates of the loader state. *)
Definition with_log (entries : list LogEntry) (this : PluginLoader)
    : PluginLoader :=
  {| plugins := plugins this; pluginMap := pluginMap this;
     emitted := emitted this; logged := logged this ++ entries |}.

Definition with_pushed (pushed : list PluginObj) (this : PluginLoader)
    : PluginLoader :=
  {| plugins := plugins this ++ pushed; pluginMap := pluginMap this;
     emitted := emitted this; logged := logged this |}.

Definition with_pluginMap (map : PluginMap) (this : PluginLoader)
    : PluginLoader :=
  {| plugins := plugins this; pluginMap := map;
     emitted := emitted this; logged := logged this |}.

Definition with_emitted (events : list Event) (this : PluginLoader)
    : PluginLoader :=
  {| plugins := plugins this; pluginMap := pluginMap this;
     emitted := emitted this ++ events; logged := logged this |}.

(** The map after [pluginMap[plugin.identifier] = plugin] for the plugins of
    a list, in order; an assignment that throws leaves the map as it is. *)
Fixpoint registerAll (loaded : list PluginObj) (map : PluginMap) : PluginMap :=
  match loaded with
  | [] => map
  | plugin :: rest =>
      registerAll rest
        match pluginMap_assign (toPropertyKey (p_identifier plugin)) plugin
                map with
        | Ok map' => map'
        | Throw _ => map
        end
  end.

(** The loader states that calls of the two public methods lead to. *)
Inductive reachable : PluginLoader → Prop :=
| reachable_new : reachable newPluginLoader
| reachable_installPlugins this pluginDefs r this' :
    reachable this →
    installPlugins host pluginDefs this = (r, this') →
    reachable this'
| reachable_addDynamicPlugin this pluginDef r this' :
    reachable this →
    addDynamicPlugin host pluginDef this = (r, this') →
    reachable this'.

(** Every plugin of the list [loaded] has an identifier that converts to a
    string and is an own property of the map under it. *)
Definition registered (loaded : list PluginObj) (map : PluginMap) : Prop :=
  ∀ p, p ∈ loaded →
       convertible (p_identifier p) = true
       ∧ is_Some (properties map !! toPropertyKey (p_identifier p)).

End Observations.

(* ------------------------------------------------------------------ *)
(** ** Concrete plugins *)

Definition noRemote : Configuration := {| getContents_remote_json := None |}.

(** An application plugin exposing the service [auth] in three versions. *)
Definition authProvider : PluginDef :=
  pluginDef "org.zowe.provider" "application"
    (Some [serviceDef "service" "auth" "1.0.0";
           serviceDef "service" "auth" "2.0.0";
           serviceDef "service" "auth" "1.2.0"]).

(** An application plugin importing [auth] from the provider. *)
Definition authConsumer : PluginDef :=
  pluginDef "org.zowe.consumer" "application"
    (Some [importDef "org.zowe.provider" "auth" "^1.0.0" "auth"]).

(** A plugin with an import nobody provides. *)
Definition orphan : PluginDef :=
  pluginDef "org.zowe.orphan" "application"
    (Some [importDef "org.zowe.missing" "x" "*" "x"]).



Definition authenticationDef (identifier : string) : PluginDef :=
  {| d_identifier := JStr identifier; d_pluginVersion := JStr "1.0.0";
     d_apiVersion := JStr "1.0.0"; d_pluginType := JStr "nodeAuthentication";
     d_location := JStr ("/opt/zlux/plugins/" +:+ identifier);
     d_webContent := JUndefined; d_host := JUndefined; d_port := JUndefined;
     d_filename := JStr "auth.js";
     d_authenticationCategory := JStr "fallback";
     d_dynamicallyCreated := JUndefined; d_dataServices := None |}.

(** The authentication plugin the reference host's server configuration
    requests, and one it does not request. *)
Definition requestedAuth : PluginDef :=
  authenticationDef "org.zowe.zlux.auth.trivial".

(** A proxy connector that leaves host and port to [remote.json]. *)
Definition proxyDef : PluginDef :=
  {| d_identifier := JStr "org.zowe.zlux.proxy";
     d_pluginVersion := JStr "1.0.0"; d_apiVersion := JStr "1.0.0";
     d_pluginType := JStr "proxyConnector";
     d_location := JStr "/opt/zlux/plugins/org.zowe.zlux.proxy";
     d_webContent := JUndefined; d_host := JUndefined; d_port := JUndefined;
     d_filename := JUndefined; d_authenticationCategory := JUndefined;
     d_dynamicallyCreated := JUndefined; d_dataServices := None |}.

Definition remoteJson : RemoteConfig :=
  {| rc_host := JStr "zss.example.org"; rc_port := JNum "8542" |}.

(** The plugin object the loader makes of the provider. *)
Definition providerPlugin : PluginObj :=
  ApplicationPlugIn (referenceHost None) authProvider noRemote.

(** An external service that names neither host nor port, and one that names
    its host. *)
Definition externalDef (host : jsval) : ServiceDef :=
  {| sd_type := JStr "external"; sd_name := JStr "zss";
     sd_version := JStr "1.0.0";
     sd_versionRange := JUndefined; sd_localName := JUndefined;
     sd_sourceName := JUndefined; sd_sourcePlugin := JUndefined;
     sd_host := host; sd_port := JUndefined;
     sd_filename := JUndefined; sd_fileName := JUndefined;
     sd_source := JUndefined |}.






(** An import of [auth] from the provider that carries a [version]. *)
Definition versionedImport (version : jsval) : ServiceDef :=
  {| sd_type := JStr "import"; sd_name := JUndefined;
     sd_version := version;
     sd_versionRange := JStr "*"; sd_localName := JStr "auth";
     sd_sourceName := JStr "auth"; sd_sourcePlugin := JStr "org.zowe.provider";
     sd_host := JUndefined; sd_port := JUndefined;
     sd_filename := JUndefined; sd_fileName := JUndefined;
     sd_source := JUndefined |}.

(** A plugin with three imports under one local name, whose versions are the
    empty string, 0 and [null]. *)
Definition falsyImports : PluginDef :=
  pluginDef "org.zowe.falsy" "application"
    (Some [versionedImport (JStr ""); versionedImport (JNum "0");
           versionedImport JNull]).




(** The loader after the provider was added dynamically to a fresh one. *)
Definition withProvider : PluginLoader :=
  (addDynamicPlugin (semver := CoreSemVer.instance) (referenceHost None)
     authProvider newPluginLoader).2.

(** The loader state a batch leaves, and the events it emitted. *)
Definition after {semver : SemVer} (host : Host) (pluginDefs : list PluginDef)
    (this : PluginLoader) : PluginLoader :=
  (installPlugins host pluginDefs this).2.

Definition batchEvents {semver : SemVer} (host : Host)
    (pluginDefs : list PluginDef) (this : PluginLoader) : list Event :=
  drop (length (emitted this)) (emitted (after host pluginDefs this)).

(** The plugins a batch accepts: those it appends to [this.plugins]. *)
Definition batchAccepted {semver : SemVer} (host : Host)
    (pluginDefs : list PluginDef) (this : PluginLoader) : list PluginObj :=
  drop (length (plugins this)) (plugins (after host pluginDefs this)).


(** Whether a batch is processed to the end: the warning about a rejected
    definition is built from its identifier, and the loading loop is left at
    a definition that [aborts]. *)
Definition completes {semver : SemVer} (host : Host)
    (pluginDefs : list PluginDef) (this : PluginLoader) : bool :=
  let sorted := processImports host (plugins this) pluginDefs in
  forallb (λ rejected, convertible (pluginId rejected)) (sr_rejects sorted)
  && forallb (λ def, negb (aborts def)) (sr_plugins sorted).

(** The definitions of the ordered list that the loading loop of a batch
    reaches. *)
Definition reached {semver : SemVer} (host : Host)
    (pluginDefs : list PluginDef) (this : PluginLoader) : list PluginDef :=
  let sorted := processImports host (plugins this) pluginDefs in
  if forallb (λ rejected, convertible (pluginId rejected)) (sr_rejects sorted)
  then processed (sr_plugins sorted)
  else [].


(* ------------------------------------------------------------------ *)
(** ** More concrete plugins and hosts *)

(** A proxy connector that the reference host's server configuration
    requests, with a port of its own. *)
Definition ownPortProxy : PluginDef :=
  {| d_identifier := JStr "org.zowe.zlux.auth.trivial";
     d_pluginVersion := JStr "1.0.0"; d_apiVersion := JStr "1.0.0";
     d_pluginType := JStr "proxyConnector";
     d_location := JStr "/opt/zlux/plugins/org.zowe.zlux.auth.trivial";
     d_webContent := JUndefined; d_host := JUndefined; d_port := JNum "7554";
     d_filename := JUndefined; d_authenticationCategory := JStr "fallback";
     d_dynamicallyCreated := JUndefined; d_dataServices := None |}.

(** The reference host on a disk where nothing exists but the plugins
    directory and the reference files in it. *)
Definition bareHost : Host :=
  {| process_cwd := "/opt/zlux";
     fs_existsSync := λ path,
       match path with
       | JStr s => String.prefix "/opt/zlux/pluginsDir" s
       | _ => false
       end;
     path_join := String.concat "/";
     require := λ path, Ok path;
     requireFromString := λ source,
       match source with JStr s => Ok s | _ => Throw TypeError end;
     getPluginConfiguration := λ _, Ok noRemote;
     getServiceConfiguration := λ _ _, Ok noRemote;
     JSON_stringify := λ _, Ok "{}";
     authPluginRequested := λ _ _, false;
     registerAuthenticator := λ _, Ok ();
     processImports :=
       @DependencyGraph.processImports CoreSemVer.instance |}.

(** A router implemented by the file [filename], when it names one. *)
Definition routerDef (name version : string) (filename : jsval) : ServiceDef :=
  {| sd_type := JStr "router"; sd_name := JStr name;
     sd_version := JStr version;
     sd_versionRange := JUndefined; sd_localName := JUndefined;
     sd_sourceName := JUndefined; sd_sourcePlugin := JUndefined;
     sd_host := JUndefined; sd_port := JUndefined;
     sd_filename := filename; sd_fileName := JUndefined;
     sd_source := JUndefined |}.

(** A plugin with services of every recognised type, one of them twice, and
    a service of a type the loader does not know. *)
Definition mixedServices : PluginDef :=
  pluginDef "org.zowe.mixed" "application"
    (Some [serviceDef "service" "files" "1.0.0";
           importDef "org.zowe.provider" "auth" "^1.0.0" "auth";
           serviceDef "gadget" "thing" "1.0.0";
           routerDef "jobs" "1.1.0" (JStr "jobs.js");
           externalDef JUndefined;
           serviceDef "service" "files" "1.0.0"]).

(** The plugin object the loader makes of it. *)
Definition mixedPlugin : PluginObj :=
  ApplicationPlugIn (referenceHost None) mixedServices noRemote.

(** An application with web content. *)
Definition webApp : PluginDef :=
  {| d_identifier := JStr "org.zowe.webapp"; d_pluginVersion := JStr "1.0.0";
     d_apiVersion := JStr "1.0.0"; d_pluginType := JStr "application";
     d_location := JStr "/opt/zlux/plugins/org.zowe.webapp";
     d_webContent := JObject (Some "[object Object]"); d_host := JUndefined; d_port := JUndefined;
     d_filename := JUndefined; d_authenticationCategory := JUndefined;
     d_dynamicallyCreated := JUndefined; d_dataServices := None |}.

(** A plugin whose router names no file. *)
Definition fileless : PluginDef :=
  pluginDef "org.zowe.fileless" "application"
    (Some [routerDef "jobs" "1.1.0" JUndefined]).

(* ------------------------------------------------------------------ *)
(** ** Reading the plugins directory *)

(** [a !== b] is [negb (strictEquals a b)]: two objects are never the same
    object when they come from two parsed files, and NaN is not equal to
    itself. *)
Definition strictEquals (a b : jsval) : bool :=
  match a, b with
  | JObject _, _ | _, JObject _ => false
  | JNum text, _ => negb (String.eqb text "NaN") && bool_decide (a = b)
  | _, _ => bool_decide (a = b)
  end.

(** [pluginDef.location = pluginBasePath] *)
Definition set_d_location (v : jsval) (d : PluginDef) : PluginDef :=
  {| d_identifier := d_identifier d; d_pluginVersion := d_pluginVersion d;
     d_apiVersion := d_apiVersion d; d_pluginType := d_pluginType d;
     d_location := v; d_webContent := d_webContent d; d_host := d_host d;
     d_port := d_port d; d_filename := d_filename d;
     d_authenticationCategory := d_authenticationCategory d;
     d_dynamicallyCreated := d_dynamicallyCreated d;
     d_dataServices := d_dataServices d |}.

(** Truthiness of [value.match(/.*\.json/)]: the expression is not anchored,
    so it matches every name that contains ".json". *)
Fixpoint contains (sub s : string) : bool :=
  String.prefix sub s
  || match s with
     | EmptyString => false
     | String _ rest => contains sub rest
     end.

(** A plugin reference file of the plugins directory, as far as
    [_readPluginDef] reads it. *)
Record PluginPointer := {
  ptr_identifier : jsval;
  ptr_pluginLocation : jsval;
}.

(** The plugins directory: [this.options.pluginsDir], [fs.readdirSync], and
    [jsonUtils.parseJSONWithComments] on a reference file and on a
    [pluginDefinition.json] (a file whose content is [null] makes the first
    property read throw; that is a [Throw] here). *)
Record PluginsDir := {
  pluginsDir : jsval;
  readdirSync : jsval → result (list string);
  parsePointer : string → result PluginPointer;
  parseDefinition : string → result PluginDef;
}.

(** What [_readPluginDef] throws. *)
Inductive ReadError :=
| PointerMissing (pluginPtrPath : string)
    (* Error(`${pluginPtrPath} is missing`) *)
| NoPluginDirectory (pluginDescriptorFilename : string) (pluginLocation : jsval)
    (* Error(`${...}: No plugin directory found at${pluginLocation}`) *)
| NoPluginDefinition (pluginDescriptorFilename : string) (pluginBasePath : jsval)
    (* Error(`${...}: No pluginDefinition.json found at ${pluginBasePath}`) *)
| IdentifierMismatch (definition pointer : jsval)
    (* Error(`${definition} and ${pointer} don't match - plugin ignored`) *)
| NoPluginType (identifier pluginBasePath : jsval)
    (* Error(`No plugin type found for ${identifier} ...`) *)
| Thrown (e : exn).

Section Reading.
Context {semver : SemVer} (host : Host) (dir : PluginsDir).

Definition _readPluginDef (pluginDescriptorFilename : string)
    : ReadError + PluginDef :=
  match pathJoin host [pluginsDir dir; JStr pluginDescriptorFilename] with
  | Throw e => inl (Thrown e)
  | Ok pluginPtrPath =>
  if negb (fs_existsSync host (JStr pluginPtrPath))
  then inl (PointerMissing pluginPtrPath)
  else
  match parsePointer dir pluginPtrPath with
  | Throw e => inl (Thrown e)
  | Ok pluginPtrDef =>
  let pluginBasePath := ptr_pluginLocation pluginPtrDef in
  if negb (fs_existsSync host pluginBasePath)
  then
    match interpolate [ptr_pluginLocation pluginPtrDef] with
    | Throw e => inl (Thrown e)
    | Ok _ => inl (NoPluginDirectory pluginDescriptorFilename
                     (ptr_pluginLocation pluginPtrDef))
    end
  else
  match pathJoin host [pluginBasePath; JStr "pluginDefinition.json"] with
  | Throw e => inl (Thrown e)
  | Ok pluginDefPath =>
  if negb (fs_existsSync host (JStr pluginDefPath))
  then inl (NoPluginDefinition pluginDescriptorFilename pluginBasePath)
  else
  match parseDefinition dir pluginDefPath with
  | Throw e => inl (Thrown e)
  | Ok pluginDef =>
  if negb (strictEquals (d_identifier pluginDef) (ptr_identifier pluginPtrDef))
  then
    match interpolate [d_identifier pluginDef; ptr_identifier pluginPtrDef] with
    | Throw e => inl (Thrown e)
    | Ok _ => inl (IdentifierMismatch (d_identifier pluginDef)
                     (ptr_identifier pluginPtrDef))
    end
  else if negb (truthy (d_pluginType pluginDef))
  then inl (NoPluginType (d_identifier pluginDef) pluginBasePath)
  else
    match interpolate [d_pluginType pluginDef] with
    | Throw e => inl (Thrown e)
    | Ok _ => inr (set_d_location pluginBasePath pluginDef)
    end
  end end end end.

(** The loop of [readPluginDefs]: the [catch] block only logs. *)
Fixpoint readPluginDefs_loop (pluginLocationJSONs : list string)
    (defs : list PluginDef) : list PluginDef :=
  match pluginLocationJSONs with
  | [] => defs
  | pluginDescriptorFilename :: rest =>
      match _readPluginDef pluginDescriptorFilename with
      | inr plugin => readPluginDefs_loop rest (defs ++ [plugin])
      | inl _ => readPluginDefs_loop rest defs
      end
  end.

Definition readPluginDefs : result (list PluginDef) :=
  interpolate [pluginsDir dir];;
  files ← readdirSync dir (pluginsDir dir);
  Ok (readPluginDefs_loop (List.filter (contains ".json") files) []).

Definition loadPlugins : M unit :=
  defs ← lift readPluginDefs;
  installPlugins host defs.

(** The definition a descriptor file yields, when it yields one. *)
Definition readDef (pluginDescriptorFilename : string) : option PluginDef :=
  match _readPluginDef pluginDescriptorFilename with
  | inr plugin => Some plugin
  | inl _ => None
  end.

End Reading.

(** A plugins directory holding the reference file of the provider, a text
    file, a reference file that names the provider's directory under another
    identifier, and a backup of the consumer's reference file. *)
Definition referenceDir : PluginsDir :=
  {| pluginsDir := JStr "/opt/zlux/pluginsDir";
     readdirSync := λ path,
       if decide (path = JStr "/opt/zlux/pluginsDir")
       then Ok ["org.zowe.other.json"; "README.md"; "org.zowe.provider.json";
                "org.zowe.consumer.json.bak"]
       else Throw (HostError "ENOENT");
     parsePointer := λ path,
       if String.eqb path "/opt/zlux/pluginsDir/org.zowe.provider.json"
       then Ok {| ptr_identifier := JStr "org.zowe.provider";
                  ptr_pluginLocation :=
                    JStr "/opt/zlux/plugins/org.zowe.provider" |}
       else if String.eqb path "/opt/zlux/pluginsDir/org.zowe.other.json"
       then Ok {| ptr_identifier := JStr "org.zowe.other";
                  ptr_pluginLocation :=
                    JStr "/opt/zlux/plugins/org.zowe.provider" |}
       else if String.eqb path
                 "/opt/zlux/pluginsDir/org.zowe.consumer.json.bak"
       then Ok {| ptr_identifier := JStr "org.zowe.consumer";
                  ptr_pluginLocation :=
                    JStr "/opt/zlux/plugins/org.zowe.consumer" |}
       else Throw (HostError "ENOENT");
     parseDefinition := λ path,
       if String.eqb path
            "/opt/zlux/plugins/org.zowe.provider/pluginDefinition.json"
       then Ok authProvider
       else if String.eqb path
                 "/opt/zlux/plugins/org.zowe.consumer/pluginDefinition.json"
       then Ok authConsumer
       else Throw (HostError "ENOENT") |}.

(* ------------------------------------------------------------------ *)
(** ** The generated Angular module *)

(** A [webContent] object, as far as [_generateNg2ModuleTs] reads it. *)
Record WebContent := {
  framework : jsval;
  ng2ModuleName : jsval;
  ng2ModuleLocation : jsval;
}.

(** A plugin as [_generateNg2ModuleTs] sees it; [ng2_webContent] is [None]
    when [def.webContent] is falsy or not an object. *)
Record Ng2Plugin := {
  ng2_webContent : option WebContent;
  ng2_location : jsval;
}.

(** The line feed of the string literals. *)
Definition LF : string := String (ascii_of_nat 10) EmptyString.

(** The callback of [plugins.filter]. *)
Definition usesAngular2 (def : Ng2Plugin) : bool :=
  match ng2_webContent def with
  | Some webContent => strict_eq (framework webContent) "angular2"
  | None => false
  end.

(** The callback of [forEach], on the pair [importStmts], [modules]; the
    warning is built from the plugin's location, the import statement from
    the module's name and location. *)
Definition ng2_forEach (acc : list string * list string) (def : Ng2Plugin)
    : result (list string * list string) :=
  match ng2_webContent def with
  | Some webContent =>
      if negb (truthy (ng2ModuleName webContent)
               && truthy (ng2ModuleLocation webContent))
      then
        interpolate [ng2_location def];;
        Ok acc
      else
        ng2ModuleName ← toString (ng2ModuleName webContent);
        ng2ModuleLocation ← toString (ng2ModuleLocation webContent);
        Ok (acc.1 ++ ["import { " +:+ ng2ModuleName +:+ " } from '"
                      +:+ ng2ModuleLocation +:+ "';" +:+ LF],
            acc.2 ++ [ng2ModuleName])
  | None => Ok acc
  end.

Fixpoint ng2_loop (acc : list string * list string) (defs : list Ng2Plugin)
    : result (list string * list string) :=
  match defs with
  | [] => Ok acc
  | def :: rest => acc ← ng2_forEach acc def; ng2_loop acc rest
  end.

Definition _generateNg2ModuleTs (plugins : list Ng2Plugin) : result string :=
  '(importStmts, modules) ←
    ng2_loop ([], ["BrowserModule"]) (List.filter usesAngular2 plugins);
  Ok ("import { NgModule } from '@angular/core';" +:+ LF
      +:+ "import { BrowserModule } from '@angular/platform-browser';" +:+ LF
      +:+ String.concat "" importStmts
      +:+ "@NgModule({" +:+ LF
      +:+ "  imports: [" +:+ String.concat ", " modules +:+ "]" +:+ LF
      +:+ "})" +:+ LF
      +:+ "export class Ng2RootModule {}" +:+ LF).

(** The module name and location an Angular plugin contributes. *)
Definition ng2Module (def : Ng2Plugin) : option (string * string) :=
  match ng2_webContent def with
  | Some webContent =>
      if strict_eq (framework webContent) "angular2"
         && truthy (ng2ModuleName webContent)
         && truthy (ng2ModuleLocation webContent)
      then Some (toPropertyKey (ng2ModuleName webContent),
                 toPropertyKey (ng2ModuleLocation webContent))
      else None
  | None => None
  end.

(** Whether the callback of [forEach] throws for a plugin: on the warning,
    when the plugin's location cannot be converted to a string, or on the
    import statement, when the module's name or location cannot. *)
Definition ng2Throws (def : Ng2Plugin) : bool :=
  match ng2_webContent def with
  | Some webContent =>
      strict_eq (framework webContent) "angular2"
      && if truthy (ng2ModuleName webContent)
            && truthy (ng2ModuleLocation webContent)
         then negb (convertible (ng2ModuleName webContent)
                    && convertible (ng2ModuleLocation webContent))
         else negb (convertible (ng2_location def))
  | None => false
  end.

(** The import statement written for a module. *)
Definition ng2ImportStmt (module : string * string) : string :=
  "import { " +:+ module.1 +:+ " } from '" +:+ module.2 +:+ "';" +:+ LF.

(** The text of a root module that imports the given modules. *)
Definition ng2RootModule (modules : list (string * string)) : string :=
  "import { NgModule } from '@angular/core';" +:+ LF
  +:+ "import { BrowserModule } from '@angular/platform-browser';" +:+ LF
  +:+ String.concat "" (ng2ImportStmt <$> modules)
  +:+ "@NgModule({" +:+ LF
  +:+ "  imports: [" +:+ String.concat ", " ("BrowserModule" :: modules.*1)
  +:+ "]" +:+ LF
  +:+ "})" +:+ LF
  +:+ "export class Ng2RootModule {}" +:+ LF.

(* ------------------------------------------------------------------ *)
(** ** Further observations *)

(** The table [plugInConstructorsByType], as types and prototypes. *)
Definition knownPluginTypes : list (string * PluginKind) :=
  [ ("library", LibraryPlugIn_); ("application", ApplicationPlugIn_);
    ("windowManager", WindowManagerPlugIn_); ("bootstrap", BootstrapPlugIn_);
    ("desktop", DesktopPlugIn_);
    ("nodeAuthentication", NodeAuthenticationPlugIn_);
    ("proxyConnector", ProxyConnectorPlugIn_) ].

(** The location a plugin object gets from its definition. *)
Definition locationOf (host : Host) (def : PluginDef) : jsval :=
  if truthy (d_location def) then d_location def
  else JStr (process_cwd host).

(** The service types [initDataServices] keeps. *)
Definition recognised (type : jsval) : bool :=
  loose_eq type "service" || strict_eq type "import"
  || loose_eq type "nodeService" || strict_eq type "router"
  || loose_eq type "external".

(** A kept service that goes to [dataServicesGrouped] under its [name]; the
    others of the kept ones are the imports, which go to [importsGrouped]
    under their [localName]. *)
Definition isExposed (type : jsval) : bool :=
  recognised type && negb (strict_eq type "import").

(** [container[name].versions[version]], when both exist. *)
Definition lookupService (container : gmap string ServiceGroup)
    (name version : string) : option ServiceObj :=
  match container !! name with
  | Some group => versions group !! version
  | None => None
  end.

(** Two plugin objects that agree on everything the definition supplied
    except its services and web content. *)
Definition sameProperties (p q : PluginObj) : Prop :=
  p_kind p = p_kind q ∧ p_identifier p = p_identifier q
  ∧ p_pluginVersion p = p_pluginVersion q ∧ p_apiVersion p = p_apiVersion q
  ∧ p_pluginType p = p_pluginType q ∧ p_location p = p_location q
  ∧ p_host p = p_host q ∧ p_port p = p_port q
  ∧ p_filename p = p_filename q
  ∧ p_authenticationCategory p = p_authenticationCategory q
  ∧ p_dynamicallyCreated p = p_dynamicallyCreated q.

(** The same host with another answer of the authentication manager, and
    with another dependency graph. *)
Definition withAuthPluginRequested (requested : jsval → jsval → bool)
    (host : Host) : Host :=
  {| process_cwd := process_cwd host; fs_existsSync := fs_existsSync host;
     path_join := path_join host; require := require host;
     requireFromString := requireFromString host;
     getPluginConfiguration := getPluginConfiguration host;
     getServiceConfiguration := getServiceConfiguration host;
     JSON_stringify := JSON_stringify host;
     authPluginRequested := requested;
     registerAuthenticator := registerAuthenticator host;
     processImports := processImports host |}.

Definition withProcessImports
    (graph : list PluginObj → list PluginDef → SortedAndRejected)
    (host : Host) : Host :=
  {| process_cwd := process_cwd host; fs_existsSync := fs_existsSync host;
     path_join := path_join host; require := require host;
     requireFromString := requireFromString host;
     getPluginConfiguration := getPluginConfiguration host;
     getServiceConfiguration := getServiceConfiguration host;
     JSON_stringify := JSON_stringify host;
     authPluginRequested := authPluginRequested host;
     registerAuthenticator := registerAuthenticator host;
     processImports := graph |}.

(** Two hosts that differ at most in the authentication manager's answer
    and in the dependency graph. *)
Definition sameCollaborators (h1 h2 : Host) : Prop :=
  process_cwd h1 = process_cwd h2 ∧ fs_existsSync h1 = fs_existsSync h2
  ∧ path_join h1 = path_join h2 ∧ require h1 = require h2
  ∧ requireFromString h1 = requireFromString h2
  ∧ getPluginConfiguration h1 = getPluginConfiguration h2
  ∧ getServiceConfiguration h1 = getServiceConfiguration h2
  ∧ registerAuthenticator h1 = registerAuthenticator h2.

(** The plugins of a list whose identifier has the property key [key]. *)
Definition named (key : string) (loaded : list PluginObj) : list PluginObj :=
  filter (λ p, toPropertyKey (p_identifier p) = key) loaded.

(** The map holds, under every key, the last plugin of the list with that
    identifier. *)
Definition indexed (loaded : list PluginObj) (map : PluginMap) : Prop :=
  ∀ key, key ≠ "__proto__" →
         properties map !! key = last (named key loaded).

(** The loader [this'] extends the loader [this]. *)
Definition extends (this this' : PluginLoader) : Prop :=
  plugins this `prefix_of` plugins this'
  ∧ emitted this `prefix_of` emitted this'
  ∧ logged this `prefix_of` logged this'
  ∧ (∀ key, is_Some (properties (pluginMap this) !! key) →
            is_Some (properties (pluginMap this') !! key))
  ∧ (is_Some (prototype (pluginMap this)) →
     is_Some (prototype (pluginMap this'))).

(** The name a kept service is grouped under: imports under their
    [localName], the others under their [name]. *)
Definition groupName (s : ServiceObj) : jsval :=
  if strict_eq (s_type s) "import" then s_localName s else s_name s.

(** The service object [s] is what the constructors make of the definition
    [def], in a plugin with API version [apiVersion]. *)
Definition describes (apiVersion : jsval) (s : ServiceObj) (def : ServiceDef)
    : Prop :=
  s_type s = sd_type def ∧ s_name s = sd_name def
  ∧ s_localName s = sd_localName def
  ∧ s_version s = effectiveVersion def apiVersion.

(** The services of a list that are exposed (or, for [exposed = false],
    imported) under the property keys [name] and [version]. *)
Definition servicesNamed (exposed : bool) (name version : string)
    (built : list ServiceObj) : list ServiceObj :=
  filter (λ s, isExposed (s_type s) = exposed
               ∧ toPropertyKey (groupName s) = name
               ∧ toPropertyKey (s_version s) = version) built.

(** A node service or router, which carries an implementation. *)
Definition isNodeService (type : jsval) : bool :=
  loose_eq type "nodeService" || strict_eq type "router".

(** The two containers index the kept services. *)
Definition groupsIndexed (st : Grouping) : Prop :=
  ∀ n k, k ≠ "__proto__" →
    lookupService (g_dataServicesGrouped st) n k
    = last (servicesNamed true n k (g_filteredDataServices st))
    ∧ lookupService (g_importsGrouped st) n k
      = last (servicesNamed false n k (g_filteredDataServices st)).

(** The dependency graph returned definitions of the batch only: every
    definition it orders is one of the batch, and every rejection names the
    identifier of one. *)
Definition fromBatch (sorted : SortedAndRejected) (pluginDefs : list PluginDef)
    : Prop :=
  (∀ def, def ∈ sr_plugins sorted → def ∈ pluginDefs)
  ∧ (∀ rejected, rejected ∈ sr_rejects sorted →
       ∃ def, def ∈ pluginDefs ∧ pluginId rejected = d_identifier def).

(** What the constructor of a plugin of prototype [kind] makes of a
    definition. *)
Definition constructedFrom (host : Host) (kind : PluginKind) (def : PluginDef)
    (p : PluginObj) : Prop :=
  p_kind p = kind ∧ builtFrom def p
  ∧ p_pluginVersion p = inheritNull (d_pluginVersion def)
  ∧ p_pluginType p = inheritNull (d_pluginType def)
  ∧ p_location p = locationOf host def
  ∧ p_webContent p = inheritNull (d_webContent def)
  ∧ p_webContent_path p = None
  ∧ p_port p = d_port def
  ∧ p_dynamicallyCreated p = d_dynamicallyCreated def.

(** ** The dependency graph on the scenarios of the specification *)

Section Scenarios.
#[local] Existing Instance CoreSemVer.instance.

Let identifiers (sorted : SortedAndRejected) : list jsval * list Reject :=
  (d_identifier <$> sr_plugins sorted, sr_rejects sorted).

(** A provider and its consumer are accepted, provider first, in either
    input order. *)
Example scenario_provider_before_consumer :
  identifiers (DependencyGraph.processImports [] [authProvider; authConsumer])
  = ([JStr "org.zowe.provider"; JStr "org.zowe.consumer"], [])
  ∧ identifiers
      (DependencyGraph.processImports [] [authConsumer; authProvider])
    = ([JStr "org.zowe.provider"; JStr "org.zowe.consumer"], []).
Proof. split; vm_compute; reflexivity. Qed.

(** An import from a plugin that does not exist rejects the importer. *)
Example scenario_unresolved_import :
  identifiers (DependencyGraph.processImports [] [orphan])
  = ([], [{| pluginId := JStr "org.zowe.orphan";
             validationError_status := "UnresolvedImport" |}]).
Proof. vm_compute. reflexivity. Qed.

(** The range [^1.0.0] over 1.0.0, 1.2.0 and 2.0.0 selects 1.2.0. *)
Example scenario_version_selection :
  DependencyGraph.maxSatisfying [JStr "1.0.0"; JStr "1.2.0"; JStr "2.0.0"]
    (JStr "^1.0.0")
  = Some (JStr "1.2.0").
Proof. vm_compute. reflexivity. Qed.

(** Two plugins that import from each other are both rejected. *)
Example scenario_cycle :
  identifiers
    (DependencyGraph.processImports []
       [pluginDef "A" "application"
          (Some [serviceDef "service" "y" "1.0.0"; importDef "B" "x" "*" "x"]);
        pluginDef "B" "application"
          (Some [serviceDef "service" "x" "1.0.0"; importDef "A" "y" "*" "y"])])
  = ([], [{| pluginId := JStr "A";
             validationError_status := "CyclicDependency" |};
          {| pluginId := JStr "B";
             validationError_status := "CyclicDependency" |}]).
Proof. vm_compute. reflexivity. Qed.

(** A rejection cascades to the plugins that import from the rejected one. *)
Example scenario_cascade :
  identifiers
    (DependencyGraph.processImports []
       [pluginDef "C" "application"
          (Some [importDef "B" "x" "*" "x"]);
        pluginDef "B" "application"
          (Some [serviceDef "service" "x" "1.0.0";
                 importDef "org.zowe.missing" "y" "*" "y"])])
  = ([], [{| pluginId := JStr "C";
             validationError_status := "DependsOnRejectedPlugin" |};
          {| pluginId := JStr "B";
             validationError_status := "UnresolvedImport" |}]).
Proof. vm_compute. reflexivity. Qed.

End Scenarios.

(* ------------------------------------------------------------------ *)
(** ** Conversions *)

Lemma interpolate_Ok values :
  interpolate values = Ok () ↔ forallb convertible values = true.
Proof.
  unfold interpolate. destruct (forallb convertible values); split;
    congruence.
Qed.

Lemma interpolate_cases values :
  (interpolate values = Ok () ∧ forallb convertible values = true)
  ∨ (interpolate values = Throw TypeError
     ∧ forallb convertible values = false).
Proof.
  unfold interpolate. destruct (forallb convertible values); auto.
Qed.

Lemma toString_Ok v key :
  toString v = Ok key ↔ convertible v = true ∧ key = toPropertyKey v.
Proof.
  unfold toString. destruct (convertible v); split;
    try (intros [= <-]; auto); try (intros [_ ->]; reflexivity);
    try discriminate; intros [H _]; discriminate H.
Qed.

Lemma looseEquals_Ok v lit b :
  looseEquals v lit = Ok b ↔ convertible v = true ∧ b = loose_eq v lit.
Proof.
  unfold looseEquals. destruct (convertible v); split;
    try (intros [= <-]; auto); try (intros [_ ->]; reflexivity);
    try discriminate; intros [H _]; discriminate H.
Qed.

Lemma loose_eq_convertible v lit : loose_eq v lit = true → convertible v = true.
Proof. destruct v as [| | | | |[|]]; try reflexivity. discriminate. Qed.

Lemma strict_eq_convertible v lit :
  strict_eq v lit = true → convertible v = true.
Proof. destruct v as [| | | | |[|]]; try reflexivity. discriminate. Qed.

Lemma is_string_convertible v : is_string v = true → convertible v = true.
Proof. destruct v as [| | | | |[|]]; try reflexivity. discriminate. Qed.

Lemma inheritNull_convertible v : convertible (inheritNull v) = convertible v.
Proof. destruct v as [| | | | |[|]]; reflexivity. Qed.

Lemma loose_eq_exclusive v a b :
  a ≠ b → loose_eq v a = true → loose_eq v b = false.
Proof.
  intros Hab. destruct v as [| | | |s|[s|]]; unfold loose_eq;
    try discriminate;
    intros H; apply String.eqb_eq in H; subst a;
    apply String.eqb_neq; exact Hab.
Qed.

Lemma strict_loose_eq v lit : strict_eq v lit = true → loose_eq v lit = true.
Proof. destruct v; try discriminate. intros H. exact H. Qed.

(* ------------------------------------------------------------------ *)
(** ** Service objects *)

Section ServiceProperties.
Context {semver : SemVer} (host : Host).


Lemma Service_inv proto def cfg plugin this :
  Service proto def cfg plugin = Ok this →
  s_proto this = proto ∧ s_type this = sd_type def
  ∧ s_name this = sd_name def
  ∧ s_version this = effectiveVersion def (p_apiVersion plugin)
  ∧ s_host this = sd_host def ∧ s_port this = sd_port def
  ∧ s_localName this = sd_localName def
  ∧ s_versionRange this = sd_versionRange def
  ∧ s_filename this = sd_filename def ∧ s_fileName this = sd_fileName def
  ∧ (sd_version def = JUndefined →
     forallb convertible [p_identifier plugin; sd_name def;
                          p_apiVersion plugin] = true).
Proof.
  unfold Service, effectiveVersion. cbn [s_version s_name].
  destruct (decide (sd_version def = JUndefined)) as [Hu|Hu].
  - destruct (interpolate_cases
                [p_identifier plugin; sd_name def; p_apiVersion plugin])
      as [[-> Hc] | [-> _]]; [|discriminate].
    intros [= <-]. simpl. auto 20.
  - intros [= <-]. simpl. split_and!; try reflexivity. contradiction.
Qed.

Lemma ExternalService_inv def cfg plugin this :
  ExternalService def cfg plugin = Ok this →
  ∃ base,
    Service ExternalServiceProto def cfg plugin = Ok base
    ∧ s_proto this = ExternalServiceProto ∧ s_type this = s_type base
    ∧ s_name this = s_name base ∧ s_version this = s_version base
    ∧ s_localName this = s_localName base
    ∧ s_versionRange this = s_versionRange base
    ∧ s_filename this = s_filename base ∧ s_fileName this = s_fileName base.
Proof.
  unfold ExternalService.
  destruct (Service ExternalServiceProto def cfg plugin) as [base|e] eqn:Hb;
    [|discriminate].
  apply Service_inv in Hb as (Hp & _). simpl.
  intros H. exists base. split; [reflexivity|].
  revert H.
  repeat match goal with
         | |- context [if ?b then _ else _] => destruct b
         | |- context [match ?o with Some _ => _ | None => _ end] => destruct o
         end; intros [= <-]; simpl; auto 10.
Qed.

Lemma makeDataService_unfold def plugin :
  makeDataService host def plugin
  = (cfg ← getServiceConfiguration host (p_identifier plugin) (sd_name def);
     dataservice ← constructed def cfg plugin;
     validate dataservice;;
     Ok dataservice).
Proof. reflexivity. Qed.

Lemma constructed_inv def cfg plugin s :
  constructed def cfg plugin = Ok s →
  convertible (sd_type def) = true
  ∧ s_type s = sd_type def ∧ s_name s = sd_name def
  ∧ s_version s = effectiveVersion def (p_apiVersion plugin)
  ∧ s_localName s = sd_localName def
  ∧ s_versionRange s = sd_versionRange def
  ∧ s_filename s = sd_filename def ∧ s_fileName s = sd_fileName def
  ∧ (s_proto s = ImportProto ↔ loose_eq (sd_type def) "import" = true)
  ∧ (sd_version def = JUndefined →
     forallb convertible [p_identifier plugin; sd_name def;
                          p_apiVersion plugin] = true).
Proof.
  unfold constructed, looseEquals, Import, NodeService.
  destruct (convertible (sd_type def)) eqn:Hc; [|discriminate]. simpl.
  destruct (loose_eq (sd_type def) "external") eqn:He.
  - assert (Hi : loose_eq (sd_type def) "import" = false)
      by (eapply loose_eq_exclusive; [|exact He]; discriminate).
    intros H. apply ExternalService_inv in H
      as (base & Hb & F1 & F2 & F3 & F4 & F5 & F6 & F7 & F8).
    apply Service_inv in Hb
      as (_ & G2 & G3 & G4 & _ & _ & G5 & G6 & G7 & G8 & G9).
    rewrite F1, Hi. split_and!; try congruence; try exact G9.
    split; discriminate.
  - destruct (loose_eq (sd_type def) "import") eqn:Hi;
      [|destruct (loose_eq (sd_type def) "nodeService"
                  || strict_eq (sd_type def) "router")];
      intros H; apply Service_inv in H
        as (G1 & G2 & G3 & G4 & _ & _ & G5 & G6 & G7 & G8 & G9);
      rewrite G1; split_and!; try assumption; try reflexivity;
      try exact G9; split; congruence.
Qed.


Lemma validate_constructed def cfg plugin s :
  constructed def cfg plugin = Ok s →
  validate s
  = if loose_eq (sd_type def) "import"
    then (if semver_validRange (sd_versionRange def) then Ok ()
          else interpolate [sd_localName def; sd_versionRange def];;
               Throw (InvalidVersionRange (sd_localName def)
                        (sd_versionRange def)))
    else (if semver_valid (effectiveVersion def (p_apiVersion plugin))
          then Ok ()
          else interpolate
                 [sd_name def; effectiveVersion def (p_apiVersion plugin)];;
               Throw (InvalidVersion (sd_name def)
                        (effectiveVersion def (p_apiVersion plugin)))).
Proof.
  intros H. apply constructed_inv in H
    as (_ & _ & Fn & Fv & Fl & Fr & _ & _ & Fp & _).
  unfold validate, Import_validate, Service_validate.
  rewrite Fn, Fv, Fl, Fr.
  destruct (loose_eq (sd_type def) "import") eqn:Hi.
  - destruct Fp as [_ Fp]. rewrite (Fp eq_refl).
    destruct (semver_validRange _); reflexivity.
  - destruct (s_proto s) eqn:Hp;
      try (destruct (semver_valid _); reflexivity).
    destruct Fp as [Fp _]. discriminate (Fp eq_refl).
Qed.


(** What [makeDataService] returns, when it returns. *)
Lemma makeDataService_Ok def plugin dataservice :
  makeDataService host def plugin = Ok dataservice →
  s_type dataservice = sd_type def
  ∧ s_name dataservice = sd_name def
  ∧ s_localName dataservice = sd_localName def
  ∧ s_version dataservice = effectiveVersion def (p_apiVersion plugin)
  ∧ convertible (sd_type def) = true
  ∧ (loose_eq (sd_type def) "import" = false →
     semver_valid (s_version dataservice) = true)
  ∧ ∃ cfg, getServiceConfiguration host (p_identifier plugin) (sd_name def)
           = Ok cfg
           ∧ constructed def cfg plugin = Ok dataservice.
Proof.
  rewrite makeDataService_unfold.
  destruct (getServiceConfiguration host _ _) as [cfg|e]; simpl;
    [|discriminate].
  unfold mbind, result_bind. simpl.
  destruct (constructed def cfg plugin) as [s|e] eqn:Hs; simpl;
    [|discriminate].
  pose proof (validate_constructed _ _ _ _ Hs) as Hval.
  pose proof (constructed_inv _ _ _ _ Hs)
    as (Fc & Ft & Fn & Fver & Fl & _).
  destruct (validate s) as [[]|e]; simpl; [|discriminate].
  intros [= <-]. split_and!; try assumption.
  - intros Hni. rewrite Hni in Hval. rewrite Fver.
    destruct (semver_valid _); [reflexivity|].
    destruct (interpolate _); discriminate Hval.
  - exists cfg. split; [reflexivity | exact Hs].
Qed.

End ServiceProperties.
(* ------------------------------------------------------------------ *)
(** ** The loader methods *)

Lemma result_bind_Ok {A B} (a : A) (k : A → result B) : (Ok a ≫= k) = k a.
Proof. reflexivity. Qed.

Lemma result_bind_Throw {A B} (e : exn) (k : A → result B) :
  (Throw e ≫= k) = Throw e.
Proof. reflexivity. Qed.

Lemma try_catch_lift {A B} (r : result A) (k : A → M B) handler this :
  try_catch (lift r ≫= k) handler this
  = match r with
    | Ok a => try_catch (k a) handler this
    | Throw e => handler e this
    end.
Proof. unfold try_catch, mbind, M_bind, lift. destruct r; reflexivity. Qed.

Lemma bind_lift {A B} (r : result A) (k : A → M B) this :
  (lift r ≫= k) this
  = match r with
    | Ok a => k a this
    | Throw e => (Throw e, this)
    end.
Proof. unfold mbind, M_bind, lift. destruct r; reflexivity. Qed.

(** Inversion of a sequence of steps that returned. *)
Ltac bind_inv H :=
  match type of H with
  | mbind _ ?r = Ok _ =>
      let E := fresh "E" in
      destruct r eqn:E;
      [rewrite result_bind_Ok in H
      |rewrite result_bind_Throw in H; discriminate H]
  end.

(** What a message that was built says about its substitutions. *)
Ltac interpolate_inv :=
  repeat match goal with
         | Hi : interpolate _ = Ok ?u |- _ =>
             try destruct u; apply interpolate_Ok in Hi;
             cbn [forallb] in Hi; rewrite ?andb_true_iff in Hi
         end.

Section LoaderProperties.
Context {semver : SemVer} (host : Host).

Lemma try_catch_log {B} entry (k : unit → M B) handler this :
  try_catch (log entry ≫= k) handler this
  = try_catch (k ()) handler (with_log [entry] this).
Proof. reflexivity. Qed.

Lemma bind_log {B} entry (k : unit → M B) this :
  (log entry ≫= k) this = k () (with_log [entry] this).
Proof. reflexivity. Qed.

Lemma bind_emit {B} event (k : unit → M B) this :
  (emit event ≫= k) this = k () (with_emitted [event] this).
Proof. reflexivity. Qed.

Lemma bind_push {B} plugin (k : unit → M B) this :
  (plugins_push plugin ≫= k) this = k () (with_pushed [plugin] this).
Proof. reflexivity. Qed.

Lemma try_catch_push {B} plugin (k : unit → M B) handler this :
  try_catch (plugins_push plugin ≫= k) handler this
  = try_catch (k ()) handler (with_pushed [plugin] this).
Proof. reflexivity. Qed.

Lemma pluginMap_set_run identifier plugin this :
  pluginMap_set identifier plugin this
  = if convertible identifier
    then match pluginMap_assign (toPropertyKey identifier) plugin
                 (pluginMap this) with
         | Ok map => (Ok (), with_pluginMap map this)
         | Throw e => (Throw e, this)
         end
    else (Throw TypeError, this).
Proof.
  unfold pluginMap_set, toString. destruct (convertible identifier);
    reflexivity.
Qed.

Lemma interpolate_cons v values :
  interpolate (v :: values)
  = if convertible v then interpolate values else Throw TypeError.
Proof. unfold interpolate. simpl. destruct (convertible v); reflexivity. Qed.

Lemma interpolate_nil : interpolate [] = Ok ().
Proof. reflexivity. Qed.

(** One iteration of the loading loop. *)
Lemma installPlugins_iteration_run pluginDef successCount this :
  installPlugins_iteration host pluginDef successCount this
  = match loadPlugin host pluginDef with
    | Ok (Some plugin) =>
        let pushed :=
          with_pushed [plugin]
            (with_log [Info_loaded (p_identifier plugin) (p_location plugin)]
               this) in
        match pluginMap_assign (toPropertyKey (p_identifier plugin)) plugin
                (pluginMap this) with
        | Ok map => (Ok (S successCount), with_pluginMap map pushed)
        | Throw e =>
            (Ok successCount,
             with_log [Info_failedToLoad (d_identifier pluginDef) e] pushed)
        end
    | Ok None =>
        (Ok successCount,
         with_log [Warn_invalidSkipping (d_location pluginDef)] this)
    | Throw e =>
        if aborts pluginDef then (Throw TypeError, this)
        else (Ok successCount,
              with_log [Info_failedToLoad (d_identifier pluginDef) e] this)
    end.
Proof.
  unfold installPlugins_iteration, loadPlugin, aborts.
  set (handler := λ e : exn,
         lift (interpolate [d_identifier pluginDef]);;
         log (Info_failedToLoad (d_identifier pluginDef) e);;
         mret successCount).
  assert (Hhandler : ∀ e st,
            handler e st
            = if convertible (d_identifier pluginDef)
              then (Ok successCount,
                    with_log [Info_failedToLoad (d_identifier pluginDef) e] st)
              else (Throw TypeError, st)).
  { intros e st. unfold handler. rewrite bind_lift, interpolate_cons.
    destruct (convertible _); reflexivity. }
  rewrite try_catch_lift.
  destruct (getPluginConfiguration host _) as [cfg|e].
  2:{ rewrite result_bind_Throw, Hhandler.
      destruct (convertible _); reflexivity. }
  rewrite result_bind_Ok, try_catch_lift, interpolate_cons.
  destruct (convertible (d_identifier pluginDef)) eqn:Hid; cbn [negb].
  2:{ rewrite result_bind_Throw, Hhandler. reflexivity. }
  pose proof Hhandler as Hcatch.
  rewrite interpolate_nil, result_bind_Ok, try_catch_lift.
  destruct (JSON_stringify host cfg) as [text|e];
    [|rewrite result_bind_Throw; apply Hcatch].
  rewrite result_bind_Ok, try_catch_lift.
  destruct (makePlugin host pluginDef cfg) as [made|e];
    [|rewrite result_bind_Throw; apply Hcatch].
  rewrite result_bind_Ok, try_catch_lift.
  destruct (asPlugin made) as [plugin|e];
    [|rewrite result_bind_Throw; apply Hcatch].
  rewrite result_bind_Ok.
  destruct (isValid host plugin); cbn [negb].
  2:{ rewrite try_catch_lift.
      destruct (interpolate [d_location pluginDef]) as [[]|e];
        [reflexivity | rewrite result_bind_Throw; apply Hcatch]. }
  rewrite try_catch_lift.
  destruct (initDataServices host plugin) as [p1|e];
    [|rewrite result_bind_Throw; apply Hcatch].
  rewrite result_bind_Ok, try_catch_lift.
  destruct (initStaticWebDependencies host p1) as [p2|e];
    [|rewrite result_bind_Throw; apply Hcatch].
  rewrite result_bind_Ok, try_catch_lift.
  destruct (init host p2) as [p3|e];
    [|rewrite result_bind_Throw; apply Hcatch].
  rewrite result_bind_Ok, try_catch_lift.
  destruct (interpolate [p_identifier p3; p_location p3]) as [[]|e] eqn:Hi;
    [|rewrite result_bind_Throw; apply Hcatch].
  rewrite result_bind_Ok. cbv zeta.
  rewrite interpolate_cons in Hi.
  destruct (convertible (p_identifier p3)) eqn:Hp; [|discriminate Hi].
  rewrite try_catch_log, try_catch_lift, interpolate_cons, Hp,
    interpolate_nil, try_catch_push.
  unfold try_catch, deepFreeze. rewrite bind_lift || idtac.
  unfold mbind, M_bind. rewrite pluginMap_set_run, Hp.
  cbn [pluginMap with_pushed with_log].
  destruct (pluginMap_assign _ _ _) as [map|e]; [reflexivity|].
  apply Hcatch.
Qed.

Lemma with_log_app e1 e2 this :
  with_log e2 (with_log e1 this) = with_log (e1 ++ e2) this.
Proof. unfold with_log. simpl. rewrite <- app_assoc. reflexivity. Qed.

Lemma with_log_nil this : with_log [] this = this.
Proof. destruct this. unfold with_log. simpl. rewrite app_nil_r. reflexivity. Qed.

Lemma omap_cons {A B} (f : A → option B) x l :
  omap f (x :: l)
  = match f x with Some y => y :: omap f l | None => omap f l end.
Proof. reflexivity. Qed.

(** *** What initialisation keeps of a plugin object *)

Lemma sameProperties_refl p : sameProperties p p.
Proof. repeat split. Qed.

Lemma sameProperties_trans p q r :
  sameProperties p q → sameProperties q r → sameProperties p r.
Proof.
  unfold sameProperties. intros Hpq Hqr.
  destruct_and!. repeat split; congruence.
Qed.

Lemma initDataServices_keeps this this' :
  initDataServices host this = Ok this' →
  sameProperties this this'
  ∧ p_webContent this' = p_webContent this
  ∧ p_webContent_path this' = p_webContent_path this.
Proof.
  unfold initDataServices.
  destruct (p_dataServices this) as [|defs|built];
    try (intros [= <-]; split; [apply sameProperties_refl | auto]).
  intros H. bind_inv H. injection H as <-. repeat split.
Qed.

Lemma initStaticWebDependencies_keeps this this' :
  initStaticWebDependencies host this = Ok this' → sameProperties this this'.
Proof.
  unfold initStaticWebDependencies.
  destruct (truthy (p_webContent this));
    [|intros [= <-]; apply sameProperties_refl].
  intros H. bind_inv H.
  destruct (negb (fs_existsSync host _)); bind_inv H.
  - injection H as <-. apply sameProperties_refl.
  - destruct (p_webContent this); try discriminate H.
    injection H as <-. repeat split.
Qed.

Lemma init_keeps this this' :
  init host this = Ok this' →
  sameProperties this this'
  ∧ p_webContent this' = p_webContent this
  ∧ p_webContent_path this' = p_webContent_path this.
Proof.
  unfold init, LibraryPlugIn_init, NodeAuthenticationPlugIn_init, Plugin_init.
  destruct (p_kind this); intros H.
  - destruct (negb (strict_eq _ _)); [discriminate|].
    destruct (negb (fs_existsSync host _)); [discriminate|].
    bind_inv H. injection H as <-. repeat split.
  - bind_inv H. injection H as <-. repeat split.
  - bind_inv H. injection H as <-. repeat split.
  - bind_inv H. injection H as <-. repeat split.
  - bind_inv H. injection H as <-. repeat split.
  - bind_inv H. bind_inv H. bind_inv H. bind_inv H.
    injection H as <-. repeat split.
  - bind_inv H. injection H as <-. repeat split.
Qed.

Lemma isValid_sameProperties p q :
  sameProperties p q → isValid host p = isValid host q.
Proof.
  unfold sameProperties. intros H. destruct_and!.
  unfold isValid, NodeAuthenticationPlugIn_isValid,
    ProxyConnectorPlugIn_isValid, Plugin_isValid.
  repeat match goal with
         | E : _ p = _ q |- _ => rewrite E; clear E
         end.
  reflexivity.
Qed.

(** *** What a plugin constructor copies from the definition *)

Lemma inheritNull_truthy v : truthy v = true → inheritNull v = v.
Proof. destruct v; try reflexivity. discriminate. Qed.

Lemma inheritNull_truthy_inv v : truthy (inheritNull v) = true → inheritNull v = v.
Proof. destruct v; try reflexivity. discriminate. Qed.

Lemma truthy_inheritNull v : truthy (inheritNull v) = truthy v.
Proof. destruct v; reflexivity. Qed.

Lemma Plugin_constructedFrom kind def cfg :
  constructedFrom host kind def (Plugin host kind def cfg)
  ∧ p_host (Plugin host kind def cfg) = d_host def.
Proof.
  unfold constructedFrom, builtFrom, Plugin, locationOf. cbn [p_location].
  rewrite truthy_inheritNull.
  destruct (truthy (d_location def)) eqn:Hl; cbn [negb];
    cbn; rewrite ?(inheritNull_truthy _ Hl); split_and!;
    try reflexivity;
    destruct kind; try reflexivity;
    destruct (d_authenticationCategory def); reflexivity.
Qed.

Lemma ProxyConnectorPlugIn_constructedFrom def cfg :
  constructedFrom host ProxyConnectorPlugIn_ def
    (ProxyConnectorPlugIn host def cfg).
Proof.
  pose proof (Plugin_constructedFrom ProxyConnectorPlugIn_ def cfg) as [F _].
  unfold ProxyConnectorPlugIn.
  destruct (getContents_remote_json cfg) as [rc|]; [|exact F].
  destruct (negb (truthy (p_host (Plugin host ProxyConnectorPlugIn_ def cfg))));
    cbn [p_port set_p_host];
    match goal with
    | |- context [if ?b then _ else _] => destruct b
    end; exact F.
Qed.

Lemma plugInConstructorsByType_known key :
  match plugInConstructorsByType host key with
  | Some constr =>
      ∃ kind, (key, kind) ∈ knownPluginTypes
              ∧ ∀ def cfg, constructedFrom host kind def (constr def cfg)
  | None => ∀ kind, (key, kind) ∉ knownPluginTypes
  end.
Proof.
  unfold plugInConstructorsByType.
  repeat match goal with
         | |- context [String.eqb key ?lit] =>
             destruct (String.eqb_spec key lit) as [->|]
         end;
    try (eexists; split;
         [unfold knownPluginTypes; repeat first
            [apply list_elem_of_here | apply list_elem_of_further]
         | first [exact ProxyConnectorPlugIn_constructedFrom
                 | intros def cfg; apply Plugin_constructedFrom]]).
  intros kind Hin. unfold knownPluginTypes in Hin.
  repeat (apply elem_of_cons in Hin as [[= ? ?] | Hin]; [congruence|]).
  inversion Hin.
Qed.

Lemma knownPluginTypes_functional key kind kind' :
  (key, kind) ∈ knownPluginTypes → (key, kind') ∈ knownPluginTypes →
  kind = kind'.
Proof.
  unfold knownPluginTypes. rewrite !elem_of_cons, !elem_of_nil.
  intros H1 H2. destruct_or!; simplify_eq; reflexivity || contradiction.
Qed.

Lemma knownPluginTypes_not_inherited key kind :
  (key, kind) ∈ knownPluginTypes →
  inherited key = false ∧ key ≠ "constructor".
Proof.
  unfold knownPluginTypes. rewrite !elem_of_cons, !elem_of_nil.
  intros H. destruct_or!; simplify_eq; (split; [reflexivity | discriminate])
    || contradiction.
Qed.

(** The plugin that [makePlugin] returns, when it returns one. *)
Lemma makePlugin_plugin def cfg made plugin :
  makePlugin host def cfg = Ok made →
  asPlugin made = Ok plugin →
  convertible (d_pluginType def) = true
  ∧ made = MadePlugin plugin
  ∧ ∃ kind, (toPropertyKey (d_pluginType def), kind) ∈ knownPluginTypes
            ∧ constructedFrom host kind def plugin.
Proof.
  unfold makePlugin, toString.
  destruct (convertible (d_pluginType def)); [|discriminate].
  rewrite result_bind_Ok.
  pose proof (plugInConstructorsByType_known
                (toPropertyKey (d_pluginType def))) as Hk.
  destruct (plugInConstructorsByType host _) as [constr|].
  - destruct Hk as (kind & Hin & Hc).
    intros [= <-] [= <-]. split; [reflexivity|]. split; [reflexivity|].
    exists kind. split; [exact Hin | apply Hc].
  - destruct (String.eqb _ "constructor").
    + intros [= <-]. discriminate.
    + destruct (inherited _); [discriminate|].
      intros H. bind_inv H. discriminate H.
Qed.

Lemma isValid_Plugin_isValid this :
  isValid host this = true → Plugin_isValid this = true.
Proof.
  unfold isValid, NodeAuthenticationPlugIn_isValid,
    ProxyConnectorPlugIn_isValid.
  destruct (p_kind this); try (intros H; exact H);
    destruct (Plugin_isValid this); try reflexivity; simpl; discriminate.
Qed.

Lemma Plugin_isValid_identifier this :
  Plugin_isValid this = true →
  truthy (p_identifier this) = true ∧ is_string (p_identifier this) = true.
Proof.
  unfold Plugin_isValid. destruct (truthy (p_identifier this));
    [|discriminate].
  destruct (is_string (p_identifier this)); [auto | discriminate].
Qed.

(** The steps of a load that returned a plugin. *)
Lemma loadPlugin_inv pluginDef plugin :
  loadPlugin host pluginDef = Ok (Some plugin) →
  ∃ cfg made p1 p2,
    getPluginConfiguration host (d_identifier pluginDef) = Ok cfg
    ∧ makePlugin host pluginDef cfg = Ok (MadePlugin made)
    ∧ isValid host made = true
    ∧ initDataServices host made = Ok p1
    ∧ initStaticWebDependencies host p1 = Ok p2
    ∧ init host p2 = Ok plugin
    ∧ sameProperties made plugin
    ∧ convertible (p_location plugin) = true.
Proof.
  unfold loadPlugin. intros H.
  bind_inv H. bind_inv H. bind_inv H. bind_inv H. bind_inv H.
  destruct (isValid host _) eqn:Hv; cbn [negb] in H.
  2:{ bind_inv H. discriminate H. }
  bind_inv H. bind_inv H. bind_inv H. bind_inv H. injection H as <-.
  match goal with
  | Hm : makePlugin _ _ _ = Ok ?m, Ha : asPlugin ?m = Ok _ |- _ =>
      destruct (makePlugin_plugin _ _ _ _ Hm Ha) as (_ & -> & _)
  end.
  interpolate_inv. destruct_and!.
  eexists _, _, _, _. split_and!; try eassumption; try reflexivity.
  eapply sameProperties_trans;
    [eapply initDataServices_keeps; eassumption|].
  eapply sameProperties_trans;
    [eapply initStaticWebDependencies_keeps; eassumption|].
  eapply init_keeps; eassumption.
Qed.

Lemma loadedPlugin_Some pluginDef plugin :
  loadedPlugin host pluginDef = Some plugin ↔
  loadPlugin host pluginDef = Ok (Some plugin).
Proof.
  unfold loadedPlugin.
  destruct (loadPlugin host pluginDef) as [[p|]|e]; split; congruence.
Qed.

(** A loaded plugin has the identifier of its definition, a string. *)
Lemma loaded_identifier pluginDef plugin :
  loadPlugin host pluginDef = Ok (Some plugin) →
  p_identifier plugin = d_identifier pluginDef
  ∧ is_string (p_identifier plugin) = true
  ∧ isValid host plugin = true.
Proof.
  intros H.
  apply loadPlugin_inv in H
    as (cfg & made & p1 & p2 & _ & Hmk & Hvalid & _ & _ & _ & Hsame & _).
  destruct (makePlugin_plugin _ _ _ _ Hmk eq_refl)
    as (_ & _ & kind & _ & _ & (Hid & _) & _).
  rewrite (isValid_sameProperties _ _ Hsame) in Hvalid.
  destruct Hsame as (_ & Hid' & _).
  destruct (Plugin_isValid_identifier _ (isValid_Plugin_isValid _ Hvalid))
    as [Ht Hs].
  split; [|split; assumption].
  rewrite <- Hid', Hid in Ht |- *. apply inheritNull_truthy_inv, Ht.
Qed.

Lemma aborts_not_loaded pluginDef :
  aborts pluginDef = true → loadedPlugin host pluginDef = None.
Proof.
  unfold aborts. intros Ha.
  destruct (loadedPlugin host pluginDef) as [plugin|] eqn:Hl; [|reflexivity].
  apply loadedPlugin_Some, loaded_identifier in Hl as (Hid & Hs & _).
  rewrite Hid in Hs. rewrite (is_string_convertible _ Hs) in Ha.
  discriminate Ha.
Qed.

(** *** The loading loop *)

Lemma loadPlugin_Ok_convertible pluginDef outcome :
  loadPlugin host pluginDef = Ok outcome → aborts pluginDef = false.
Proof.
  unfold loadPlugin, aborts. intros H. bind_inv H. bind_inv H.
  interpolate_inv. destruct_and!.
  apply negb_false_iff. assumption.
Qed.

Lemma registerAll_app l1 l2 : ∀ map,
  registerAll (l1 ++ l2) map = registerAll l2 (registerAll l1 map).
Proof.
  induction l1 as [|p rest IH]; intros map; [reflexivity|].
  simpl. apply IH.
Qed.

Lemma with_nothing this :
  with_log [] (with_pluginMap (pluginMap this) (with_pushed [] this)) = this.
Proof.
  destruct this. unfold with_log, with_pluginMap, with_pushed. simpl.
  rewrite !app_nil_r. reflexivity.
Qed.

Lemma installPlugins_loop_run pluginDefs : ∀ successCount this,
  ∃ r entries,
    installPlugins_loop host pluginDefs successCount this
    = (r,
       with_log entries
         (with_pluginMap
            (registerAll (omap (loadedPlugin host) (processed pluginDefs))
               (pluginMap this))
            (with_pushed (omap (loadedPlugin host) (processed pluginDefs))
               this)))
    ∧ (∀ def, def ∈ processed pluginDefs → aborts def = false →
              loadMessage host def ∈ entries)
    ∧ ((forallb (λ def, negb (aborts def)) pluginDefs = true
        ∧ ∃ count, r = Ok count)
       ∨ (forallb (λ def, negb (aborts def)) pluginDefs = false
          ∧ r = Throw TypeError)).
Proof.
  induction pluginDefs as [|pluginDef rest IH]; intros successCount this.
  - exists (Ok successCount), []. simpl. rewrite with_nothing.
    split; [reflexivity|]. split; [intros def Hin; inversion Hin|].
    left. split; [reflexivity | eexists; reflexivity].
  - cbn [installPlugins_loop]. unfold mbind, M_bind.
    rewrite installPlugins_iteration_run.
    assert (HL : loadedPlugin host pluginDef
                 = match loadPlugin host pluginDef with
                   | Ok (Some plugin) => Some plugin
                   | _ => None
                   end) by reflexivity.
    assert (HM : loadMessage host pluginDef
                 = match loadPlugin host pluginDef with
                   | Ok (Some plugin) =>
                       Info_loaded (p_identifier plugin) (p_location plugin)
                   | Ok None => Warn_invalidSkipping (d_location pluginDef)
                   | Throw e => Info_failedToLoad (d_identifier pluginDef) e
                   end) by reflexivity.
    cbn [processed forallb].
    destruct (loadPlugin host pluginDef) as [[plugin|]|e] eqn:Hload.
    + rewrite (loadPlugin_Ok_convertible _ _ Hload). cbn [negb andb].
      rewrite omap_cons, HL. cbv zeta. cbn [registerAll].
      destruct (pluginMap_assign _ plugin (pluginMap this)) as [map|e];
        match goal with
        | |- context [installPlugins_loop host rest ?n ?st] =>
            destruct (IH n st) as (r & entries & Hrun & Hmsg & Hres)
        end; rewrite Hrun.
      * exists r,
          (Info_loaded (p_identifier plugin) (p_location plugin) :: entries).
        split; [|split; [|exact Hres]].
        -- unfold with_log, with_pluginMap, with_pushed. simpl.
           rewrite <- !app_assoc. reflexivity.
        -- intros def Hin Hab. apply elem_of_cons in Hin as [-> | Hin].
           ++ rewrite HM. apply list_elem_of_here.
           ++ apply list_elem_of_further, Hmsg; assumption.
      * exists r,
          (Info_loaded (p_identifier plugin) (p_location plugin)
           :: Info_failedToLoad (d_identifier pluginDef) e :: entries).
        split; [|split; [|exact Hres]].
        -- unfold with_log, with_pluginMap, with_pushed. simpl.
           rewrite <- !app_assoc. reflexivity.
        -- intros def Hin Hab. apply elem_of_cons in Hin as [-> | Hin].
           ++ rewrite HM. apply list_elem_of_here.
           ++ do 2 apply list_elem_of_further. apply Hmsg; assumption.
    + rewrite (loadPlugin_Ok_convertible _ _ Hload). cbn [negb andb].
      rewrite omap_cons, HL.
      match goal with
      | |- context [installPlugins_loop host rest ?n ?st] =>
          destruct (IH n st) as (r & entries & Hrun & Hmsg & Hres)
      end; rewrite Hrun.
      exists r, (Warn_invalidSkipping (d_location pluginDef) :: entries).
      split; [|split; [|exact Hres]].
      * unfold with_log, with_pluginMap, with_pushed. simpl.
        rewrite <- !app_assoc. reflexivity.
      * intros def Hin Hab. apply elem_of_cons in Hin as [-> | Hin].
        -- rewrite HM. apply list_elem_of_here.
        -- apply list_elem_of_further, Hmsg; assumption.
    + destruct (aborts pluginDef) eqn:Hab; cbn [negb andb].
      * exists (Throw TypeError), []. rewrite omap_cons, HL. simpl.
        rewrite with_nothing. split; [reflexivity|]. split; [|right; auto].
        intros def Hin Hab'. apply list_elem_of_singleton in Hin as ->.
        congruence.
      * rewrite omap_cons, HL.
        match goal with
        | |- context [installPlugins_loop host rest ?n ?st] =>
            destruct (IH n st) as (r & entries & Hrun & Hmsg & Hres)
        end; rewrite Hrun.
        exists r, (Info_failedToLoad (d_identifier pluginDef) e :: entries).
        split; [|split; [|exact Hres]].
        -- unfold with_log, with_pluginMap, with_pushed. simpl.
           rewrite <- !app_assoc. reflexivity.
        -- intros def Hin Hab'. apply elem_of_cons in Hin as [-> | Hin].
           ++ rewrite HM. apply list_elem_of_here.
           ++ apply list_elem_of_further, Hmsg; assumption.
Qed.

Lemma processed_all pluginDefs :
  forallb (λ def, negb (aborts def)) pluginDefs = true →
  processed pluginDefs = pluginDefs.
Proof.
  induction pluginDefs as [|def rest IH]; [reflexivity|].
  cbn [forallb processed]. intros H. apply andb_true_iff in H as [Ha Hr].
  apply negb_true_iff in Ha. rewrite Ha, (IH Hr). reflexivity.
Qed.

Lemma forEach_rejects rejects : ∀ this,
  ∃ entries,
    forEach rejects
      (λ rejectedPlugin,
         lift (interpolate [pluginId rejectedPlugin]);;
         log (Warn_couldNotInitialize rejectedPlugin)) this
    = (if forallb (λ rejected, convertible (pluginId rejected)) rejects
       then Ok () else Throw TypeError,
       with_log entries this)
    ∧ (forallb (λ rejected, convertible (pluginId rejected)) rejects = true →
       entries = Warn_couldNotInitialize <$> rejects).
Proof.
  induction rejects as [|rejected rest IH]; intros this.
  - exists []. rewrite with_log_nil. split; reflexivity.
  - cbn [forEach forallb]. unfold mbind at 1. unfold M_bind at 1.
    rewrite bind_lift, interpolate_cons, interpolate_nil.
    destruct (convertible (pluginId rejected)); cbn [andb].
    + change (log (Warn_couldNotInitialize rejected) this)
        with (Ok (), with_log [Warn_couldNotInitialize rejected] this).
      cbv iota beta.
      destruct (IH (with_log [Warn_couldNotInitialize rejected] this))
        as (entries & -> & Hall).
      exists (Warn_couldNotInitialize rejected :: entries).
      rewrite with_log_app. split.
      * destruct (forallb _ rest); reflexivity.
      * intros H. rewrite (Hall H). reflexivity.
    + exists []. rewrite with_log_nil. split; [reflexivity | discriminate].
Qed.

Lemma forEach_emit {A} (f : A → Event) xs : ∀ this,
  forEach xs (λ x, emit (f x)) this = (Ok (), with_emitted (f <$> xs) this).
Proof.
  induction xs as [|x rest IH]; intros this; simpl.
  - unfold mret, M_ret, with_emitted. destruct this; simpl.
    rewrite app_nil_r. reflexivity.
  - unfold mbind, M_bind, emit. simpl. rewrite IH.
    unfold with_emitted. simpl. rewrite <- app_assoc. reflexivity.
Qed.

(** The whole effect of one batch. *)
Lemma installPlugins_run pluginDefs this :
  let sorted := processImports host (plugins this) pluginDefs in
  let loaded := omap (loadedPlugin host) (reached host pluginDefs this) in
  ∃ entries,
    installPlugins host pluginDefs this
    = (if completes host pluginDefs this then Ok () else Throw TypeError,
       {| plugins := plugins this ++ loaded;
          pluginMap := registerAll loaded (pluginMap this);
          emitted :=
            emitted this
            ++ (if completes host pluginDefs this
                then givePluginAmount (length (plugins this ++ loaded))
                     :: (pluginAdded <$> (plugins this ++ loaded))
                else []);
          logged := logged this ++ entries |})
    ∧ (completes host pluginDefs this = true →
       ∃ messages successCount,
         entries
         = (Warn_couldNotInitialize <$> sr_rejects sorted)
           ++ messages
           ++ [Info_batchProcessed successCount (length pluginDefs)]
         ∧ ∀ def, def ∈ sr_plugins sorted → loadMessage host def ∈ messages).
Proof.
  intros sorted loaded. unfold installPlugins.
  unfold mbind at 1. unfold M_bind at 1. unfold get at 1. cbv iota beta.
  fold sorted.
  unfold mbind at 1. unfold M_bind at 1.
  destruct (forEach_rejects (sr_rejects sorted) this)
    as (warnings & -> & Hwarnings).
  unfold completes, reached in *. fold sorted in loaded |- *.
  destruct (forallb _ (sr_rejects sorted)) eqn:Hrej; cbn [andb].
  2:{ exists warnings. subst loaded. simpl. rewrite !app_nil_r.
      split; [|discriminate].
      destruct this. reflexivity. }
  unfold mbind at 1. unfold M_bind at 1.
  destruct (installPlugins_loop_run (sr_plugins sorted) 0%nat
              (with_log warnings this))
    as (r & messages & -> & Hmsg & [[Hall (count & ->)] | [Hall ->]]);
    rewrite Hall.
  - rewrite bind_log. unfold mbind at 1. unfold M_bind at 1.
    unfold get at 1. cbv iota beta. rewrite bind_emit.
    match goal with
    | |- context [forEach ?xs _ ?st] =>
        change (forEach xs _ st)
          with (forEach xs (λ x, emit (pluginAdded x)) st)
    end.
    rewrite forEach_emit.
    exists (warnings ++ messages ++ [Info_batchProcessed count
                                       (length pluginDefs)]).
    subst loaded. rewrite (processed_all _ Hall) in *. split.
    + unfold with_emitted, with_log, with_pluginMap, with_pushed. simpl.
      rewrite <- !app_assoc. reflexivity.
    + intros _. exists messages, count. rewrite (Hwarnings eq_refl).
      split; [reflexivity|].
      intros def Hin. apply Hmsg; [exact Hin|].
      rewrite forallb_forall in Hall. apply list_elem_of_In in Hin.
      apply negb_true_iff, Hall, Hin.
  - exists (warnings ++ messages). split; [|discriminate].
    subst loaded. unfold with_emitted, with_log, with_pluginMap, with_pushed. simpl.
    rewrite <- !app_assoc, app_nil_r. reflexivity.
Qed.

(** *** A dynamic addition *)

Lemma dynamicPlugin_inv pluginDef plugin :
  dynamicPlugin host pluginDef = Ok plugin →
  ∃ cfg made p1,
    getPluginConfiguration host (d_identifier pluginDef) = Ok cfg
    ∧ makePlugin host pluginDef cfg = Ok (MadePlugin made)
    ∧ initDataServices host (set_p_dynamicallyCreated (JBool true) made)
      = Ok p1
    ∧ init host p1 = Ok plugin
    ∧ p_identifier plugin = inheritNull (d_identifier pluginDef)
    ∧ p_dynamicallyCreated plugin = JBool true
    ∧ p_webContent_path plugin = None.
Proof.
  unfold dynamicPlugin. intros H. bind_inv H. bind_inv H. bind_inv H.
  bind_inv H.
  match goal with
  | Hm : makePlugin _ _ _ = Ok ?m, Ha : asPlugin ?m = Ok _ |- _ =>
      destruct (makePlugin_plugin _ _ _ _ Hm Ha)
        as (_ & -> & kind & _ & _ & (Hid & _) & _ & _ & _ & _ & Hweb & _)
  end.
  match goal with
  | H1 : initDataServices _ _ = Ok _ |- _ =>
      pose proof (initDataServices_keeps _ _ H1) as (K1 & _ & W1)
  end.
  pose proof (init_keeps _ _ H) as (K2 & _ & W2).
  pose proof (sameProperties_trans _ _ _ K1 K2)
    as (_ & Si & _ & _ & _ & _ & _ & _ & _ & _ & Sd).
  simpl in Si, Sd, W1.
  eexists _, _, _. split_and!; try eassumption; try reflexivity;
    congruence.
Qed.

Lemma addDynamicPlugin_run pluginDef this :
  addDynamicPlugin host pluginDef this
  = if convertible (d_identifier pluginDef) then
      if pluginMap_truthy (pluginMap this)
           (toPropertyKey (d_identifier pluginDef))
      then (Throw AlreadyRegistered, this)
      else
        match dynamicPlugin host pluginDef with
        | Ok plugin =>
            let pushed :=
              with_pushed [plugin]
                (with_log [Info_addingDynamic (d_identifier pluginDef)]
                   this) in
            match pluginMap_assign (toPropertyKey (p_identifier plugin))
                    plugin (pluginMap this) with
            | Ok map =>
                (Ok (),
                 with_emitted [pluginAdded plugin] (with_pluginMap map pushed))
            | Throw e => (Throw e, pushed)
            end
        | Throw e =>
            (Throw e,
             with_log [Info_addingDynamic (d_identifier pluginDef)] this)
        end
    else (Throw TypeError, this).
Proof.
  unfold addDynamicPlugin.
  unfold mbind at 1. unfold M_bind at 1. unfold pluginMap_has, toString.
  destruct (convertible (d_identifier pluginDef)) eqn:Hid; [|reflexivity].
  destruct (pluginMap_truthy _ _); [reflexivity|].
  rewrite bind_lift, interpolate_cons, Hid, interpolate_nil, bind_log,
    bind_lift.
  destruct (dynamicPlugin host pluginDef) as [plugin|e] eqn:Hdyn.
  - apply dynamicPlugin_inv in Hdyn
      as (cfg & made & p1 & -> & Hmk & H1 & H2 & Hp & _).
    rewrite bind_lift, Hmk, bind_lift. cbn [asPlugin]. rewrite bind_lift, H1.
    rewrite bind_lift, H2. unfold deepFreeze. cbv zeta.
    rewrite bind_push. unfold mbind, M_bind.
    rewrite pluginMap_set_run.
    rewrite Hp at 1. rewrite inheritNull_convertible, Hid.
    cbn [pluginMap with_pushed with_log].
    destruct (pluginMap_assign _ _ _); reflexivity.
  - unfold dynamicPlugin in Hdyn.
    destruct (getPluginConfiguration host _) as [cfg|e0];
      [|injection Hdyn as <-; reflexivity].
    rewrite result_bind_Ok in Hdyn. rewrite bind_lift.
    destruct (makePlugin host pluginDef cfg) as [made|e0];
      [|injection Hdyn as <-; reflexivity].
    rewrite result_bind_Ok in Hdyn. rewrite bind_lift.
    destruct (asPlugin made) as [p0|e0];
      [|injection Hdyn as <-; reflexivity].
    rewrite result_bind_Ok in Hdyn. rewrite bind_lift.
    destruct (initDataServices host _) as [p1|e0];
      [|injection Hdyn as <-; reflexivity].
    rewrite result_bind_Ok in Hdyn. rewrite bind_lift, Hdyn. reflexivity.
Qed.

(** *** Failing descriptors make [initDataServices] throw *)

Lemma initDataServices_loop_Ok this defs : ∀ st st',
  initDataServices_loop host this st defs = Ok st' →
  ∀ def, def ∈ defs →
         ∃ st1 st2, initDataServices_step host this st1 def = Ok st2.
Proof.
  induction defs as [|d rest IH]; intros st st' Hrun def Hin.
  - inversion Hin.
  - cbn [initDataServices_loop] in Hrun. bind_inv Hrun.
    apply elem_of_cons in Hin as [-> | Hin].
    + eexists _, _. eassumption.
    + eapply IH; eassumption.
Qed.






End LoaderProperties.

(* ------------------------------------------------------------------ *)
(** ** Batch installation *)

Section Batches.
Context {semver : SemVer} (host : Host).

Lemma after_result pluginDefs this :
  (installPlugins host pluginDefs this).1
  = if completes host pluginDefs this then Ok () else Throw TypeError.
Proof.
  destruct (installPlugins_run host pluginDefs this) as (entries & -> & _).
  reflexivity.
Qed.

Lemma after_plugins pluginDefs this :
  plugins (after host pluginDefs this)
  = plugins this ++ omap (loadedPlugin host) (reached host pluginDefs this).
Proof.
  unfold after.
  destruct (installPlugins_run host pluginDefs this) as (entries & -> & _).
  reflexivity.
Qed.

Lemma batchAccepted_run pluginDefs this :
  batchAccepted host pluginDefs this
  = omap (loadedPlugin host) (reached host pluginDefs this).
Proof. unfold batchAccepted. rewrite after_plugins. apply drop_app_length. Qed.

Lemma after_pluginMap pluginDefs this :
  pluginMap (after host pluginDefs this)
  = registerAll (batchAccepted host pluginDefs this) (pluginMap this).
Proof.
  rewrite batchAccepted_run. unfold after.
  destruct (installPlugins_run host pluginDefs this) as (entries & -> & _).
  reflexivity.
Qed.

Lemma after_emitted pluginDefs this :
  emitted (after host pluginDefs this)
  = emitted this
    ++ (if completes host pluginDefs this
        then givePluginAmount (length (plugins (after host pluginDefs this)))
             :: (pluginAdded <$> plugins (after host pluginDefs this))
        else []).
Proof.
  rewrite after_plugins. unfold after.
  destruct (installPlugins_run host pluginDefs this) as (entries & -> & _).
  reflexivity.
Qed.

Lemma batchEvents_run pluginDefs this :
  batchEvents host pluginDefs this
  = if completes host pluginDefs this
    then givePluginAmount (length (plugins (after host pluginDefs this)))
         :: (pluginAdded <$> plugins (after host pluginDefs this))
    else [].
Proof. unfold batchEvents. rewrite after_emitted. apply drop_app_length. Qed.



Lemma completes_iff pluginDefs this :
  completes host pluginDefs this = true
  ↔ (∀ rejected,
       rejected ∈ sr_rejects (processImports host (plugins this) pluginDefs) →
       convertible (pluginId rejected) = true)
    ∧ (∀ def,
         def ∈ sr_plugins (processImports host (plugins this) pluginDefs) →
         convertible (d_identifier def) = true).
Proof.
  unfold completes, aborts. cbv zeta.
  rewrite andb_true_iff, !forallb_forall. split.
  - intros [Hr Hp]. split.
    + intros r Hin. apply Hr, list_elem_of_In, Hin.
    + intros d Hin. apply list_elem_of_In, Hp in Hin.
      apply negb_true_iff, negb_false_iff in Hin. exact Hin.
  - intros [Hr Hp]. split.
    + intros r Hin. apply Hr, list_elem_of_In, Hin.
    + intros d Hin. apply list_elem_of_In, Hp in Hin. rewrite Hin.
      reflexivity.
Qed.

Lemma processed_sublist pluginDefs def :
  def ∈ processed pluginDefs → def ∈ pluginDefs.
Proof.
  induction pluginDefs as [|d rest IH]; [intros H; inversion H|].
  cbn [processed]. destruct (aborts d).
  - intros H. apply list_elem_of_singleton in H as ->. apply list_elem_of_here.
  - intros H. apply elem_of_cons in H as [-> | H];
      [apply list_elem_of_here | apply list_elem_of_further, IH, H].
Qed.

Lemma reached_ordered pluginDefs this def :
  def ∈ reached host pluginDefs this →
  def ∈ sr_plugins (processImports host (plugins this) pluginDefs).
Proof.
  unfold reached. cbv zeta. destruct (forallb _ _).
  - apply processed_sublist.
  - intros H. inversion H.
Qed.

(** Every plugin a batch appends was loaded from a definition of the
    ordered list. *)
Lemma batchAccepted_loaded pluginDefs this plugin :
  plugin ∈ batchAccepted host pluginDefs this →
  ∃ def,
    def ∈ sr_plugins (processImports host (plugins this) pluginDefs)
    ∧ loadPlugin host def = Ok (Some plugin).
Proof.
  rewrite batchAccepted_run. intros Hin.
  apply list_elem_of_omap in Hin as (def & Hdef & Hloaded).
  exists def. split; [apply reached_ordered, Hdef|].
  apply loadedPlugin_Some, Hloaded.
Qed.


End Batches.

(* ------------------------------------------------------------------ *)
(** ** Service groups *)

Section ServiceGroups.
Context {semver : SemVer} (host : Host).

Lemma string_key v : is_string v = true → JStr (toPropertyKey v) = v.
Proof. destruct v; try discriminate. reflexivity. Qed.

Lemma gt_self v : semver_valid v = true → semver_gt v v = Ok false.
Proof.
  intros Hv. destruct (gt_defined v v Hv Hv) as [[] Hr]; [|exact Hr].
  destruct (gt_irrefl v Hr).
Qed.

Lemma gt_not_both a b :
  semver_valid a = true → semver_valid b = true →
  semver_gt a b = Ok true → semver_gt b a = Ok false.
Proof.
  intros Ha Hb Hab. destruct (gt_defined b a Hb Ha) as [[] Hr]; [|exact Hr].
  destruct (gt_irrefl a (gt_trans a b a Hab Hr)).
Qed.

Lemma gt_below a b c :
  semver_valid a = true → semver_valid b = true →
  semver_gt a c = Ok false → semver_gt b c = Ok true →
  semver_gt a b = Ok false.
Proof.
  intros Ha Hb Hac Hbc. destruct (gt_defined a b Ha Hb) as [[] Hr]; [|exact Hr].
  rewrite (gt_trans a b c Hr Hbc) in Hac. discriminate Hac.
Qed.

(** One insertion keeps every group's [highestVersion] the highest of its
    keys, and does not lower the one it touches. *)
Lemma addService_highest service name container container' :
  allHighest container →
  semver_valid (s_version service) = true →
  addService service name container = Ok container' →
  allHighest container'
  ∧ ∃ group',
      container' !! toPropertyKey name = Some group'
      ∧ is_Some (versions group' !! toPropertyKey (s_version service))
      ∧ ∀ group, container !! toPropertyKey name = Some group →
          semver_gt (highestVersion group) (highestVersion group') = Ok false.
Proof.
  intros Hall Hv. unfold addService, toString.
  destruct (convertible name); [|discriminate]. rewrite result_bind_Ok.
  set (key := toPropertyKey name). set (v := s_version service) in *.
  pose proof (string_key v (valid_is_string v Hv)) as Hkey.
  rewrite (is_string_convertible v (valid_is_string v Hv)).
  assert (Hassign : ∀ m, assignProperty (toPropertyKey v) service m
                         = <[toPropertyKey v := service]> m).
  { intros m. unfold assignProperty.
    destruct (String.eqb_spec (toPropertyKey v) "__proto__") as [E|];
      [|reflexivity].
    rewrite E in Hkey. rewrite <- Hkey, valid_not_proto in Hv.
    discriminate Hv. }
  destruct (inherited key); [discriminate|].
  destruct (container !! key) as [group|] eqn:Hg.
  - destruct (Hall key group Hg) as (Hh & Hin & Hkeys).
    rewrite (valid_truthy _ Hh). cbn [negb].
    destruct (gt_defined v (highestVersion group) Hv Hh) as [greater Hgt].
    rewrite Hgt, !result_bind_Ok, Hassign. intros [= <-].
    assert (Hnew : isHighestVersion
              {| highestVersion :=
                   if greater then v else highestVersion group;
                 versions := <[toPropertyKey v := service]> (versions group) |}).
    { split; [destruct greater; assumption|]. simpl. split.
      - apply lookup_insert_is_Some'.
        destruct greater; [left; reflexivity | right; exact Hin].
      - intros k Hk. apply lookup_insert_is_Some' in Hk as [<- | Hk].
        + rewrite Hkey. split; [assumption|].
          destruct greater; [apply gt_self, Hv | exact Hgt].
        + destruct (Hkeys k Hk) as [Hkv Hkh]. split; [assumption|].
          destruct greater; [eapply gt_below; eassumption | exact Hkh]. }
    split.
    + intros n g. rewrite lookup_insert.
      destruct (decide (key = n)) as [<-|]; [|apply Hall].
      intros [= <-]. exact Hnew.
    + eexists. split; [apply lookup_insert_eq|]. split.
      * simpl. rewrite lookup_insert_eq. eauto.
      * intros g [= <-]. simpl. destruct greater.
        -- apply gt_not_both; assumption.
        -- apply gt_self, Hh.
  - cbn [highestVersion truthy negb versions].
    rewrite !result_bind_Ok, Hassign. intros [= <-]. split.
    + intros n g. rewrite lookup_insert.
      destruct (decide (key = n)) as [<-|]; [|apply Hall].
      intros [= <-]. split; [exact Hv|]. simpl. split.
      * rewrite lookup_insert_eq. eauto.
      * intros k Hk. apply lookup_insert_is_Some' in Hk as [<- | Hk].
        -- rewrite Hkey. split; [assumption | apply gt_self, Hv].
        -- rewrite lookup_empty in Hk. destruct Hk as [? Hk]. discriminate Hk.
    + eexists. split; [apply lookup_insert_eq|]. split.
      * simpl. rewrite lookup_insert_eq. eauto.
      * intros g Hg'. discriminate Hg'.
Qed.

Lemma loadImplementation_Ok this dynamicallyCreated location this' :
  loadImplementation host this dynamicallyCreated location = Ok this' →
  s_type this' = s_type this ∧ s_name this' = s_name this
  ∧ s_localName this' = s_localName this
  ∧ s_version this' = s_version this.
Proof.
  unfold loadImplementation.
  destruct (truthy dynamicallyCreated); intros H.
  - bind_inv H. injection H as <-. repeat split.
  - bind_inv H. bind_inv H. injection H as <-. repeat split.
Qed.

Lemma isExposed_not_import type :
  isExposed type = true → loose_eq type "import" = false.
Proof.
  unfold isExposed, recognised. intros H.
  apply andb_true_iff in H as [Hr Hi]. apply negb_true_iff in Hi.
  rewrite !orb_true_iff in Hr.
  destruct Hr as [[[[H | H] | H] | H] | H];
    try (eapply loose_eq_exclusive; [|exact H]; discriminate).
  - congruence.
  - apply strict_loose_eq in H.
    eapply loose_eq_exclusive; [|exact H]. discriminate.
Qed.

(** What one round of the loop of [initDataServices] does when it does not
    throw. *)
Lemma initDataServices_step_inv this st def st' :
  initDataServices_step host this st def = Ok st' →
  ∃ s0, makeDataService host def this = Ok s0
  ∧ (isNodeService (sd_type def) = true →
     loose_eq (sd_type def) "service" = false →
     strict_eq (sd_type def) "import" = false →
     is_Ok (loadImplementation host s0 (p_dynamicallyCreated this)
              (p_location this)))
  ∧ ((recognised (sd_type def) = false ∧ st' = st)
     ∨ (recognised (sd_type def) = true
        ∧ ∃ s, describes (p_apiVersion this) s def
          ∧ (loose_eq (sd_type def) "import" = false →
             semver_valid (s_version s) = true)
          ∧ g_filteredDataServices st' = g_filteredDataServices st ++ [s]
          ∧ if isExposed (sd_type def)
            then addService s (s_name s) (g_dataServicesGrouped st)
                 = Ok (g_dataServicesGrouped st')
                 ∧ g_importsGrouped st' = g_importsGrouped st
            else addService s (s_localName s) (g_importsGrouped st)
                 = Ok (g_importsGrouped st')
                 ∧ g_dataServicesGrouped st' = g_dataServicesGrouped st)).
Proof.
  unfold initDataServices_step, isNodeService. intros Hstep.
  bind_inv Hstep. rename a into ds.
  pose proof (makeDataService_Ok _ _ _ _ E)
    as (Ht & Hn & Hl & Hver & Hc & Hvalid & _).
  assert (Hd : describes (p_apiVersion this) ds def)
    by (repeat split; assumption).
  rewrite Ht in Hstep. unfold looseEquals in Hstep. rewrite Hc in Hstep.
  rewrite !result_bind_Ok in Hstep.
  unfold isExposed, recognised.
  exists ds. split; [reflexivity|].
  destruct (loose_eq (sd_type def) "service") eqn:Hs.
  { assert (Hni : strict_eq (sd_type def) "import" = false).
    { destruct (strict_eq (sd_type def) "import") eqn:Hi; [|reflexivity].
      apply strict_loose_eq in Hi.
      rewrite (loose_eq_exclusive _ "import" "service") in Hs;
        [discriminate | discriminate | exact Hi]. }
    rewrite Hni. bind_inv Hstep. bind_inv Hstep. injection Hstep as <-.
    split; [discriminate|]. right.
    split; [reflexivity|]. exists ds. simpl. auto. }
  destruct (strict_eq (sd_type def) "import") eqn:Hi.
  { bind_inv Hstep. bind_inv Hstep. injection Hstep as <-.
    split; [discriminate|]. right.
    split; [reflexivity|]. exists ds. simpl. auto. }
  destruct (loose_eq (sd_type def) "nodeService"
            || strict_eq (sd_type def) "router") eqn:Hnode.
  { bind_inv Hstep. rename a into ds'. bind_inv Hstep. bind_inv Hstep.
    injection Hstep as <-.
    pose proof (loadImplementation_Ok _ _ _ _ E0) as (Lt & Ln & Ll & Lv).
    split; [intros; eexists; reflexivity|]. right.
    split.
    { simpl. apply orb_true_iff in Hnode as [-> | ->]; simpl;
        rewrite ?orb_true_r; reflexivity. }
    exists ds'. simpl.
    replace (loose_eq (sd_type def) "nodeService"
             || strict_eq (sd_type def) "router"
             || loose_eq (sd_type def) "external") with true
      by (apply orb_true_iff in Hnode as [-> | ->]; simpl;
          rewrite ?orb_true_r; reflexivity).
    simpl. destruct Hd as (D1 & D2 & D3 & D4).
    split_and!; try congruence; try reflexivity; try assumption.
    - repeat split; congruence.
    - intros Hni. rewrite Lv. apply Hvalid, Hni. }
  apply orb_false_iff in Hnode as [Hn1 Hn2]. rewrite Hn1, Hn2.
  split; [discriminate|]. cbn [orb] in Hstep |- *.
  destruct (loose_eq (sd_type def) "external") eqn:He.
  { bind_inv Hstep. bind_inv Hstep. injection Hstep as <-. right.
    split; [reflexivity|]. exists ds. simpl. auto. }
  bind_inv Hstep. injection Hstep as <-. left. split; reflexivity.
Qed.

Lemma initDataServices_step_highest this st def st' :
  allHighest (g_dataServicesGrouped st) →
  initDataServices_step host this st def = Ok st' →
  allHighest (g_dataServicesGrouped st').
Proof.
  intros Hall Hstep.
  apply initDataServices_step_inv in Hstep
    as (_ & _ & _ & [[_ ->] | (_ & s & _ & Hvalid & _ & Hadd)]);
    [exact Hall|].
  destruct (isExposed (sd_type def)) eqn:He.
  - destruct Hadd as [Hadd _].
    eapply addService_highest;
      [exact Hall | apply Hvalid, isExposed_not_import, He | exact Hadd].
  - destruct Hadd as [_ ->]. exact Hall.
Qed.

Lemma initDataServices_loop_highest this defs : ∀ st st',
  allHighest (g_dataServicesGrouped st) →
  initDataServices_loop host this st defs = Ok st' →
  allHighest (g_dataServicesGrouped st').
Proof.
  induction defs as [|def rest IH]; intros st st' Hall Hrun;
    cbn [initDataServices_loop] in Hrun.
  - injection Hrun as <-. exact Hall.
  - bind_inv Hrun. eapply IH; [|exact Hrun].
    eapply initDataServices_step_highest; eassumption.
Qed.

(** The same for the groups of import requests, when the versions the
    imports carry are valid. *)
Lemma initDataServices_step_imports this st def st' :
  (strict_eq (sd_type def) "import" = true →
   semver_valid (effectiveVersion def (p_apiVersion this)) = true) →
  allHighest (g_importsGrouped st) →
  initDataServices_step host this st def = Ok st' →
  allHighest (g_importsGrouped st').
Proof.
  intros Himp Hall Hstep.
  apply initDataServices_step_inv in Hstep
    as (_ & _ & _ & [[_ ->] | (Hr & s & Hd & _ & _ & Hadd)]);
    [exact Hall|].
  unfold isExposed in Hadd. rewrite Hr in Hadd. cbn [andb] in Hadd.
  destruct (strict_eq (sd_type def) "import") eqn:Hi; cbn [negb] in Hadd.
  - destruct Hadd as [Hadd _]. destruct Hd as (_ & _ & _ & Hv).
    eapply addService_highest; [exact Hall | | exact Hadd].
    rewrite Hv. apply Himp. reflexivity.
  - destruct Hadd as [_ ->]. exact Hall.
Qed.

Lemma initDataServices_loop_imports this defs : ∀ st st',
  (∀ def, def ∈ defs → strict_eq (sd_type def) "import" = true →
          semver_valid (effectiveVersion def (p_apiVersion this)) = true) →
  allHighest (g_importsGrouped st) →
  initDataServices_loop host this st defs = Ok st' →
  allHighest (g_importsGrouped st').
Proof.
  induction defs as [|def rest IH]; intros st st' Himp Hall Hrun;
    cbn [initDataServices_loop] in Hrun.
  - injection Hrun as <-. exact Hall.
  - bind_inv Hrun. eapply IH; [| |exact Hrun].
    + intros d Hd. apply Himp. apply elem_of_cons. right. exact Hd.
    + eapply initDataServices_step_imports; [|exact Hall|eassumption].
      apply Himp. apply elem_of_cons. left. reflexivity.
Qed.

End ServiceGroups.

(* ------------------------------------------------------------------ *)
(** ** Registration *)

Section Registration.
Context {semver : SemVer} (host : Host).

(** An assignment that leaves [Object.prototype] as the prototype of the map
    found it so, was not under the key "__proto__", and did not throw. *)
Lemma pluginMap_assign_None key plugin map :
  prototype match pluginMap_assign key plugin map with
            | Ok map' => map'
            | Throw _ => map
            end = None →
  prototype map = None ∧ key ≠ "__proto__"
  ∧ pluginMap_assign key plugin map
    = Ok {| properties := <[key := plugin]> (properties map);
            prototype := None |}.
Proof.
  unfold pluginMap_assign.
  destruct (String.eqb_spec key "__proto__") as [->|Hkey]; [discriminate|].
  destruct (prototype map) as [frozen|] eqn:Hp.
  - destruct (_ || _); [discriminate | congruence].
  - rewrite orb_true_r. auto.
Qed.

Lemma pluginMap_assign_keys key plugin map map' k :
  pluginMap_assign key plugin map = Ok map' →
  (is_Some (properties map !! k) → is_Some (properties map' !! k))
  ∧ (is_Some (prototype map) → is_Some (prototype map')).
Proof.
  unfold pluginMap_assign.
  destruct (String.eqb key "__proto__"); [intros [= <-]; simpl; eauto|].
  destruct (_ || _); [|discriminate]. intros [= <-]. simpl.
  split; [|auto]. intros H. apply lookup_insert_is_Some'. right. exact H.
Qed.

Lemma registerAll_keys loaded : ∀ map k,
  (is_Some (properties map !! k) →
   is_Some (properties (registerAll loaded map) !! k))
  ∧ (is_Some (prototype map) →
     is_Some (prototype (registerAll loaded map))).
Proof.
  induction loaded as [|p rest IH]; intros map k; [auto|].
  cbn [registerAll].
  destruct (pluginMap_assign _ p map) as [map'|e] eqn:Ha; [|apply IH].
  destruct (pluginMap_assign_keys _ _ _ _ k Ha) as [H1 H2].
  destruct (IH map' k) as [H3 H4]. auto.
Qed.

Lemma registerAll_None loaded : ∀ map,
  prototype (registerAll loaded map) = None → prototype map = None.
Proof.
  intros map H.
  destruct (prototype map) eqn:Hp; [|reflexivity].
  destruct (proj2 (registerAll_keys loaded map "")) as [x Hx];
    [rewrite Hp; eauto | congruence].
Qed.

Lemma registerAll_snoc loaded plugin map :
  registerAll (loaded ++ [plugin]) map
  = match pluginMap_assign (toPropertyKey (p_identifier plugin)) plugin
            (registerAll loaded map) with
    | Ok map' => map'
    | Throw _ => registerAll loaded map
    end.
Proof. rewrite registerAll_app. reflexivity. Qed.

Lemma named_snoc key loaded plugin :
  named key (loaded ++ [plugin])
  = named key loaded
    ++ (if decide (toPropertyKey (p_identifier plugin) = key)
        then [plugin] else []).
Proof.
  unfold named. rewrite filter_app, filter_cons, filter_nil.
  destruct (decide _); reflexivity.
Qed.

(** While the prototype of the map is [Object.prototype], the map indexes
    the plugin list, and every plugin of the list is registered. *)
Lemma registerAll_indexed added : ∀ loaded map,
  indexed loaded map ∧ registered loaded map
  ∧ properties map !! "__proto__" = None →
  (∀ p, p ∈ added → convertible (p_identifier p) = true) →
  prototype (registerAll added map) = None →
  indexed (loaded ++ added) (registerAll added map)
  ∧ registered (loaded ++ added) (registerAll added map)
  ∧ properties (registerAll added map) !! "__proto__" = None
  ∧ ∀ p, p ∈ added → toPropertyKey (p_identifier p) ≠ "__proto__".
Proof.
  induction added as [|plugin rest IH]; intros loaded map (Hi & Hr & Hp) Hc Hn.
  - rewrite app_nil_r. split_and!; try assumption.
    intros p Hin. inversion Hin.
  - cbn [registerAll] in *.
    pose proof (registerAll_None _ _ Hn) as Hn1.
    apply pluginMap_assign_None in Hn1 as (Hn0 & Hkey & Ha).
    rewrite Ha in Hn |- *.
    replace (loaded ++ plugin :: rest) with ((loaded ++ [plugin]) ++ rest)
      by (rewrite <- app_assoc; reflexivity).
    destruct (IH (loaded ++ [plugin])
                {| properties :=
                     <[toPropertyKey (p_identifier plugin) := plugin]>
                       (properties map);
                   prototype := None |}) as (I1 & I2 & I3 & I4).
    + split_and!.
      * intros key Hk. cbn [properties].
        rewrite named_snoc, lookup_insert.
        destruct (decide (toPropertyKey (p_identifier plugin) = key)).
        -- rewrite last_snoc. reflexivity.
        -- rewrite app_nil_r. apply Hi, Hk.
      * intros p Hin. cbn [properties].
        apply elem_of_app in Hin as [Hin | Hin].
        -- destruct (Hr p Hin) as [H1 H2]. split; [exact H1|].
           apply lookup_insert_is_Some'. right. exact H2.
        -- apply list_elem_of_singleton in Hin as ->. split.
           ++ apply Hc, list_elem_of_here.
           ++ apply lookup_insert_is_Some'. left. reflexivity.
      * cbn [properties]. rewrite lookup_insert_ne; assumption.
    + intros p Hin. apply Hc, list_elem_of_further, Hin.
    + exact Hn.
    + split_and!; try assumption.
      intros p Hin. apply elem_of_cons in Hin as [-> | Hin];
        [exact Hkey | apply I4, Hin].
Qed.

(** What either public method does to the plugin list and the map. *)
Lemma installPlugins_registers pluginDefs this :
  ∃ added,
    plugins (installPlugins host pluginDefs this).2 = plugins this ++ added
    ∧ pluginMap (installPlugins host pluginDefs this).2
      = registerAll added (pluginMap this)
    ∧ ∀ p, p ∈ added → convertible (p_identifier p) = true.
Proof.
  exists (batchAccepted host pluginDefs this).
  split; [rewrite batchAccepted_run; apply after_plugins|].
  split; [apply after_pluginMap|].
  intros p Hin. apply batchAccepted_loaded in Hin as (def & _ & Hl).
  apply loaded_identifier in Hl as (_ & Hs & _).
  apply is_string_convertible, Hs.
Qed.

Lemma addDynamicPlugin_registers pluginDef this :
  ∃ added,
    plugins (addDynamicPlugin host pluginDef this).2 = plugins this ++ added
    ∧ pluginMap (addDynamicPlugin host pluginDef this).2
      = registerAll added (pluginMap this)
    ∧ ∀ p, p ∈ added → convertible (p_identifier p) = true.
Proof.
  rewrite addDynamicPlugin_run.
  assert (Hnone : ∀ (r : result ()) st,
            plugins st = plugins this → pluginMap st = pluginMap this →
            ∃ added,
              plugins (r, st).2 = plugins this ++ added
              ∧ pluginMap (r, st).2 = registerAll added (pluginMap this)
              ∧ ∀ p, p ∈ added → convertible (p_identifier p) = true).
  { intros r st Hp Hm. exists []. simpl. rewrite app_nil_r.
    split_and!; try assumption. intros p Hin. inversion Hin. }
  destruct (convertible (d_identifier pluginDef)) eqn:Hid;
    [|apply Hnone; reflexivity].
  destruct (pluginMap_truthy _ _); [apply Hnone; reflexivity|].
  destruct (dynamicPlugin host pluginDef) as [plugin|e] eqn:Hdyn;
    [|apply Hnone; reflexivity].
  exists [plugin]. cbn [registerAll]. cbv zeta.
  destruct (pluginMap_assign _ plugin (pluginMap this)); simpl;
    (split_and!; [reflexivity | reflexivity |]);
    intros p Hin; apply list_elem_of_singleton in Hin as ->;
    apply dynamicPlugin_inv in Hdyn as (_ & _ & _ & _ & _ & _ & _ & -> & _);
    rewrite inheritNull_convertible; exact Hid.
Qed.

Lemma reachable_indexed this :
  reachable host this →
  prototype (pluginMap this) = None →
  indexed (plugins this) (pluginMap this)
  ∧ registered (plugins this) (pluginMap this)
  ∧ properties (pluginMap this) !! "__proto__" = None
  ∧ ∀ p, p ∈ plugins this → toPropertyKey (p_identifier p) ≠ "__proto__".
Proof.
  induction 1 as [|this defs r this' _ IH Hrun|this def r this' _ IH Hrun].
  - intros _. split_and!.
    + intros key _. reflexivity.
    + intros p Hin. inversion Hin.
    + reflexivity.
    + intros p Hin. inversion Hin.
  - intros Hn.
    destruct (installPlugins_registers defs this) as (added & Hp & Hm & Hc).
    rewrite Hrun in Hp, Hm. cbn [snd] in Hp, Hm. rewrite Hp, Hm in *.
    destruct (IH (registerAll_None _ _ Hn)) as (I1 & I2 & I3 & I4).
    destruct (registerAll_indexed added (plugins this) (pluginMap this))
      as (J1 & J2 & J3 & J4); auto.
    split_and!; try assumption.
    intros p Hin. apply elem_of_app in Hin as [Hin | Hin]; auto.
  - intros Hn.
    destruct (addDynamicPlugin_registers def this) as (added & Hp & Hm & Hc).
    rewrite Hrun in Hp, Hm. cbn [snd] in Hp, Hm. rewrite Hp, Hm in *.
    destruct (IH (registerAll_None _ _ Hn)) as (I1 & I2 & I3 & I4).
    destruct (registerAll_indexed added (plugins this) (pluginMap this))
      as (J1 & J2 & J3 & J4); auto.
    split_and!; try assumption.
    intros p Hin. apply elem_of_app in Hin as [Hin | Hin]; auto.
Qed.

End Registration.

#[local] Existing Instance CoreSemVer.instance.







(** C7 (counterexample). Two batches on a fresh loader, the provider and
    then its consumer. The second batch accepts the consumer only, yet its
    notifications are the count 2, the provider (accepted by the first
    batch) and the consumer. *)
Lemma second_batch_notifies_first_batch_again :
  ∃ provider consumer,
    plugins (after (referenceHost None) [authProvider] newPluginLoader)
    = [provider]
    ∧ batchAccepted (referenceHost None) [authConsumer]
        (after (referenceHost None) [authProvider] newPluginLoader)
      = [consumer]
    ∧ batchEvents (referenceHost None) [authConsumer]
        (after (referenceHost None) [authProvider] newPluginLoader)
      = [givePluginAmount 2; pluginAdded provider; pluginAdded consumer]
    ∧ ¬ (provider ∈ batchAccepted (referenceHost None) [authConsumer]
                       (after (referenceHost None) [authProvider]
                          newPluginLoader))
    ∧ ∀ n,
        batchEvents (referenceHost None) [authConsumer]
          (after (referenceHost None) [authProvider] newPluginLoader)
        ≠ givePluginAmount n
          :: (pluginAdded
                <$> batchAccepted (referenceHost None) [authConsumer]
                      (after (referenceHost None) [authProvider]
                         newPluginLoader)).
Proof.
  eexists _, _.
  split; [vm_compute; reflexivity|].
  split; [vm_compute; reflexivity|].
  split; [vm_compute; reflexivity|].
  split.
  - intros Hin. vm_compute in Hin.
    apply list_elem_of_singleton in Hin.
    apply (f_equal p_identifier) in Hin. discriminate Hin.
  - intros n Heq. vm_compute in Heq. discriminate Heq.
Qed.

(** C7 (as amended). After each batch that completes the host is notified
    exactly once of the length of the loader's whole plugin list, and then
    exactly once per plugin of that whole list, in order: the plugins
    registered before the batch first, then those the batch accepted. The
    notifications are those of the batch's own plugins when the list was
    empty before the batch. *)
Theorem installPlugins_notifies_whole_list
    {semver : SemVer} (host : Host) (this : PluginLoader)
    (pluginDefs : list PluginDef) :
  (installPlugins host pluginDefs this).1 = Ok () →
  emitted (after host pluginDefs this)
  = emitted this ++ batchEvents host pluginDefs this
  ∧ plugins (after host pluginDefs this)
    = plugins this ++ batchAccepted host pluginDefs this
  ∧ batchEvents host pluginDefs this
    = givePluginAmount (length (plugins (after host pluginDefs this)))
      :: (pluginAdded <$> plugins (after host pluginDefs this))
  ∧ (plugins this = [] →
     batchEvents host pluginDefs this
     = givePluginAmount (length (batchAccepted host pluginDefs this))
       :: (pluginAdded <$> batchAccepted host pluginDefs this)).
Proof.
  rewrite after_result. intros Hc.
  destruct (completes host pluginDefs this) eqn:Hcompletes; [|discriminate].
  assert (Hplugins : plugins (after host pluginDefs this)
                     = plugins this ++ batchAccepted host pluginDefs this)
    by (rewrite batchAccepted_run; apply after_plugins).
  assert (Hevents : batchEvents host pluginDefs this
            = givePluginAmount (length (plugins (after host pluginDefs this)))
              :: (pluginAdded <$> plugins (after host pluginDefs this)))
    by (rewrite batchEvents_run, Hcompletes; reflexivity).
  split; [|split; [exact Hplugins|split; [exact Hevents|]]].
  - rewrite Hevents, after_emitted, Hcompletes. reflexivity.
  - intros Hempty. rewrite Hevents, Hplugins, Hempty. reflexivity.
Qed.

(** C7 (witness): the first batch on a fresh loader notifies the count 2
    and then the two plugins it accepted. *)
Lemma installPlugins_notifies_witness :
  batchEvents (referenceHost None) [authConsumer; authProvider]
    newPluginLoader
  = givePluginAmount 2
    :: (pluginAdded
          <$> batchAccepted (referenceHost None) [authConsumer; authProvider]
                newPluginLoader)
  ∧ (p_identifier
       <$> batchAccepted (referenceHost None) [authConsumer; authProvider]
             newPluginLoader)
    = [JStr "org.zowe.provider"; JStr "org.zowe.consumer"].
Proof.
  destruct (installPlugins_notifies_whole_list (referenceHost None)
              newPluginLoader [authConsumer; authProvider])
    as (_ & _ & _ & H); [vm_compute; reflexivity|].
  assert (Hlen : length (batchAccepted (referenceHost None)
                           [authConsumer; authProvider] newPluginLoader)
                 = 2%nat) by (vm_compute; reflexivity).
  rewrite Hlen in H. split; [exact (H eq_refl)|].
  vm_compute. reflexivity.
Defined.




(** C4 (counterexample). A plugin with three imports under the local name
    [auth], whose versions are the empty string, 0 and [null]. The import's
    own version is checked nowhere, and each of the three is falsy, so each
    insertion finds [!group.highestVersion] true and overwrites
    [highestVersion]. The plugin is loaded by a batch, next to the provider,
    and its group [auth] has three keys and [null] as highest version. *)
Lemma imports_group_without_highest_version :
  ∃ plugin imports group,
    plugin ∈ plugins (after (referenceHost None) [authProvider; falsyImports]
                        newPluginLoader)
    ∧ loadedPlugin (referenceHost None) falsyImports = Some plugin
    ∧ p_importsGrouped plugin = Some imports
    ∧ imports !! "auth" = Some group
    ∧ highestVersion group = JNull
    ∧ (s_version <$> versions group) !! "" = Some (JStr "")
    ∧ (s_version <$> versions group) !! "0" = Some (JNum "0")
    ∧ (s_version <$> versions group) !! "null" = Some JNull
    ∧ ¬ isHighestVersion group.
Proof.
  destruct (loadedPlugin (referenceHost None) falsyImports) as [plugin|]
    eqn:Hl; [|vm_compute in Hl; discriminate Hl].
  destruct (p_importsGrouped plugin) as [imports|] eqn:Hi.
  2:{ vm_compute in Hl. injection Hl as <-. discriminate Hi. }
  destruct (imports !! "auth") as [group|] eqn:Hg.
  2:{ vm_compute in Hl. injection Hl as <-. injection Hi as <-.
      vm_compute in Hg. discriminate Hg. }
  exists plugin, imports, group.
  vm_compute in Hl. injection Hl as <-. injection Hi as <-.
  vm_compute in Hg. injection Hg as <-.
  split.
  { vm_compute. apply list_elem_of_further, list_elem_of_here. }
  split; [reflexivity|]. split; [reflexivity|]. split; [reflexivity|].
  split; [reflexivity|].
  split; [vm_compute; reflexivity|]. split; [vm_compute; reflexivity|].
  split; [vm_compute; reflexivity|].
  intros (Hvalid & _). vm_compute in Hvalid. discriminate Hvalid.
Qed.

(** C4 (as amended). In every service group that [initDataServices] builds
    for the services a plugin exposes (a group of [dataServicesGrouped]),
    [highestVersion] is one of the keys of [versions] and no key is a
    greater version: it is the maximum of the keys. The same holds of the
    groups of import requests ([importsGrouped]) when the versions the
    imports carry are valid. Each insertion by [addService] of a valid
    version keeps this true of every group, stores the inserted version, and
    leaves the group it inserts into with a [highestVersion] that is not
    lower than before. *)
Theorem highestVersion_is_maximum {semver : SemVer} (host : Host) :
  (∀ this defs this' grouped name group,
     p_dataServices this = DSDefs defs →
     initDataServices host this = Ok this' →
     p_dataServicesGrouped this' = Some grouped →
     grouped !! name = Some group →
     isHighestVersion group)
  ∧ (∀ this defs this' imports name group,
       p_dataServices this = DSDefs defs →
       (∀ def, def ∈ defs → strict_eq (sd_type def) "import" = true →
               semver_valid (effectiveVersion def (p_apiVersion this)) = true) →
       initDataServices host this = Ok this' →
       p_importsGrouped this' = Some imports →
       imports !! name = Some group →
       isHighestVersion group)
  ∧ (∀ service name container container',
       (∀ n g, container !! n = Some g → isHighestVersion g) →
       semver_valid (s_version service) = true →
       addService service name container = Ok container' →
       (∀ n g, container' !! n = Some g → isHighestVersion g)
       ∧ ∃ group',
           container' !! toPropertyKey name = Some group'
           ∧ is_Some (versions group' !! toPropertyKey (s_version service))
           ∧ ∀ group, container !! toPropertyKey name = Some group →
               semver_gt (highestVersion group) (highestVersion group')
               = Ok false).
Proof.
  split.
  - intros this defs this' grouped name group Hds. unfold initDataServices.
    rewrite Hds. intros H. bind_inv H. injection H as <-. simpl.
    intros [= <-] Hg.
    eapply (initDataServices_loop_highest host this defs);
      [|eassumption|exact Hg].
    intros n g Hg'. simpl in Hg'. rewrite lookup_empty in Hg'.
    discriminate Hg'.
  - split.
    + intros this defs this' imports name group Hds Himp.
      unfold initDataServices. rewrite Hds. intros H. bind_inv H.
      injection H as <-. simpl. intros [= <-] Hg.
      eapply (initDataServices_loop_imports host this defs);
        [exact Himp| |eassumption|exact Hg].
      intros n g Hg'. simpl in Hg'. rewrite lookup_empty in Hg'.
      discriminate Hg'.
    + intros service name container container'.
      apply addService_highest.
Qed.

(** C4 (witness): the provider exposes [auth] as 1.0.0, 2.0.0 and 1.2.0, in
    this order; the group ends with 2.0.0 as its highest version. *)
Lemma highestVersion_witness :
  ∃ this' grouped group,
    initDataServices (referenceHost None) providerPlugin = Ok this'
    ∧ p_dataServicesGrouped this' = Some grouped
    ∧ grouped !! "auth" = Some group
    ∧ highestVersion group = JStr "2.0.0"
    ∧ isHighestVersion group.
Proof.
  eexists _, _, _.
  split; [vm_compute; reflexivity|].
  split; [reflexivity|]. split; [reflexivity|]. split; [reflexivity|].
  eapply (proj1 (highestVersion_is_maximum (referenceHost None))
            providerPlugin
            [serviceDef "service" "auth" "1.0.0";
             serviceDef "service" "auth" "2.0.0";
             serviceDef "service" "auth" "1.2.0"] _ _ "auth");
    [reflexivity | vm_compute; reflexivity | reflexivity | reflexivity].
Defined.

(** The proxy connector's constructor never assigns [this.port]. *)
Lemma ProxyConnectorPlugIn_port_unchanged (host : Host) def cfg :
  p_port (ProxyConnectorPlugIn host def cfg) = d_port def.
Proof.
  destruct (ProxyConnectorPlugIn_constructedFrom host def cfg)
    as (_ & _ & _ & _ & _ & _ & _ & Hport & _).
  exact Hport.
Qed.

(** C5 (the code at the failing input). A proxy connector without host and
    port, and a [remote.json] that supplies both: the constructor stores the
    remote host in [host], then overwrites [host] with the remote port, and
    leaves [port] undefined; the presence check of [isValid] fails and a
    batch does not load the plugin. *)
Theorem ProxyConnectorPlugIn_port_not_defaulted :
  p_host (ProxyConnectorPlugIn (referenceHost (Some remoteJson)) proxyDef
            {| getContents_remote_json := Some remoteJson |})
  = JNum "8542"
  ∧ p_port (ProxyConnectorPlugIn (referenceHost (Some remoteJson)) proxyDef
              {| getContents_remote_json := Some remoteJson |})
    = JUndefined
  ∧ Plugin_isValid
      (ProxyConnectorPlugIn (referenceHost (Some remoteJson)) proxyDef
         {| getContents_remote_json := Some remoteJson |}) = true
  ∧ ProxyConnectorPlugIn_isValid (referenceHost (Some remoteJson))
      (ProxyConnectorPlugIn (referenceHost (Some remoteJson)) proxyDef
         {| getContents_remote_json := Some remoteJson |}) = false
  ∧ loadPlugin (referenceHost (Some remoteJson)) proxyDef = Ok None.
Proof. repeat split; vm_compute; reflexivity. Qed.










(** C10. The host and the port of an external service, on the object the
    constructor returns, are taken from the first source, in a fixed order,
    that holds a value (a truthy one): the service definition, then the
    owning plugin, then [remote.json] when there is one. A later source
    never replaces a value found in an earlier one; when no source holds a
    value the field is what the last source consulted gave. *)
Theorem ExternalService_host_port_precedence
    (def : ServiceDef) (configuration : Configuration) (plugin : PluginObj)
    (this : ServiceObj) :
  ExternalService def configuration plugin = Ok this →
  s_host this
  = match getContents_remote_json configuration with
    | Some remoteConfig =>
        firstPresent [sd_host def; p_host plugin] (rc_host remoteConfig)
    | None => firstPresent [sd_host def] (p_host plugin)
    end
  ∧ s_port this
    = match getContents_remote_json configuration with
      | Some remoteConfig =>
          firstPresent [sd_port def; p_port plugin] (rc_port remoteConfig)
      | None => firstPresent [sd_port def] (p_port plugin)
      end.
Proof.
  unfold ExternalService. intros H. bind_inv H. rename a into s.
  apply Service_inv in E as (_ & _ & _ & _ & Hh & Hp & _).
  unfold firstPresent. destruct s; simpl in *. subst.
  destruct (getContents_remote_json configuration) as [rc|];
    destruct (truthy (sd_host def)) eqn:E1;
    destruct (truthy (sd_port def)) eqn:E2;
    destruct (truthy (p_host plugin)) eqn:E3;
    destruct (truthy (p_port plugin)) eqn:E4;
    repeat progress (simpl in H; rewrite ?E1, ?E2, ?E3, ?E4 in H);
    injection H as <-; simpl; split; reflexivity.
Qed.

(** C10 (witness): an external service without host and port, in a plugin
    without either, takes both from [remote.json]; one that names its host
    keeps it. *)
Lemma ExternalService_witness :
  ∃ this kept,
    ExternalService (externalDef JUndefined)
      {| getContents_remote_json := Some remoteJson |} providerPlugin = Ok this
    ∧ s_host this = JStr "zss.example.org" ∧ s_port this = JNum "8542"
    ∧ ExternalService (externalDef (JStr "localhost"))
        {| getContents_remote_json := Some remoteJson |} providerPlugin
      = Ok kept
    ∧ s_host kept = JStr "localhost" ∧ s_port kept = JNum "8542".
Proof.
  eexists _, _.
  split; [reflexivity|].
  split;
    [apply (ExternalService_host_port_precedence (externalDef JUndefined)
              {| getContents_remote_json := Some remoteJson |} providerPlugin
              _ eq_refl)|].
  split;
    [apply (ExternalService_host_port_precedence (externalDef JUndefined)
              {| getContents_remote_json := Some remoteJson |} providerPlugin
              _ eq_refl)|].
  split; [reflexivity|].
  split;
    apply (ExternalService_host_port_precedence
             (externalDef (JStr "localhost"))
             {| getContents_remote_json := Some remoteJson |} providerPlugin
             _ eq_refl).
Defined.

(* ------------------------------------------------------------------ *)
(** ** Plugin construction *)

Section Construction.
Context {semver : SemVer} (host : Host).

(** X1. [makePlugin] returns a plugin object exactly when the property key
    of the definition's [pluginType] is one of the seven types of the
    constructor table, and the plugin then has the prototype the table gives
    for that type. For the plugin type "constructor" the table yields
    [Object], and [makePlugin] returns the definition itself. A definition
    without a [pluginType] (or with [null]) fails with the unknown-type
    error when its identifier converts to a string, and with a [TypeError]
    otherwise; a [pluginType] that names any other property inherited from
    [Object.prototype], or that cannot be converted to a property key, fails
    with a [TypeError]. *)
Theorem makePlugin_known_types (def : PluginDef) (cfg : Configuration) :
  (∀ plugin,
     makePlugin host def cfg = Ok (MadePlugin plugin) →
     convertible (d_pluginType def) = true
     ∧ (toPropertyKey (d_pluginType def), p_kind plugin) ∈ knownPluginTypes)
  ∧ (∀ kind,
       convertible (d_pluginType def) = true →
       (toPropertyKey (d_pluginType def), kind) ∈ knownPluginTypes →
       ∃ plugin,
         makePlugin host def cfg = Ok (MadePlugin plugin)
         ∧ p_kind plugin = kind)
  ∧ (∀ made,
       makePlugin host def cfg = Ok (MadeDefinition made)
       ↔ convertible (d_pluginType def) = true
         ∧ toPropertyKey (d_pluginType def) = "constructor"
         ∧ made = def)
  ∧ (d_pluginType def = JUndefined ∨ d_pluginType def = JNull →
     makePlugin host def cfg
     = if convertible (d_identifier def)
       then Throw (UnknownPluginType (d_identifier def) (d_pluginType def))
       else Throw TypeError)
  ∧ (convertible (d_pluginType def) = true →
     inherited (toPropertyKey (d_pluginType def)) = true →
     toPropertyKey (d_pluginType def) ≠ "constructor" →
     makePlugin host def cfg = Throw TypeError)
  ∧ (convertible (d_pluginType def) = false →
     makePlugin host def cfg = Throw TypeError).
Proof.
  pose proof (plugInConstructorsByType_known host
                (toPropertyKey (d_pluginType def))) as Hk.
  unfold makePlugin, toString.
  destruct (convertible (d_pluginType def)) eqn:Hc.
  2:{ rewrite result_bind_Throw. split_and!; try discriminate; auto;
        try (intros made; split; [discriminate | intros [H _]; discriminate H]);
        try (intros [E | E]; rewrite E in Hc; discriminate Hc). }
  rewrite result_bind_Ok.
  destruct (plugInConstructorsByType host (toPropertyKey (d_pluginType def)))
    as [constr|] eqn:Hconstr.
  - destruct Hk as (kind & Hin & Hkind).
    destruct (Hkind def cfg) as (Hpk & _).
    destruct (knownPluginTypes_not_inherited _ _ Hin) as [Hni Hnc].
    split_and!.
    + intros plugin [= <-]. rewrite Hpk. auto.
    + intros kind' _ Hin'. eexists. split; [reflexivity|].
      rewrite Hpk. eapply knownPluginTypes_functional; eassumption.
    + intros made. split; [discriminate|]. intros (_ & H & _). contradiction.
    + intros [E | E]; rewrite E in Hconstr; vm_compute in Hconstr;
        discriminate Hconstr.
    + intros _ Hinh. congruence.
    + discriminate.
  - destruct (String.eqb_spec (toPropertyKey (d_pluginType def))
                "constructor") as [Hcon|Hcon].
    + split_and!; try discriminate.
      * intros kind _ Hin. destruct (Hk kind Hin).
      * intros made. split; [intros [= <-]; auto|].
        intros (_ & _ & ->). reflexivity.
      * intros [E | E]; rewrite E in Hcon; discriminate Hcon.
      * intros _ _ H. contradiction.
    + split_and!.
      * intros plugin. destruct (inherited _); [discriminate|].
        destruct (interpolate _); discriminate.
      * intros kind _ Hin. destruct (Hk kind Hin).
      * intros made. split.
        -- destruct (inherited _); [discriminate|].
           destruct (interpolate _); discriminate.
        -- intros (_ & H & _). contradiction.
      * intros [E | E]; rewrite E; cbn [toPropertyKey inherited];
          rewrite interpolate_cons;
          (destruct (convertible (d_identifier def)); [|reflexivity]);
          reflexivity.
      * intros _ ->. reflexivity.
      * discriminate.
Qed.

(** X2. What [makePlugin] returns, when it returns: for the plugin type
    "constructor" the definition it was given, and otherwise a plugin object
    that has a location, the definition's [location] when that is truthy and
    the working directory of the process otherwise. *)
Theorem makePlugin_location (def : PluginDef) (cfg : Configuration)
    (made : Made) :
  makePlugin host def cfg = Ok made →
  match made with
  | MadePlugin plugin =>
      p_location plugin = locationOf host def
      ∧ (process_cwd host ≠ "" → truthy (p_location plugin) = true)
  | MadeDefinition returned =>
      returned = def ∧ toPropertyKey (d_pluginType def) = "constructor"
  end.
Proof.
  intros Hmk. destruct made as [plugin|returned].
  - destruct (makePlugin_plugin _ _ _ _ _ Hmk eq_refl)
      as (_ & _ & kind & _ & _ & _ & _ & _ & Hloc & _).
    split; [exact Hloc|].
    intros Hcwd. rewrite Hloc. unfold locationOf.
    destruct (truthy (d_location def)) eqn:E; [exact E|].
    simpl. apply negb_true_iff, String.eqb_neq, Hcwd.
  - destruct (makePlugin_known_types def cfg) as (_ & _ & H & _).
    apply H in Hmk as (_ & Hkey & ->). auto.
Qed.

End Construction.

(** X2 (witness): a desktop plugin whose definition has no location, on the
    reference host, and a definition with the plugin type "constructor". *)
Lemma makePlugin_location_witness :
  (∃ plugin,
     makePlugin (referenceHost None)
       (set_d_location JUndefined (pluginDef "org.zowe.desktop" "desktop" None))
       noRemote = Ok (MadePlugin plugin)
     ∧ p_location plugin = JStr "/opt/zlux"
     ∧ truthy (p_location plugin) = true)
  ∧ makePlugin (referenceHost None)
      (pluginDef "org.zowe.object" "constructor" None) noRemote
    = Ok (MadeDefinition (pluginDef "org.zowe.object" "constructor" None)).
Proof.
  split.
  - eexists. split; [reflexivity|].
    destruct (makePlugin_location (referenceHost None)
                (set_d_location JUndefined
                   (pluginDef "org.zowe.desktop" "desktop" None))
                noRemote _ eq_refl) as [Hloc Htruthy].
    split; [exact Hloc | apply Htruthy; discriminate].
  - destruct (makePlugin (referenceHost None)
                (pluginDef "org.zowe.object" "constructor" None) noRemote)
      as [[plugin|returned]|e] eqn:Hmk; try (vm_compute in Hmk; discriminate).
    destruct (makePlugin_location (referenceHost None) _ noRemote _ Hmk)
      as [-> _].
    reflexivity.
Defined.

(* ------------------------------------------------------------------ *)
(** ** What initialisation keeps *)

Section Initialisation.
Context {semver : SemVer} (host : Host).

(** X3. Every plugin that a batch adds to the loader is valid: [isValid] of
    its prototype holds of the initialised object, so its identifier, plugin
    version, API version and plugin type are non-empty strings. *)
Theorem accepted_plugins_are_valid (this : PluginLoader)
    (pluginDefs : list PluginDef) (plugin : PluginObj) :
  plugin ∈ batchAccepted host pluginDefs this →
  isValid host plugin = true
  ∧ Plugin_isValid plugin = true
  ∧ (∃ identifier, p_identifier plugin = JStr identifier ∧ identifier ≠ "")
  ∧ plugin ∈ plugins (after host pluginDefs this).
Proof.
  intros Hin.
  assert (Hafter : plugin ∈ plugins (after host pluginDefs this)).
  { rewrite after_plugins, <- batchAccepted_run. apply elem_of_app.
    right. exact Hin. }
  apply batchAccepted_loaded in Hin as (def & _ & Hloaded).
  apply loaded_identifier in Hloaded as (_ & _ & Hvalid).
  pose proof (isValid_Plugin_isValid host plugin Hvalid) as Hbase.
  split; [exact Hvalid|]. split; [exact Hbase|]. split; [|exact Hafter].
  unfold Plugin_isValid in Hbase. rewrite !andb_true_iff in Hbase.
  destruct Hbase as [[[[[[[Htruthy Hstring] _] _] _] _] _] _].
  destruct (p_identifier plugin) as [| | | |identifier|];
    try discriminate Hstring.
  exists identifier. split; [reflexivity|].
  simpl in Htruthy. destruct (String.eqb_spec identifier "");
    [discriminate | assumption].
Qed.

End Initialisation.

(** X3 (witness): the consumer of the batch [consumer; provider]. *)
Lemma accepted_plugins_witness :
  ∃ plugin,
    p_identifier plugin = JStr "org.zowe.consumer"
    ∧ isValid (referenceHost None) plugin = true.
Proof.
  destruct (loadedPlugin (referenceHost None) authConsumer) as [plugin|]
    eqn:Hl; [|vm_compute in Hl; discriminate Hl].
  exists plugin. split.
  - apply (f_equal (fmap p_identifier)) in Hl. vm_compute in Hl.
    injection Hl as Hl. symmetry. exact Hl.
  - apply (accepted_plugins_are_valid (referenceHost None) newPluginLoader
             [authConsumer; authProvider] plugin).
    rewrite batchAccepted_run. apply list_elem_of_omap.
    exists authConsumer. split; [|exact Hl].
    vm_compute. apply list_elem_of_further, list_elem_of_here.
Defined.

(* ------------------------------------------------------------------ *)
(** ** What a dynamic addition consults *)

Section DynamicAddition.
Context {semver : SemVer} (host : Host).

Lemma dynamicPlugin_sameCollaborators h1 h2 pluginDef :
  sameCollaborators h1 h2 →
  dynamicPlugin h1 pluginDef = dynamicPlugin h2 pluginDef.
Proof.
  intros (Hcwd & Hex & Hjoin & Hreq & Hrfs & Hpc & Hsc & Hreg).
  assert (Hpath : ∀ args, pathJoin h1 args = pathJoin h2 args).
  { intros args. unfold pathJoin. rewrite Hjoin. reflexivity. }
  assert (Hmake : ∀ cfg, makePlugin h1 pluginDef cfg
                         = makePlugin h2 pluginDef cfg).
  { intros cfg. unfold makePlugin, plugInConstructorsByType.
    destruct (toString (d_pluginType pluginDef)) as [key|e]; [|reflexivity].
    rewrite !result_bind_Ok.
    repeat match goal with
           | |- context [String.eqb ?a ?b] => destruct (String.eqb a b)
           end; try reflexivity;
      unfold LibraryPlugIn, ApplicationPlugIn, WindowManagerPlugIn,
        BootstrapPlugIn, DesktopPlugIn, NodeAuthenticationPlugIn,
        ProxyConnectorPlugIn, Plugin; rewrite Hcwd; reflexivity. }
  assert (Hmds : ∀ def plugin, makeDataService h1 def plugin
                               = makeDataService h2 def plugin).
  { intros def plugin. unfold makeDataService. rewrite Hsc. reflexivity. }
  assert (Hload : ∀ s d l, loadImplementation h1 s d l
                           = loadImplementation h2 s d l).
  { intros s d l. unfold loadImplementation.
    rewrite Hrfs, Hreq, !Hpath. reflexivity. }
  assert (Hstep : ∀ this st def, initDataServices_step h1 this st def
                                 = initDataServices_step h2 this st def).
  { intros this st def. unfold initDataServices_step.
    rewrite Hmds. destruct (makeDataService h2 def this) as [ds|e];
      [|reflexivity]. rewrite !result_bind_Ok. rewrite Hload. reflexivity. }
  assert (Hloop : ∀ this defs st, initDataServices_loop h1 this st defs
                                  = initDataServices_loop h2 this st defs).
  { intros this defs. induction defs as [|d rest IH]; intros st;
      [reflexivity|].
    cbn [initDataServices_loop]. rewrite Hstep.
    destruct (initDataServices_step h2 this st d);
      [rewrite !result_bind_Ok; apply IH | reflexivity]. }
  assert (Hinit : ∀ this, init h1 this = init h2 this).
  { intros this. unfold init, LibraryPlugIn_init,
      NodeAuthenticationPlugIn_init. rewrite Hex, Hreq, Hreg, !Hpath.
    reflexivity. }
  unfold dynamicPlugin. rewrite Hpc.
  destruct (getPluginConfiguration h2 _) as [cfg|e]; [|reflexivity].
  rewrite !result_bind_Ok, Hmake.
  destruct (makePlugin h2 pluginDef cfg) as [made|e]; [|reflexivity].
  rewrite !result_bind_Ok.
  destruct (asPlugin made) as [plugin|e]; [|reflexivity].
  rewrite !result_bind_Ok. unfold initDataServices.
  destruct (p_dataServices _); try (rewrite !result_bind_Ok; apply Hinit).
  rewrite Hloop.
  destruct (initDataServices_loop h2 _ _ _);
    [rewrite !result_bind_Ok; apply Hinit | reflexivity].
Qed.

(** X4. [addDynamicPlugin] consults neither the authentication manager's
    list of requested plugins nor the dependency graph: with any other
    answer of [authPluginRequested] and any other [processImports] it
    returns the same result and leaves the same loader state. In particular
    it performs no validity check and resolves no import. *)
Theorem addDynamicPlugin_consults_no_validity
    (requested : jsval → jsval → bool)
    (graph : list PluginObj → list PluginDef → SortedAndRejected)
    (pluginDef : PluginDef) (this : PluginLoader) :
  addDynamicPlugin
    (withProcessImports graph (withAuthPluginRequested requested host))
    pluginDef this
  = addDynamicPlugin host pluginDef this.
Proof.
  rewrite !addDynamicPlugin_run.
  rewrite (dynamicPlugin_sameCollaborators
             (withProcessImports graph
                (withAuthPluginRequested requested host)) host);
    [reflexivity|].
  repeat split.
Qed.

End DynamicAddition.

(* ------------------------------------------------------------------ *)
(** ** Proxy connectors and libraries *)

Section Kinds.
Context {semver : SemVer} (host : Host).

Lemma ProxyConnectorPlugIn_host def cfg :
  truthy (d_port def) = true →
  p_host (ProxyConnectorPlugIn host def cfg)
  = match getContents_remote_json cfg with
    | Some remoteConfig => firstPresent [d_host def] (rc_host remoteConfig)
    | None => d_host def
    end.
Proof.
  intros Hport.
  pose proof (Plugin_constructedFrom host ProxyConnectorPlugIn_ def cfg)
    as ((_ & _ & _ & _ & _ & _ & _ & Hp & _) & Hh).
  unfold ProxyConnectorPlugIn, firstPresent.
  destruct (getContents_remote_json cfg) as [rc|]; [|exact Hh].
  rewrite Hh.
  destruct (truthy (d_host def)); simpl; rewrite ?Hp, Hport; simpl;
    [exact Hh | reflexivity].
Qed.

Lemma ProxyConnectorPlugIn_category def cfg :
  p_authenticationCategory (ProxyConnectorPlugIn host def cfg)
  = d_authenticationCategory def.
Proof.
  assert (F : p_authenticationCategory
                (Plugin host ProxyConnectorPlugIn_ def cfg)
              = d_authenticationCategory def).
  { unfold Plugin. simpl.
    match goal with
    | |- context [if ?b then _ else _] => destruct b
    end; reflexivity. }
  unfold ProxyConnectorPlugIn.
  destruct (getContents_remote_json cfg) as [rc|]; [|exact F].
  destruct (negb (truthy (p_host
              (Plugin host ProxyConnectorPlugIn_ def cfg)))); simpl;
    match goal with
    | |- context [if ?b then _ else _] => destruct b
    end; exact F.
Qed.

(** A definition of one of the known types makes a plugin of that kind. *)
Lemma makePlugin_kind def cfg made type kind :
  d_pluginType def = JStr type →
  (type, kind) ∈ knownPluginTypes →
  makePlugin host def cfg = Ok (MadePlugin made) →
  p_kind made = kind.
Proof.
  intros Htype Hin Hmk.
  destruct (makePlugin_plugin _ _ _ _ _ Hmk eq_refl)
    as (_ & _ & kind' & Hin' & Hk & _).
  rewrite Htype in Hin'. rewrite Hk.
  eapply knownPluginTypes_functional; eassumption.
Qed.

(** X5. A proxy connector is valid only if its own definition carries a
    port: the constructor never assigns [port], whatever [remote.json]
    holds, so [isValid] of a constructed proxy connector implies a truthy
    [port] in the definition (and the authentication manager's consent, which
    this [isValid] also asks for). A proxy-connector definition without a
    port is loaded by no batch. When the definition has a port, the host is
    the definition's if present and else the one of [remote.json]. *)
Theorem ProxyConnectorPlugIn_needs_own_port (def : PluginDef) :
  (∀ cfg,
     ProxyConnectorPlugIn_isValid host (ProxyConnectorPlugIn host def cfg)
     = true →
     truthy (d_port def) = true
     ∧ p_port (ProxyConnectorPlugIn host def cfg) = d_port def
     ∧ p_host (ProxyConnectorPlugIn host def cfg)
       = match getContents_remote_json cfg with
         | Some remoteConfig => firstPresent [d_host def] (rc_host remoteConfig)
         | None => d_host def
         end
     ∧ authPluginRequested host (d_identifier def)
         (d_authenticationCategory def) = true)
  ∧ (d_pluginType def = JStr "proxyConnector" →
     truthy (d_port def) = false →
     loadedPlugin host def = None).
Proof.
  assert (Hvalid : ∀ cfg,
            ProxyConnectorPlugIn_isValid host
              (ProxyConnectorPlugIn host def cfg) = true →
            truthy (d_port def) = true
            ∧ Plugin_isValid (ProxyConnectorPlugIn host def cfg) = true
            ∧ authPluginRequested host
                (p_identifier (ProxyConnectorPlugIn host def cfg))
                (p_authenticationCategory (ProxyConnectorPlugIn host def cfg))
              = true).
  { intros cfg. unfold ProxyConnectorPlugIn_isValid.
    rewrite ProxyConnectorPlugIn_port_unchanged.
    destruct (Plugin_isValid _), (truthy (p_host _)), (truthy (d_port def)),
      (authPluginRequested host _ _); simpl; try discriminate.
    intros _. repeat split. }
  split.
  - intros cfg Hv. destruct (Hvalid cfg Hv) as (Hport & Hbase & Hreq).
    split; [exact Hport|].
    split; [apply ProxyConnectorPlugIn_port_unchanged|].
    split; [apply ProxyConnectorPlugIn_host, Hport|].
    destruct (ProxyConnectorPlugIn_constructedFrom host def cfg)
      as (_ & (Hid & _) & _).
    apply Plugin_isValid_identifier in Hbase as [Hbase _].
    rewrite Hid in Hbase, Hreq.
    rewrite (inheritNull_truthy_inv _ Hbase) in Hreq.
    rewrite ProxyConnectorPlugIn_category in Hreq. exact Hreq.
  - intros Htype Hport.
    destruct (loadedPlugin host def) as [plugin|] eqn:Hl; [|reflexivity].
    apply loadedPlugin_Some, loadPlugin_inv in Hl
      as (cfg & made & p1 & p2 & _ & Hmk & Hv & _).
    assert (made = ProxyConnectorPlugIn host def cfg) as ->.
    { unfold makePlugin in Hmk. rewrite Htype in Hmk.
      injection Hmk as <-. reflexivity. }
    unfold isValid in Hv.
    destruct (ProxyConnectorPlugIn_constructedFrom host def cfg) as (Hk & _).
    rewrite Hk in Hv. destruct (Hvalid cfg Hv) as (Hport' & _). congruence.
Qed.

(** X6. A library plugin whose location does not exist on disk is never
    loaded: [init] of the library prototype throws (its warning reads
    [def.identifier], and no [def] is in scope there), so a batch skips the
    definition and a dynamic addition of it fails. *)
Theorem LibraryPlugIn_needs_its_directory (def : PluginDef) :
  d_pluginType def = JStr "library" →
  fs_existsSync host (locationOf host def) = false →
  (∀ cfg, init host (LibraryPlugIn host def cfg) = Throw ReferenceError)
  ∧ loadedPlugin host def = None
  ∧ is_Throw (dynamicPlugin host def).
Proof.
  intros Htype Hmissing.
  assert (Hmade : ∀ cfg made,
            makePlugin host def cfg = Ok (MadePlugin made) →
            made = LibraryPlugIn host def cfg).
  { intros cfg made Hmk. unfold makePlugin in Hmk. rewrite Htype in Hmk.
    injection Hmk as <-. reflexivity. }
  assert (Hfields : ∀ cfg,
            p_kind (LibraryPlugIn host def cfg) = LibraryPlugIn_
            ∧ p_location (LibraryPlugIn host def cfg) = locationOf host def
            ∧ p_pluginType (LibraryPlugIn host def cfg) = JStr "library").
  { intros cfg.
    destruct (Plugin_constructedFrom host LibraryPlugIn_ def cfg)
      as ((Hk & _ & _ & Ht & Hl & _) & _).
    rewrite Htype in Ht. auto. }
  assert (Hinit : ∀ this,
            p_kind this = LibraryPlugIn_ →
            p_location this = locationOf host def →
            is_Throw (init host this)).
  { intros this Hk Hl. unfold init, LibraryPlugIn_init. rewrite Hk, Hl.
    destruct (negb (strict_eq _ _)); [eexists; reflexivity|].
    rewrite Hmissing. eexists; reflexivity. }
  split; [|split].
  - intros cfg. destruct (Hfields cfg) as (Hk & Hl & Ht).
    unfold init, LibraryPlugIn_init. rewrite Hk, Hl, Hmissing, Ht.
    reflexivity.
  - destruct (loadedPlugin host def) as [plugin|] eqn:Hl; [|reflexivity].
    apply loadedPlugin_Some, loadPlugin_inv in Hl
      as (cfg & made & p1 & p2 & _ & Hmk & _ & H1 & H2 & H3 & _).
    rewrite (Hmade _ _ Hmk) in H1. destruct (Hfields cfg) as (Hk & Hl & _).
    apply initDataServices_keeps in H1 as (K1 & _).
    apply initStaticWebDependencies_keeps in H2.
    pose proof (sameProperties_trans _ _ _ K1 H2)
      as (Sk & _ & _ & _ & _ & Sl & _).
    destruct (Hinit p2) as [e He]; congruence.
  - destruct (dynamicPlugin host def) as [plugin|e] eqn:Hl;
      [|eexists; reflexivity].
    apply dynamicPlugin_inv in Hl
      as (cfg & made & p1 & _ & Hmk & H1 & H3 & _).
    rewrite (Hmade _ _ Hmk) in H1. destruct (Hfields cfg) as (Hk & Hl & _).
    apply initDataServices_keeps in H1 as ((Sk & _ & _ & _ & _ & Sl & _) & _).
    simpl in Sk, Sl.
    destruct (Hinit p1) as [e He]; congruence.
Qed.

End Kinds.

(** X5 (witness): a proxy connector with its own port, a requested
    identifier and category, and no host of its own takes the host of
    [remote.json] and is valid. *)
Lemma ProxyConnectorPlugIn_witness :
  p_host (ProxyConnectorPlugIn (referenceHost (Some remoteJson)) ownPortProxy
            {| getContents_remote_json := Some remoteJson |})
  = JStr "zss.example.org"
  ∧ p_port (ProxyConnectorPlugIn (referenceHost (Some remoteJson))
              ownPortProxy {| getContents_remote_json := Some remoteJson |})
    = JNum "7554".
Proof.
  destruct (ProxyConnectorPlugIn_needs_own_port
              (referenceHost (Some remoteJson)) ownPortProxy) as [H _].
  destruct (H {| getContents_remote_json := Some remoteJson |})
    as (_ & Hport & Hhost & _).
  - vm_compute. reflexivity.
  - split; [exact Hhost | exact Hport].
Defined.

(** X6 (witness): a library whose directory is missing, on a host where only
    the plugins directory exists. *)
Lemma LibraryPlugIn_witness :
  loadedPlugin bareHost (pluginDef "org.zowe.lib" "library" None) = None
  ∧ init bareHost
      (LibraryPlugIn bareHost (pluginDef "org.zowe.lib" "library" None)
         noRemote)
    = Throw ReferenceError.
Proof.
  destruct (LibraryPlugIn_needs_its_directory bareHost
              (pluginDef "org.zowe.lib" "library" None) eq_refl eq_refl)
    as (Hinit & Hloaded & _).
  split; [exact Hloaded | apply Hinit].
Defined.

(* ------------------------------------------------------------------ *)
(** ** Static web content *)

Section WebContent.
Context {semver : SemVer} (host : Host).

(** X20. What a batch makes of a plugin's web content. A loaded plugin whose
    definition has no (truthy) [webContent] has no content path. One whose
    definition has web content has a string as location, and it has a
    content path, [<location>/web], exactly when that path exists on disk;
    the web content is then an object (on any other truthy value the
    assignment of [path] throws in strict mode and the plugin is not
    loaded). *)
Theorem static_web_content_path (pluginDef : PluginDef) (plugin : PluginObj) :
  loadedPlugin host pluginDef = Some plugin →
  p_webContent plugin = inheritNull (d_webContent pluginDef)
  ∧ if truthy (d_webContent pluginDef)
    then is_string (p_location plugin) = true
         ∧ let contentPath :=
             path_join host [toPropertyKey (p_location plugin); "web"] in
           if fs_existsSync host (JStr contentPath)
           then is_object (d_webContent pluginDef) = true
                ∧ p_webContent_path plugin = Some contentPath
           else p_webContent_path plugin = None
    else p_webContent_path plugin = None.
Proof.
  intros Hloaded. apply loadedPlugin_Some in Hloaded.
  apply loadPlugin_inv in Hloaded
    as (cfg & made & p1 & p2 & _ & Hmk & _ & H1 & H2 & H3 & _).
  destruct (makePlugin_plugin _ _ _ _ _ Hmk eq_refl)
    as (_ & _ & kind & _ & _ & _ & _ & _ & _ & Hw & Hp & _).
  apply initDataServices_keeps in H1 as (_ & Hw1 & Hp1).
  apply init_keeps in H3 as ((_ & _ & _ & _ & _ & Sl & _) & Hw3 & Hp3).
  rewrite Hw3, Hp3, <- Sl. clear Hw3 Hp3 Sl.
  rewrite Hw in Hw1. rewrite Hp in Hp1. clear Hw Hp.
  unfold initStaticWebDependencies in H2.
  rewrite Hw1, truthy_inheritNull in H2.
  destruct (truthy (d_webContent pluginDef)) eqn:Hweb.
  - bind_inv H2.
    match goal with
    | E : pathJoin _ _ = Ok ?a |- _ =>
        unfold pathJoin in E;
        destruct (forallb is_string _) eqn:Hs; [|discriminate E];
        injection E as <-
    end.
    cbn [forallb] in Hs. apply andb_true_iff in Hs as [Hs _].
    cbn [fmap list_fmap toPropertyKey] in H2 |- *.
    destruct (fs_existsSync host _) eqn:He; cbn [negb] in H2; bind_inv H2.
    + destruct (d_webContent pluginDef) eqn:Hd; try discriminate H2.
      cbn [inheritNull] in H2. injection H2 as <-. cbn. rewrite He.
      repeat split; assumption.
    + injection H2 as <-. cbn. rewrite He. repeat split; assumption.
  - injection H2 as <-. split; assumption.
Qed.

End WebContent.

(** X20 (witness): the application with web content. *)
Lemma static_web_content_witness :
  ∃ plugin,
    loadedPlugin (referenceHost None) webApp = Some plugin
    ∧ p_webContent_path plugin = Some "/opt/zlux/plugins/org.zowe.webapp/web".
Proof.
  destruct (loadedPlugin (referenceHost None) webApp)
    as [plugin|] eqn:Hloaded; [|vm_compute in Hloaded; discriminate Hloaded].
  exists plugin. split; [reflexivity|].
  pose proof (static_web_content_path (referenceHost None) webApp plugin
                Hloaded) as (_ & H).
  simpl in H. destruct H as (_ & _ & ->).
  vm_compute in Hloaded. injection Hloaded as <-. reflexivity.
Defined.

(* ------------------------------------------------------------------ *)
(** ** The registry *)

Section Registry.
Context {semver : SemVer} (host : Host).

(** X7. In every state the loader reaches in which the prototype of
    [pluginMap] is still [Object.prototype], [pluginMap] indexes [plugins]:
    under a plugin's identifier it holds the last plugin of the list with
    that identifier, and it holds nothing under a key that no plugin of the
    list has. No plugin of the list has the identifier "__proto__" (such a
    plugin becomes the prototype of the map), and "__proto__" is no own
    property of the map. *)
Theorem pluginMap_indexes_plugins (this : PluginLoader) :
  reachable host this →
  prototype (pluginMap this) = None →
  (∀ key, key ≠ "__proto__" →
          properties (pluginMap this) !! key = last (named key (plugins this)))
  ∧ (∀ key plugin,
       properties (pluginMap this) !! key = Some plugin →
       plugin ∈ plugins this ∧ toPropertyKey (p_identifier plugin) = key)
  ∧ properties (pluginMap this) !! "__proto__" = None
  ∧ ∀ plugin, plugin ∈ plugins this →
              toPropertyKey (p_identifier plugin) ≠ "__proto__".
Proof.
  intros Hreach Hproto.
  destruct (reachable_indexed host this Hreach Hproto)
    as (Hidx & _ & Hnone & Hnames).
  split; [exact Hidx|]. split; [|split; [exact Hnone | exact Hnames]].
  intros key plugin Hlookup.
  destruct (decide (key = "__proto__")) as [->|Hkey]; [congruence|].
  rewrite (Hidx key Hkey) in Hlookup.
  apply last_Some_elem_of in Hlookup. unfold named in Hlookup.
  apply list_elem_of_filter in Hlookup as [Hk Hin]. split; assumption.
Qed.

Lemma registerAll_extends added this r this' :
  plugins this' = plugins this ++ added →
  pluginMap this' = registerAll added (pluginMap this) →
  emitted this `prefix_of` emitted this' →
  logged this `prefix_of` logged this' →
  extends this (r : result (), this').2.
Proof.
  intros Hp Hm He Hl. unfold extends. cbn [snd]. rewrite Hp, Hm.
  split; [eexists; reflexivity|]. split; [exact He|]. split; [exact Hl|].
  split.
  - intros key. apply registerAll_keys.
  - apply (registerAll_keys added (pluginMap this) "").
Qed.

(** X8. Both public methods only ever extend the loader: whether they return
    or throw, the plugin list, the emitted events and the log they leave
    start with the ones they found, every key of [pluginMap] stays defined,
    and a plugin that has become the prototype of the map is not replaced
    by [Object.prototype] again. *)
Theorem loader_only_grows (this : PluginLoader) :
  (∀ pluginDefs, extends this (installPlugins host pluginDefs this).2)
  ∧ (∀ pluginDef, extends this (addDynamicPlugin host pluginDef this).2).
Proof.
  split.
  - intros defs.
    destruct (installPlugins_run host defs this) as (entries & -> & _).
    eapply registerAll_extends; cbn; try reflexivity; eexists; reflexivity.
  - intros def. rewrite addDynamicPlugin_run.
    assert (Hsame : ∀ (r : result ()) entries,
              extends this (r, with_log entries this).2).
    { intros r entries.
      apply (registerAll_extends [] this r); cbn;
        rewrite ?app_nil_r; try reflexivity. eexists; reflexivity. }
    assert (Hthis : ∀ r : result (), extends this (r, this).2).
    { intros r. rewrite <- (with_log_nil this) at 2. apply Hsame. }
    destruct (convertible _); [|apply Hthis].
    destruct (pluginMap_truthy _ _); [apply Hthis|].
    destruct (dynamicPlugin host def) as [plugin|e]; [|apply Hsame].
    cbv zeta.
    destruct (pluginMap_assign _ plugin (pluginMap this)) as [map|e] eqn:Ha;
      apply (registerAll_extends [plugin]); cbn; rewrite ?Ha;
      try reflexivity; eexists; reflexivity.
Qed.

(** X9. A successful dynamic addition appends exactly one plugin, marked
    [dynamicallyCreated] and without a content path for static web files
    ([initStaticWebDependencies] is not called), assigns it to the map under
    its identifier and emits exactly one 'pluginAdded' event for it (and no
    'givePluginAmount'). When the definition has an identifier, the plugin
    is then an own property of the map, and adding the same definition again
    throws the already-registered error and changes nothing. *)
Theorem addDynamicPlugin_success (pluginDef : PluginDef)
    (this this' : PluginLoader) :
  addDynamicPlugin host pluginDef this = (Ok (), this') →
  ∃ plugin,
    plugins this' = plugins this ++ [plugin]
    ∧ emitted this' = emitted this ++ [pluginAdded plugin]
    ∧ pluginMap_assign (toPropertyKey (p_identifier plugin)) plugin
        (pluginMap this)
      = Ok (pluginMap this')
    ∧ p_identifier plugin = inheritNull (d_identifier pluginDef)
    ∧ p_dynamicallyCreated plugin = JBool true
    ∧ p_webContent_path plugin = None
    ∧ (d_identifier pluginDef ≠ JUndefined →
       properties (pluginMap this') !! toPropertyKey (d_identifier pluginDef)
       = Some plugin
       ∧ addDynamicPlugin host pluginDef this'
         = (Throw AlreadyRegistered, this')).
Proof.
  rewrite addDynamicPlugin_run.
  destruct (convertible (d_identifier pluginDef)) eqn:Hc; [|discriminate].
  destruct (pluginMap_truthy (pluginMap this) _) eqn:Hhas; [discriminate|].
  destruct (dynamicPlugin host pluginDef) as [plugin|e] eqn:Hdyn;
    [|discriminate].
  cbv zeta.
  destruct (pluginMap_assign _ plugin (pluginMap this)) as [map|e] eqn:Ha;
    [|discriminate].
  intros [= <-]. exists plugin.
  destruct (dynamicPlugin_inv _ _ _ Hdyn)
    as (_ & _ & _ & _ & _ & _ & _ & Hid & Hdc & Hweb).
  split; [reflexivity|]. split; [reflexivity|]. split; [exact Ha|].
  split; [exact Hid|]. split; [exact Hdc|]. split; [exact Hweb|].
  intros Hdef.
  assert (Hsame : p_identifier plugin = d_identifier pluginDef).
  { rewrite Hid. destruct (d_identifier pluginDef); simpl; congruence. }
  rewrite Hsame in Ha.
  assert (Hlookup : properties map !! toPropertyKey (d_identifier pluginDef)
                    = Some plugin).
  { unfold pluginMap_assign in Ha.
    destruct (String.eqb_spec (toPropertyKey (d_identifier pluginDef))
                "__proto__") as [E|_].
    - unfold pluginMap_truthy in Hhas. rewrite E in Hhas.
      apply orb_false_iff in Hhas as [_ Hhas].
      destruct (prototype (pluginMap this)); discriminate Hhas.
    - destruct (_ || _); [|discriminate Ha]. injection Ha as <-.
      apply lookup_insert_eq. }
  split; [exact Hlookup|].
  rewrite addDynamicPlugin_run, Hc. unfold pluginMap_truthy at 1.
  cbn [pluginMap with_emitted with_pluginMap].
  rewrite Hlookup, bool_decide_eq_true_2 by eauto. reflexivity.
Qed.

End Registry.

(** X7 (witness): two batches and the registry they leave. *)
Lemma pluginMap_indexes_witness :
  (p_identifier
     <$> properties
           (pluginMap (after (referenceHost None) [authConsumer]
                         (after (referenceHost None) [authProvider]
                            newPluginLoader)))
         !! "org.zowe.consumer")
  = Some (JStr "org.zowe.consumer").
Proof.
  destruct (pluginMap_indexes_plugins (referenceHost None)
              (after (referenceHost None) [authConsumer]
                 (after (referenceHost None) [authProvider] newPluginLoader)))
    as (Hidx & _).
  - eapply reachable_installPlugins;
      [eapply reachable_installPlugins; [apply reachable_new|]|];
      apply surjective_pairing.
  - vm_compute. reflexivity.
  - rewrite Hidx by discriminate. vm_compute. reflexivity.
Defined.

(** X9 (witness): the provider, added dynamically to a fresh loader. *)
Lemma addDynamicPlugin_success_witness :
  (p_identifier <$> plugins withProvider) = [JStr "org.zowe.provider"]
  ∧ addDynamicPlugin (referenceHost None) authProvider withProvider
    = (Throw AlreadyRegistered, withProvider).
Proof.
  destruct (addDynamicPlugin_success (referenceHost None) authProvider
              newPluginLoader withProvider)
    as (plugin & Hp & _ & _ & Hid & _ & _ & H).
  - vm_compute. reflexivity.
  - split.
    + rewrite Hp. simpl. rewrite Hid. reflexivity.
    + apply H. discriminate.
Defined.

(* ------------------------------------------------------------------ *)
(** ** The services of a plugin *)

Section DataServices.
Context {semver : SemVer} (host : Host).

Lemma initDataServices_loop_kept this defs : ∀ st st',
  initDataServices_loop host this st defs = Ok st' →
  ∃ built,
    g_filteredDataServices st' = g_filteredDataServices st ++ built
    ∧ Forall2 (describes (p_apiVersion this)) built
        (filter (λ def, recognised (sd_type def) = true) defs).
Proof.
  induction defs as [|d rest IH]; intros st st' Hrun;
    cbn [initDataServices_loop] in Hrun.
  - injection Hrun as <-. exists []. rewrite app_nil_r.
    split; [reflexivity | constructor].
  - bind_inv Hrun. rename E into Hstep.
    destruct (IH _ _ Hrun) as (built & Hb & HF).
    apply initDataServices_step_inv in Hstep
      as (_ & _ & _ & [[Hr ->] | (Hr & s & Hd & _ & Hf & _)]).
    + exists built. rewrite filter_cons, decide_False by congruence.
      split; assumption.
    + exists (s :: built). rewrite filter_cons, decide_True by assumption.
      split; [|constructor; assumption].
      rewrite Hb, Hf, <- app_assoc. reflexivity.
Qed.

(** X10. [initDataServices] replaces the plugin's service definitions by the
    service objects built from the definitions of a recognised type
    (service, import, nodeService, router, external), one per definition
    and in the order of the definitions; the definitions of any other type
    are dropped. Each object has the type, name and local name of its
    definition, and the definition's version or, when that is undefined,
    the plugin's API version. *)
Theorem initDataServices_keeps_recognised (this this' : PluginObj)
    (defs : list ServiceDef) :
  p_dataServices this = DSDefs defs →
  initDataServices host this = Ok this' →
  ∃ built,
    p_dataServices this' = DSBuilt built
    ∧ Forall2 (describes (p_apiVersion this)) built
        (filter (λ def, recognised (sd_type def) = true) defs).
Proof.
  intros Hds. unfold initDataServices. rewrite Hds. intros H. bind_inv H.
  injection H as <-.
  match goal with
  | Hloop : initDataServices_loop _ _ _ _ = Ok _ |- _ =>
      apply initDataServices_loop_kept in Hloop as (built & Hb & HF)
  end.
  exists built. simpl in *. subst. split; [reflexivity | exact HF].
Qed.

Lemma assignProperty_other {V} k (v : V) obj j :
  j ≠ "__proto__" →
  assignProperty k v obj !! j = if decide (k = j) then Some v else obj !! j.
Proof.
  intros Hj. unfold assignProperty.
  destruct (String.eqb_spec k "__proto__") as [->|_].
  - destruct (decide ("__proto__" = j)); congruence.
  - apply lookup_insert.
Qed.

Lemma addService_inv service name container container' :
  addService service name container = Ok container' →
  convertible name = true
  ∧ inherited (toPropertyKey name) = false
  ∧ convertible (s_version service) = true
  ∧ ∃ highest,
      container'
      = <[toPropertyKey name :=
            {| highestVersion := highest;
               versions :=
                 assignProperty (toPropertyKey (s_version service)) service
                   (versions match container !! toPropertyKey name with
                             | Some group => group
                             | None => {| highestVersion := JNull;
                                          versions := ∅ |}
                             end) |}]> container.
Proof.
  unfold addService, toString. intros H.
  destruct (convertible name); [|discriminate H].
  rewrite result_bind_Ok in H.
  destruct (inherited (toPropertyKey name)); [discriminate H|].
  bind_inv H.
  destruct (convertible (s_version service)); [|discriminate H].
  rewrite result_bind_Ok in H. injection H as <-.
  split_and!; try reflexivity. eexists. reflexivity.
Qed.

Lemma addService_lookup service name container container' :
  addService service name container = Ok container' →
  ∀ n k, k ≠ "__proto__" →
    lookupService container' n k
    = if decide (toPropertyKey name = n
                 ∧ toPropertyKey (s_version service) = k)
      then Some service
      else lookupService container n k.
Proof.
  intros H. apply addService_inv in H as (_ & _ & _ & highest & ->).
  intros n k Hk. unfold lookupService.
  destruct (decide (toPropertyKey name = n)) as [<-|Hn].
  - rewrite lookup_insert_eq. simpl.
    rewrite (assignProperty_other _ _ _ _ Hk).
    destruct (decide (toPropertyKey (s_version service) = k)) as [<-|Hv].
    + rewrite decide_True by (split; reflexivity). reflexivity.
    + rewrite decide_False by (intros [_ ?]; contradiction).
      destruct (container !! toPropertyKey name); [reflexivity|].
      apply lookup_empty.
  - rewrite lookup_insert_ne by exact Hn.
    rewrite decide_False by (intros [? _]; contradiction). reflexivity.
Qed.

Lemma last_filter_snoc {A} (P : A → Prop) `{∀ x, Decision (P x)} l x :
  last (filter P (l ++ [x]))
  = if decide (P x) then Some x else last (filter P l).
Proof.
  rewrite filter_app, filter_cons, filter_nil.
  destruct (decide (P x)).
  - apply last_snoc.
  - rewrite app_nil_r. reflexivity.
Qed.

Lemma initDataServices_step_grouped this st def st' :
  groupsIndexed st →
  initDataServices_step host this st def = Ok st' →
  groupsIndexed st'.
Proof.
  intros Hinv Hstep.
  apply initDataServices_step_inv in Hstep
    as (_ & _ & _ & [[_ ->] | (Hr & s & Hd & _ & Hf & Hadd)]); [exact Hinv|].
  destruct Hd as (Ht & _).
  assert (He : isExposed (s_type s) = negb (strict_eq (sd_type def) "import"))
    by (unfold isExposed; rewrite Ht, Hr; reflexivity).
  assert (Hgn : groupName s = if strict_eq (sd_type def) "import"
                              then s_localName s else s_name s)
    by (unfold groupName; rewrite Ht; reflexivity).
  unfold isExposed in Hadd. rewrite Hr in Hadd. simpl in Hadd.
  intros n k Hk. destruct (Hinv n k Hk) as [Hg Hi].
  unfold servicesNamed in *. rewrite Hf, !last_filter_snoc. cbv beta.
  rewrite <- Hg, <- Hi, He, Hgn.
  destruct (strict_eq (sd_type def) "import"); simpl in Hadd;
    destruct Hadd as [Hadd ->];
    rewrite (addService_lookup _ _ _ _ Hadd n k Hk);
    simpl; split; repeat case_decide; try reflexivity; exfalso;
    intuition congruence.
Qed.

Lemma initDataServices_loop_grouped this defs : ∀ st st',
  groupsIndexed st →
  initDataServices_loop host this st defs = Ok st' →
  groupsIndexed st'.
Proof.
  induction defs as [|def rest IH]; intros st st' Hinv Hrun;
    cbn [initDataServices_loop] in Hrun.
  - injection Hrun as <-. exact Hinv.
  - bind_inv Hrun. eapply IH; [|exact Hrun].
    eapply initDataServices_step_grouped; eassumption.
Qed.

(** X11. After [initDataServices], the two containers index the service
    objects of [dataServices]: [dataServicesGrouped[name].versions[version]]
    is the last exposed service (service, nodeService, router, external)
    with that name and version, [importsGrouped[localName].versions[version]]
    is the last import with that local name and version, and neither
    container holds anything else. *)
Theorem grouped_services_index_dataServices (this this' : PluginObj)
    (defs : list ServiceDef) :
  p_dataServices this = DSDefs defs →
  initDataServices host this = Ok this' →
  ∃ exposed imports built,
    p_dataServicesGrouped this' = Some exposed
    ∧ p_importsGrouped this' = Some imports
    ∧ p_dataServices this' = DSBuilt built
    ∧ ∀ name version, version ≠ "__proto__" →
        lookupService exposed name version
        = last (servicesNamed true name version built)
        ∧ lookupService imports name version
          = last (servicesNamed false name version built).
Proof.
  intros Hds. unfold initDataServices. rewrite Hds. intros H. bind_inv H.
  injection H as <-. rename a into st. simpl.
  exists (g_dataServicesGrouped st), (g_importsGrouped st),
    (g_filteredDataServices st).
  split; [reflexivity|]. split; [reflexivity|]. split; [reflexivity|].
  eapply initDataServices_loop_grouped; [|eassumption].
  intros n k _. split; reflexivity.
Qed.

(** X12. [initDataServices] is all or nothing: it returns only if, for every
    definition of the plugin, [makeDataService] returns a service object,
    the implementation of a node service or router can be loaded, and the
    name a recognised service is grouped under converts to a string that is
    not a name an object literal inherits from [Object.prototype]. *)
Theorem initDataServices_needs_every_service (this this' : PluginObj)
    (defs : list ServiceDef) :
  p_dataServices this = DSDefs defs →
  initDataServices host this = Ok this' →
  ∀ def, def ∈ defs →
    ∃ s, makeDataService host def this = Ok s
    ∧ (isNodeService (sd_type def) = true →
       loose_eq (sd_type def) "service" = false →
       strict_eq (sd_type def) "import" = false →
       is_Ok (loadImplementation host s (p_dynamicallyCreated this)
                (p_location this)))
    ∧ (recognised (sd_type def) = true →
       convertible (groupName s) = true
       ∧ inherited (toPropertyKey (groupName s)) = false).
Proof.
  intros Hds. unfold initDataServices. rewrite Hds. intros H. bind_inv H.
  clear H. intros def Hin.
  match goal with
  | Hloop : initDataServices_loop _ _ _ _ = Ok _ |- _ =>
      destruct (initDataServices_loop_Ok _ _ _ _ _ Hloop def Hin)
        as (st1 & st2 & Hstep)
  end.
  apply initDataServices_step_inv in Hstep
    as (s0 & Hmk & Hload & Hcases).
  exists s0. split; [exact Hmk|]. split; [exact Hload|].
  intros Hr. destruct Hcases as [[Hr' _] | (_ & s & Hd & _ & _ & Hadd)];
    [congruence|].
  pose proof (makeDataService_Ok _ _ _ _ Hmk) as (Ht0 & Hn0 & Hl0 & _).
  destruct Hd as (Ht & Hn & Hl & _).
  unfold groupName. rewrite Ht0, Hl0, Hn0, <- Hl, <- Hn.
  unfold isExposed in Hadd. rewrite Hr in Hadd. simpl in Hadd.
  destruct (strict_eq (sd_type def) "import"); simpl in Hadd;
    destruct Hadd as [Hadd _];
    apply addService_inv in Hadd as (H1 & H2 & _); auto.
Qed.

End DataServices.

(** X10 (witness): the plugin with services of every type. *)
Lemma initDataServices_keeps_witness :
  ∃ this' built,
    initDataServices (referenceHost None) mixedPlugin = Ok this'
    ∧ p_dataServices this' = DSBuilt built
    ∧ s_name <$> built
      = [JStr "files"; JUndefined; JStr "jobs"; JStr "zss"; JStr "files"].
Proof.
  destruct (initDataServices (referenceHost None) mixedPlugin)
    as [this'|e] eqn:Hinit; [|vm_compute in Hinit; discriminate Hinit].
  destruct (initDataServices_keeps_recognised (referenceHost None)
              mixedPlugin this' _ eq_refl Hinit) as (built & Hb & HF).
  exists this', built. split; [reflexivity|]. split; [exact Hb|].
  vm_compute in Hinit. injection Hinit as <-.
  injection Hb as <-. reflexivity.
Defined.

(** X11 (witness): the router of the plugin with services of every type. *)
Lemma grouped_services_witness :
  ∃ this' exposed,
    initDataServices (referenceHost None) mixedPlugin = Ok this'
    ∧ p_dataServicesGrouped this' = Some exposed
    ∧ s_name <$> lookupService exposed "jobs" "1.1.0" = Some (JStr "jobs").
Proof.
  destruct (initDataServices (referenceHost None) mixedPlugin)
    as [this'|e] eqn:Hinit; [|vm_compute in Hinit; discriminate Hinit].
  destruct (grouped_services_index_dataServices (referenceHost None)
              mixedPlugin this' _ eq_refl Hinit)
    as (exposed & imports & built & He & _ & Hb & Hidx).
  exists this', exposed. split; [reflexivity|]. split; [exact He|].
  destruct (Hidx "jobs" "1.1.0") as [-> _]; [discriminate|].
  vm_compute in Hinit. injection Hinit as <-.
  injection Hb as <-. vm_compute. reflexivity.
Defined.

(** X12 (witness): the router of the plugin with services of every type. *)
Lemma initDataServices_needs_witness :
  is_Ok (makeDataService (referenceHost None)
           (routerDef "jobs" "1.1.0" (JStr "jobs.js")) mixedPlugin).
Proof.
  destruct (initDataServices (referenceHost None) mixedPlugin)
    as [this'|e] eqn:Hinit; [|vm_compute in Hinit; discriminate Hinit].
  destruct (initDataServices_needs_every_service (referenceHost None)
              mixedPlugin this' _ eq_refl Hinit
              (routerDef "jobs" "1.1.0" (JStr "jobs.js")))
    as (s & Hs & _).
  - do 3 apply list_elem_of_further. apply list_elem_of_here.
  - exists s. exact Hs.
Defined.

(* ------------------------------------------------------------------ *)
(** ** One service *)

Section OneService.
Context {semver : SemVer} (host : Host).


(** X14. A plugin read from disk (one whose definition does not set
    [dynamicallyCreated]) that declares a node service or router naming
    neither [filename] nor [fileName] is not loaded by a batch. *)
Theorem node_service_needs_file_name (pluginDef : PluginDef)
    (defs : list ServiceDef) (def : ServiceDef) :
  d_dataServices pluginDef = Some defs →
  def ∈ defs →
  isNodeService (sd_type def) = true →
  truthy (d_dynamicallyCreated pluginDef) = false →
  truthy (sd_filename def) = false →
  truthy (sd_fileName def) = false →
  loadedPlugin host pluginDef = None.
Proof.
  intros Hds Hin Hnode Hdyn Hf1 Hf2.
  destruct (loadedPlugin host pluginDef) as [plugin|] eqn:Hl; [|reflexivity].
  exfalso.
  apply loadedPlugin_Some, loadPlugin_inv in Hl
    as (cfg & made & p1 & p2 & _ & Hmk & _ & Hinit & _).
  destruct (makePlugin_plugin _ _ _ _ _ Hmk eq_refl)
    as (_ & _ & kind & _ & _ & (_ & _ & _ & Hdefs) & _ & _ & _ & _ & _ & _
        & Hd).
  rewrite Hds in Hdefs.
  unfold initDataServices in Hinit. rewrite Hdefs in Hinit.
  bind_inv Hinit.
  match goal with
  | Hloop : initDataServices_loop _ _ _ _ = Ok _ |- _ =>
      destruct (initDataServices_loop_Ok _ _ _ _ _ Hloop def Hin)
        as (st1 & st2 & Hstep)
  end.
  apply initDataServices_step_inv in Hstep as (s & Hs & Hload & _).
  assert (Hns : loose_eq (sd_type def) "service" = false
                ∧ strict_eq (sd_type def) "import" = false).
  { unfold isNodeService in Hnode.
    apply orb_true_iff in Hnode as [H | H].
    - split; [eapply loose_eq_exclusive; [|exact H]; discriminate|].
      destruct (strict_eq (sd_type def) "import") eqn:Hi; [|reflexivity].
      apply strict_loose_eq in Hi.
      assert (Hx : loose_eq (sd_type def) "nodeService" = false)
        by (eapply loose_eq_exclusive; [|exact Hi]; discriminate).
      congruence.
    - destruct (sd_type def) as [| | | |t|]; try discriminate H.
      simpl in *. apply String.eqb_eq in H. subst t. split; reflexivity. }
  destruct Hns as [Hn1 Hn2].
  destruct (Hload Hnode Hn1 Hn2) as [s' Hs'].
  apply makeDataService_Ok in Hs
    as (_ & _ & _ & _ & _ & _ & c & _ & Hc).
  apply constructed_inv in Hc as (_ & _ & _ & _ & _ & _ & F1 & F2 & _).
  unfold loadImplementation in Hs'.
  rewrite Hd, Hdyn, F1, F2, Hf1, Hf2 in Hs'. discriminate Hs'.
Qed.

End OneService.

(** X14 (witness): the router without a file. *)
Lemma node_service_witness :
  loadedPlugin (referenceHost None) fileless = None.
Proof.
  apply (node_service_needs_file_name (referenceHost None) fileless
           [routerDef "jobs" "1.1.0" JUndefined]
           (routerDef "jobs" "1.1.0" JUndefined));
    first [reflexivity | apply list_elem_of_here].
Defined.

(* ------------------------------------------------------------------ *)
(** ** Authentication plugins *)

Section Authentication.
Context {semver : SemVer} (host : Host).

(** X15. A node-authentication plugin that a batch loads carries the module
    required from [lib/<filename>] under its location, and it is this very
    object, with the module in place, that the authentication manager
    accepted as authenticator. Its location and file name are strings:
    [isValid] takes any truthy file name, but [path.join] throws on one that
    is not a string, and the plugin is then not loaded. *)
Theorem authentication_plugin_registers_itself (pluginDef : PluginDef)
    (plugin : PluginObj) :
  d_pluginType pluginDef = JStr "nodeAuthentication" →
  loadedPlugin host pluginDef = Some plugin →
  is_string (p_location plugin) = true
  ∧ is_string (p_filename plugin) = true
  ∧ ∃ authenticationModule,
      require host (path_join host [toPropertyKey (p_location plugin); "lib";
                                    toPropertyKey (p_filename plugin)])
      = Ok authenticationModule
      ∧ p_authenticationModule plugin = Some authenticationModule
      ∧ registerAuthenticator host plugin = Ok ().
Proof.
  intros Htype Hloaded. apply loadedPlugin_Some in Hloaded.
  apply loadPlugin_inv in Hloaded
    as (cfg & made & p1 & p2 & _ & Hmk & _ & H1 & H2 & H3 & _).
  destruct (makePlugin_plugin _ _ _ _ _ Hmk eq_refl)
    as (_ & _ & kind & Hin & Hk & _).
  rewrite Htype in Hin.
  assert (kind = NodeAuthenticationPlugIn_) as ->.
  { eapply knownPluginTypes_functional; [exact Hin|].
    unfold knownPluginTypes.
    repeat first [apply list_elem_of_here | apply list_elem_of_further]. }
  apply initDataServices_keeps in H1 as (K1 & _).
  apply initStaticWebDependencies_keeps in H2.
  pose proof (sameProperties_trans _ _ _ K1 H2) as (Sk & _).
  unfold init in H3. rewrite <- Sk, Hk in H3.
  unfold NodeAuthenticationPlugIn_init in H3.
  bind_inv H3. rename E into Hjoin. bind_inv H3. clear E.
  bind_inv H3. rename E into Hreq. cbv zeta in H3.
  bind_inv H3. rename E into Hreg.
  injection H3 as <-.
  unfold pathJoin in Hjoin.
  destruct (forallb is_string _) eqn:Hstr; [|discriminate Hjoin].
  injection Hjoin as <-.
  cbn [forallb] in Hstr. apply andb_true_iff in Hstr as [Hl Hstr].
  apply andb_true_iff in Hstr as [_ Hstr].
  apply andb_true_iff in Hstr as [Hf _].
  match type of Hreg with _ = Ok ?u => destruct u end. simpl.
  split; [exact Hl|]. split; [exact Hf|].
  eexists. split; [exact Hreq|]. split; [reflexivity | exact Hreg].
Qed.

End Authentication.

(** X15 (witness): the authentication plugin the reference host requests. *)
Lemma authentication_plugin_witness :
  ∃ plugin,
    loadedPlugin (referenceHost None) requestedAuth = Some plugin
    ∧ p_authenticationModule plugin
      = Some "/opt/zlux/plugins/org.zowe.zlux.auth.trivial/lib/auth.js".
Proof.
  destruct (loadedPlugin (referenceHost None) requestedAuth)
    as [plugin|] eqn:Hloaded; [|vm_compute in Hloaded; discriminate Hloaded].
  exists plugin. split; [reflexivity|].
  destruct (authentication_plugin_registers_itself (referenceHost None)
              requestedAuth plugin eq_refl Hloaded)
    as (_ & _ & m & Hreq & -> & _).
  vm_compute in Hloaded. injection Hloaded as <-.
  vm_compute in Hreq. injection Hreq as <-. reflexivity.
Defined.

(* ------------------------------------------------------------------ *)
(** ** Reading the plugins directory *)

Section ReadingProperties.
Context {semver : SemVer} (host : Host) (dir : PluginsDir).

Lemma readPluginDefs_loop_omap files : ∀ defs,
  readPluginDefs_loop host dir files defs
  = defs ++ omap (readDef host dir) files.
Proof.
  induction files as [|file rest IH]; intros defs.
  - symmetry. apply app_nil_r.
  - change (readPluginDefs_loop host dir (file :: rest) defs)
      with (match _readPluginDef host dir file with
            | inr plugin => readPluginDefs_loop host dir rest (defs ++ [plugin])
            | inl _ => readPluginDefs_loop host dir rest defs
            end).
    rewrite omap_cons. unfold readDef at 1.
    destruct (_readPluginDef host dir file) as [err|plugin]; rewrite IH.
    + reflexivity.
    + rewrite <- app_assoc. reflexivity.
Qed.

Lemma strictEquals_eq a b :
  strictEquals a b = true → a = b ∧ is_object a = false.
Proof.
  unfold strictEquals.
  destruct a, b; try discriminate; intros H;
    try apply andb_true_iff in H as [_ H];
    apply bool_decide_eq_true in H; (split; [exact H | reflexivity]).
Qed.

Lemma readDef_checked file def :
  readDef host dir file = Some def →
  ∃ pluginPtrPath pluginPtrDef,
    pathJoin host [pluginsDir dir; JStr file] = Ok pluginPtrPath
    ∧ fs_existsSync host (JStr pluginPtrPath) = true
    ∧ parsePointer dir pluginPtrPath = Ok pluginPtrDef
    ∧ d_location def = ptr_pluginLocation pluginPtrDef
    ∧ is_string (d_location def) = true
    ∧ fs_existsSync host (d_location def) = true
    ∧ d_identifier def = ptr_identifier pluginPtrDef
    ∧ truthy (d_pluginType def) = true
    ∧ is_object (d_identifier def) = false
    ∧ convertible (d_pluginType def) = true.
Proof.
  unfold readDef, _readPluginDef.
  destruct (pathJoin host [pluginsDir dir; JStr file]) as [ptrPath|e];
    [|discriminate].
  destruct (fs_existsSync host (JStr ptrPath)) eqn:He1; simpl;
    [|discriminate].
  destruct (parsePointer dir ptrPath) as [ptr|e] eqn:Hp; [|discriminate].
  destruct (fs_existsSync host (ptr_pluginLocation ptr)) eqn:He2; simpl.
  2:{ destruct (interpolate _); discriminate. }
  destruct (pathJoin host [ptr_pluginLocation ptr; _]) as [defPath|e] eqn:Hj;
    [|discriminate].
  destruct (fs_existsSync host (JStr defPath)); simpl; [|discriminate].
  destruct (parseDefinition dir defPath) as [pluginDef|e]; [|discriminate].
  destruct (strictEquals _ _) eqn:Hid; simpl.
  2:{ destruct (interpolate _); discriminate. }
  destruct (truthy (d_pluginType pluginDef)) eqn:Ht; simpl; [|discriminate].
  destruct (interpolate [d_pluginType pluginDef]) as [[]|e] eqn:Hi;
    [|discriminate].
  intros [= <-]. exists ptrPath, ptr. simpl.
  assert (Hs : is_string (ptr_pluginLocation ptr) = true).
  { unfold pathJoin in Hj.
    destruct (forallb is_string _) eqn:Hs; [|discriminate Hj].
    simpl in Hs. apply andb_true_iff in Hs as [Hs _]. exact Hs. }
  apply strictEquals_eq in Hid as [Hid Hobj].
  apply interpolate_Ok in Hi. cbn [forallb] in Hi.
  apply andb_true_iff in Hi as [Hi _].
  split_and!; first [reflexivity | assumption].
Qed.

Lemma is_object_convertible v : is_object v = false → convertible v = true.
Proof. destruct v as [| | | | |[|]]; try reflexivity; discriminate. Qed.

(** X16. [readPluginDefs] throws only when the message naming the plugins
    directory cannot be built or the directory cannot be listed. Otherwise
    it returns, in the order of the listing, the definition of every entry
    whose name contains ".json" and that [_readPluginDef] accepts; an entry
    that [_readPluginDef] rejects, whatever the error, is left out and has
    no effect on the others. *)
Theorem readPluginDefs_skips_failing_references :
  readPluginDefs host dir
  = (interpolate [pluginsDir dir];;
     files ← readdirSync dir (pluginsDir dir);
     Ok (omap (readDef host dir) (List.filter (contains ".json") files))).
Proof.
  unfold readPluginDefs.
  destruct (interpolate [pluginsDir dir]); [|reflexivity].
  rewrite !result_bind_Ok.
  destruct (readdirSync dir (pluginsDir dir)) as [files|e]; [|reflexivity].
  rewrite !result_bind_Ok, readPluginDefs_loop_omap. reflexivity.
Qed.

(** X17. Every definition [readPluginDefs] returns was checked against its
    reference file: the reference file exists in the plugins directory, the
    definition's identifier is the one the reference file gives, its
    location is the [pluginLocation] of the reference file (whatever the
    definition file said), a string naming an existing path, and its plugin
    type is truthy. Its identifier is not an object, and its plugin type can
    be converted to a string. *)
Theorem read_definitions_are_checked (defs : list PluginDef) :
  readPluginDefs host dir = Ok defs →
  ∀ def, def ∈ defs →
    ∃ file pluginPtrPath pluginPtrDef,
      contains ".json" file = true
      ∧ pathJoin host [pluginsDir dir; JStr file] = Ok pluginPtrPath
      ∧ fs_existsSync host (JStr pluginPtrPath) = true
      ∧ parsePointer dir pluginPtrPath = Ok pluginPtrDef
      ∧ d_location def = ptr_pluginLocation pluginPtrDef
      ∧ is_string (d_location def) = true
      ∧ fs_existsSync host (d_location def) = true
      ∧ d_identifier def = ptr_identifier pluginPtrDef
      ∧ truthy (d_pluginType def) = true
      ∧ is_object (d_identifier def) = false
      ∧ convertible (d_pluginType def) = true.
Proof.
  unfold readPluginDefs. intros H. bind_inv H. bind_inv H.
  rewrite readPluginDefs_loop_omap in H. injection H as <-.
  intros def Hin. simpl in Hin.
  apply list_elem_of_omap in Hin as (file & Hfile & Hread).
  apply list_elem_of_In, List.filter_In in Hfile as [_ Hjson].
  destruct (readDef_checked _ _ Hread) as (ptrPath & ptr & H).
  exists file, ptrPath, ptr. split; [exact Hjson | exact H].
Qed.

(** X18. [loadPlugins] throws what [readPluginDefs] throws, and then leaves
    the loader as it was. Otherwise it installs the batch of the definitions
    that could be read, and returns or throws as [installPlugins] does on
    that batch. The identifier of a definition that was read is not an
    object, so that [installPlugins] returns normally whenever the
    dependency graph orders and rejects definitions of the batch only. *)
Theorem loadPlugins_fails_only_on_unreadable_directory (this : PluginLoader) :
  (∀ e, readPluginDefs host dir = Throw e →
        loadPlugins host dir this = (Throw e, this))
  ∧ ∀ defs, readPluginDefs host dir = Ok defs →
      loadPlugins host dir this
      = (if completes host defs this then Ok () else Throw TypeError,
         after host defs this)
      ∧ (fromBatch (processImports host (plugins this) defs) defs →
         loadPlugins host dir this = (Ok (), after host defs this)).
Proof.
  split.
  - intros e He. unfold loadPlugins. rewrite He. reflexivity.
  - intros defs Hdefs.
    assert (Hrun : loadPlugins host dir this
                   = (if completes host defs this then Ok ()
                      else Throw TypeError, after host defs this)).
    { unfold loadPlugins. rewrite Hdefs, bind_lift.
      rewrite <- after_result. unfold after. apply surjective_pairing. }
    split; [exact Hrun|].
    intros [Hplugins Hrejects]. rewrite Hrun.
    replace (completes host defs this) with true; [reflexivity|].
    symmetry. apply completes_iff.
    assert (Hconv : ∀ def, def ∈ defs → convertible (d_identifier def) = true).
    { intros def Hin.
      destruct (read_definitions_are_checked defs Hdefs def Hin)
        as (file & ptrPath & ptr & H). destruct_and!.
      apply is_object_convertible. assumption. }
    split.
    + intros rejected Hin.
      destruct (Hrejects rejected Hin) as (def & Hdef & ->).
      apply Hconv, Hdef.
    + intros def Hin. apply Hconv, Hplugins, Hin.
Qed.

End ReadingProperties.

(** X17 (witness): the reference directory. *)
Lemma read_definitions_witness :
  ∃ defs,
    readPluginDefs (referenceHost None) referenceDir = Ok defs
    ∧ d_identifier <$> defs
      = [JStr "org.zowe.provider"; JStr "org.zowe.consumer"]
    ∧ ∀ def, def ∈ defs → truthy (d_pluginType def) = true.
Proof.
  destruct (readPluginDefs (referenceHost None) referenceDir)
    as [defs|e] eqn:Hread; [|vm_compute in Hread; discriminate Hread].
  exists defs. split; [reflexivity|]. split.
  - vm_compute in Hread. injection Hread as <-. reflexivity.
  - intros def Hin.
    destruct (read_definitions_are_checked (referenceHost None) referenceDir
                defs Hread def Hin)
      as (file & ptrPath & ptr & _ & _ & _ & _ & _ & _ & _ & _ & Ht & _).
    exact Ht.
Defined.

(** X18 (witness): the reference directory, read by a new loader. *)
Lemma loadPlugins_witness :
  (loadPlugins (referenceHost None) referenceDir newPluginLoader).1 = Ok ()
  ∧ p_identifier
    <$> plugins (loadPlugins (referenceHost None) referenceDir
                   newPluginLoader).2
    = [JStr "org.zowe.provider"; JStr "org.zowe.consumer"].
Proof.
  destruct (readPluginDefs (referenceHost None) referenceDir)
    as [defs|e] eqn:Hread; [|vm_compute in Hread; discriminate Hread].
  destruct (loadPlugins_fails_only_on_unreadable_directory
              (referenceHost None) referenceDir newPluginLoader) as [_ H].
  destruct (H defs Hread) as [_ Hbatch]. rewrite Hbatch.
  - vm_compute in Hread. injection Hread as <-.
    split; [reflexivity | vm_compute; reflexivity].
  - vm_compute in Hread. injection Hread as <-.
    remember (processImports (referenceHost None) (plugins newPluginLoader) _)
      as sorted eqn:Hsorted.
    vm_compute in Hsorted. subst sorted. split.
    + intros def Hin. cbn [sr_plugins] in Hin.
      repeat (apply elem_of_cons in Hin as [-> | Hin]);
        try (inversion Hin);
        repeat first [apply list_elem_of_here | apply list_elem_of_further].
    + intros rejected Hin. inversion Hin.
Defined.

(* ------------------------------------------------------------------ *)
(** ** The generated Angular module *)

Lemma ng2_forEach_module acc def :
  usesAngular2 def = true →
  ng2_forEach acc def
  = if ng2Throws def then Throw TypeError
    else Ok match ng2Module def with
            | Some module =>
                (acc.1 ++ [ng2ImportStmt module], acc.2 ++ [module.1])
            | None => acc
            end.
Proof.
  unfold usesAngular2, ng2_forEach, ng2Module, ng2Throws, toString,
    interpolate.
  destruct (ng2_webContent def) as [webContent|]; [|discriminate].
  intros ->. cbn [andb forallb].
  destruct (truthy (ng2ModuleName webContent));
    destruct (truthy (ng2ModuleLocation webContent)); cbn [andb negb];
    try (destruct (convertible (ng2_location def)); reflexivity).
  destruct (convertible (ng2ModuleName webContent)); [|reflexivity].
  destruct (convertible (ng2ModuleLocation webContent)); reflexivity.
Qed.

Lemma ng2Module_usesAngular2 def :
  usesAngular2 def = false → ng2Module def = None ∧ ng2Throws def = false.
Proof.
  unfold usesAngular2, ng2Module, ng2Throws.
  destruct (ng2_webContent def) as [webContent|]; [|split; reflexivity].
  intros ->. split; reflexivity.
Qed.

Lemma ng2_loop_all plugins : ∀ acc,
  ng2_loop acc (List.filter usesAngular2 plugins)
  = if existsb ng2Throws plugins then Throw TypeError
    else Ok (acc.1 ++ (ng2ImportStmt <$> omap ng2Module plugins),
             acc.2 ++ (omap ng2Module plugins).*1).
Proof.
  induction plugins as [|def rest IH]; intros [importStmts modules].
  - simpl. rewrite !app_nil_r. reflexivity.
  - rewrite omap_cons. cbn [List.filter existsb].
    destruct (usesAngular2 def) eqn:Huses.
    + cbn [ng2_loop]. rewrite (ng2_forEach_module _ _ Huses).
      destruct (ng2Throws def); [reflexivity|].
      rewrite result_bind_Ok, IH. cbn [orb].
      destruct (existsb ng2Throws rest); [reflexivity|].
      destruct (ng2Module def) as [module|]; [|reflexivity].
      cbn [fst snd]. rewrite !fmap_cons, <- !app_assoc. reflexivity.
    + destruct (ng2Module_usesAngular2 _ Huses) as [-> ->].
      rewrite IH. reflexivity.
Qed.

(** X19. [_generateNg2ModuleTs] throws a TypeError when, for a plugin whose
    web content names the framework "angular2", the module name or location
    (or, when one of them is falsy, the plugin's location in the warning)
    cannot be converted to a string. Otherwise the text it generates is the
    root module that imports [BrowserModule] and then, in the order of the
    plugins, the module of every plugin whose web content names the
    framework "angular2" and gives a truthy module name and location: for
    each of them one import statement and one entry of the [imports] list,
    in the same order. A plugin without such web content contributes to
    neither. *)
Theorem generated_module_imports_angular_plugins (plugins : list Ng2Plugin) :
  _generateNg2ModuleTs plugins
  = if existsb ng2Throws plugins then Throw TypeError
    else Ok (ng2RootModule (omap ng2Module plugins)).
Proof.
  unfold _generateNg2ModuleTs, ng2RootModule.
  rewrite ng2_loop_all.
  destruct (existsb ng2Throws plugins); reflexivity.
Qed.
